(** * ChemBot core: a shallow embedding of the retrieval/answering backend

    The development follows the Python sources under [src/backend]:
    - [cache/redis_cache.py]               module [Cache] (and [Redis],
                                           [Sha256], [Json] for what it
                                           calls)
    - [utils/rate_limiter.py]              module [Retry]
    - [rag/chunking.py]                    module [Chunking]
    - [chatbot/conversation_manager.py]    module [Conversation]
    - [chatbot/query_classifier.py], [rag/vector_store.py],
      [rag/query_engine.py] (the generation and streaming paths) and
      [chatbot/chatbot_engine.py] (the streaming path)
                                           module [Engine]
    - [rag/pipeline.py] and the factory of [rag/chunking.py]
                                           module [Pipeline]
    - [routes/content.py] (the background task of an upload)
                                           module [ContentRoutes]

    Modelling choices.
    - Python [str] values are [string]s; a character is a code point
      below 256 (ASCII and the Latin-1 supplement), on which [str.lower],
      [str.strip], [str.split] and [str.encode] are written out exactly.
      Text outside that range is not representable here.
    - Python [int]s are [Z] (or [nat] for lengths and positions), floats
      that are compared are binary64 [float]s, and the delays of the
      executor, which are only multiplied, are rationals.
    - A coroutine is the function of the state it runs on: one request
      runs alone, so the semaphore of the executor is free whenever an
      attempt starts and shows only as events of the trace.
    - An exception is a [Raise] result; a generator is the list of what
      it yields.  Only exceptions derived from [Exception] are modelled:
      the cancellation of a task ([asyncio.CancelledError]) is not, and
      neither is the overflow of a float.
    - The generation and embedding provider, the vector index, the
      database and the clock are operations on an abstract external
      state ([externals]); prompt templates, [json.loads] and [str()]
      on JSON values come with the configuration.
    - A dictionary with string keys is an association list in insertion
      order; the Redis key space and the conversation map are [gmap]s.
      A cached payload is stored as the dictionary itself: [json.dumps]
      followed by [json.loads] is the identity on it. *)

From Stdlib Require Import ZArith QArith String Ascii List Bool Lia Floats.
From Stdlib Require Import DecimalString DecimalZ.
From stdpp Require Import gmap strings list sorting.

Set Warnings "-inexact-float".

Import ListNotations.
Open Scope string_scope.

(* ===================================================================== *)
(** ** Python string primitives *)
(* ===================================================================== *)

Module Py.

(** Code point of a character. *)
Definition code (c : ascii) : Z := Z.of_N (N_of_ascii c).

Definition chr (z : Z) : ascii := ascii_of_N (Z.to_N z).

(** [str.isspace] on code points below 256. *)
Definition is_space (c : ascii) : bool :=
  let n := code c in
  ((9 <=? n) && (n <=? 13) || (28 <=? n) && (n <=? 32)
   || (n =? 133) || (n =? 160))%Z.

(** The capital letters below 256: A-Z and the Latin-1 capitals
    U+00C0..U+00DE (U+00D7, the multiplication sign, is not a letter). *)
Definition is_upper (c : ascii) : bool :=
  let n := code c in
  ((65 <=? n) && (n <=? 90)
   || (192 <=? n) && (n <=? 222) && negb (n =? 215))%Z.

(** [str.lower] for one code point. *)
Definition lower_char (c : ascii) : ascii :=
  if is_upper c then chr (code c + 32) else c.

Fixpoint lower (s : string) : string :=
  match s with
  | EmptyString => EmptyString
  | String c s' => String (lower_char c) (lower s')
  end.

Fixpoint lstrip (s : string) : string :=
  match s with
  | String c s' => if is_space c then lstrip s' else s
  | EmptyString => EmptyString
  end.

(** [rstrip]: a character is kept when it is not white space or when
    something survives to its right. *)
Fixpoint rstrip (s : string) : string :=
  match s with
  | EmptyString => EmptyString
  | String c s' =>
      match rstrip s' with
      | EmptyString => if is_space c then EmptyString else String c EmptyString
      | r => String c r
      end
  end.

Definition strip (s : string) : string := rstrip (lstrip s).

(** [s.split()] without argument: maximal runs of non-space characters.
    [cur] is the word being read, in reverse. *)
Definition rev_string (l : list ascii) : string :=
  string_of_list_ascii (List.rev l).

Definition flush (cur : list ascii) (acc : list string) : list string :=
  match cur with
  | [] => acc
  | _ => rev_string cur :: acc
  end.

Fixpoint split_ws_aux (s : string) (cur : list ascii) : list string :=
  match s with
  | EmptyString => flush cur []
  | String c s' =>
      if is_space c then flush cur (split_ws_aux s' [])
      else split_ws_aux s' (c :: cur)
  end.

Definition split_ws (s : string) : list string := split_ws_aux s [].

(** [len(s.split())] *)
Definition word_count (s : string) : nat := List.length (split_ws s).

(** [s.split(sep)] for a one-character separator: always at least one
    field, empty fields are kept. *)
Fixpoint split_char_aux (sep : ascii) (s : string) (cur : list ascii)
  : list string :=
  match s with
  | EmptyString => [rev_string cur]
  | String c s' =>
      if Ascii.eqb c sep then rev_string cur :: split_char_aux sep s' []
      else split_char_aux sep s' (c :: cur)
  end.

Definition split_char (sep : ascii) (s : string) : list string :=
  split_char_aux sep s [].

(** [s.split(sep)] for a non-empty separator string. *)
Fixpoint split_on (sep : string) (s : string) (cur : list ascii)
  (skip : nat) : list string :=
  match s with
  | EmptyString => [rev_string cur]
  | String c s' =>
      match skip with
      | S k => split_on sep s' cur k
      | O =>
          if String.prefix sep s then
            rev_string cur :: split_on sep s' [] (String.length sep - 1)
          else split_on sep s' (c :: cur) 0
      end
  end.

(** [sep.join(parts)] *)
Definition join (sep : string) (parts : list string) : string :=
  String.concat sep parts.

(** [needle in hay] *)
Fixpoint contains (needle hay : string) : bool :=
  String.prefix needle hay
  || match hay with
     | EmptyString => false
     | String _ hay' => contains needle hay'
     end.

(** [hay.startswith(p)] *)
Definition startswith (p hay : string) : bool := String.prefix p hay.

(** [str(n)] for an integer. *)
Definition str_of_Z (z : Z) : string := NilZero.string_of_int (Z.to_int z).

(** [s.encode()]: UTF-8 of code points below 256. *)
Definition utf8_char (c : ascii) : list Z :=
  let n := code c in
  if (n <? 128)%Z then [n]
  else [Z.lor 192 (Z.shiftr n 6); Z.lor 128 (Z.land n 63)].

Fixpoint encode (s : string) : list Z :=
  match s with
  | EmptyString => []
  | String c s' => utf8_char c ++ encode s'
  end.

End Py.

(* ===================================================================== *)
(** ** SHA-256 (FIPS 180-4), as computed by [hashlib.sha256] *)
(* ===================================================================== *)

Module Sha256.
Local Open Scope Z_scope.

Definition w32 (x : Z) : Z := x mod 2 ^ 32.
Definition add32 (x y : Z) : Z := w32 (x + y).
Definition rotr (n x : Z) : Z :=
  w32 (Z.lor (Z.shiftr x n) (Z.shiftl x (32 - n))).
Definition not32 (x : Z) : Z := Z.lxor x (2 ^ 32 - 1).

Definition Ch (x y z : Z) : Z := Z.lxor (Z.land x y) (Z.land (not32 x) z).
Definition Maj (x y z : Z) : Z :=
  Z.lxor (Z.lxor (Z.land x y) (Z.land x z)) (Z.land y z).
Definition bsig0 (x : Z) : Z :=
  Z.lxor (Z.lxor (rotr 2 x) (rotr 13 x)) (rotr 22 x).
Definition bsig1 (x : Z) : Z :=
  Z.lxor (Z.lxor (rotr 6 x) (rotr 11 x)) (rotr 25 x).
Definition ssig0 (x : Z) : Z :=
  Z.lxor (Z.lxor (rotr 7 x) (rotr 18 x)) (Z.shiftr x 3).
Definition ssig1 (x : Z) : Z :=
  Z.lxor (Z.lxor (rotr 17 x) (rotr 19 x)) (Z.shiftr x 10).

(** The round constants are the first 32 bits of the fractional parts of
    the cube roots of the first 64 primes, the initial hash value those of
    the square roots of the first 8 primes. *)
Definition is_prime (n : Z) : bool :=
  (1 <? n)
  && forallb (fun d => negb (n mod Z.of_nat d =? 0))
             (seq 2 (Z.to_nat n - 2)).

Definition primes64 : list Z :=
  Eval vm_compute in
    firstn 64 (List.filter is_prime (List.map Z.of_nat (seq 2 400))).

Fixpoint icbrt_aux (bits : nat) (n r : Z) : Z :=
  match bits with
  | O => r
  | S b =>
      let c := r + 2 ^ Z.of_nat b in
      icbrt_aux b n (if c * c * c <=? n then c else r)
  end.

Definition icbrt (n : Z) : Z := icbrt_aux 40 n 0.

Definition K : list Z :=
  Eval vm_compute in List.map (fun p => w32 (icbrt (p * 2 ^ 96))) primes64.

Definition H0 : list Z :=
  Eval vm_compute in
    List.map (fun p => w32 (Z.sqrt (p * 2 ^ 64))) (firstn 8 primes64).

Record state := St { sa : Z; sb : Z; sc : Z; sd : Z;
                     se : Z; sf : Z; sg : Z; sh : Z }.

Definition init : state :=
  St (nth 0 H0 0) (nth 1 H0 0) (nth 2 H0 0) (nth 3 H0 0)
     (nth 4 H0 0) (nth 5 H0 0) (nth 6 H0 0) (nth 7 H0 0).

(** Padding: 0x80, zeros up to 56 mod 64, then the bit length on 8 bytes. *)
Definition be_bytes (n : nat) (x : Z) : list Z :=
  List.map (fun i => Z.shiftr x (8 * Z.of_nat (n - 1 - i)) mod 256) (seq 0 n).

Definition pad (msg : list Z) : list Z :=
  let l := Z.of_nat (List.length msg) in
  let z := (55 - l) mod 64 in
  msg ++ [128] ++ repeat 0 (Z.to_nat z) ++ be_bytes 8 (8 * l).

Fixpoint words_of (fuel : nat) (bs : list Z) : list Z :=
  match fuel, bs with
  | S k, b0 :: b1 :: b2 :: b3 :: rest =>
      (b0 * 2 ^ 24 + b1 * 2 ^ 16 + b2 * 2 ^ 8 + b3) :: words_of k rest
  | _, _ => []
  end.

Fixpoint blocks_of (fuel : nat) (ws : list Z) : list (list Z) :=
  match fuel, ws with
  | S k, _ :: _ => firstn 16 ws :: blocks_of k (skipn 16 ws)
  | _, _ => []
  end.

Fixpoint schedule (n : nat) (w : list Z) : list Z :=
  match n with
  | O => w
  | S n' =>
      let t := List.length w in
      let g i := nth (t - i) w 0 in
      schedule n'
        (w ++ [add32 (add32 (ssig1 (g 2%nat)) (g 7%nat))
                     (add32 (ssig0 (g 15%nat)) (g 16%nat))])
  end.

Definition round (s : state) (kw : Z * Z) : state :=
  let t1 := add32 (add32 (add32 (sh s) (bsig1 (se s)))
                         (add32 (Ch (se s) (sf s) (sg s)) (fst kw)))
                  (snd kw) in
  let t2 := add32 (bsig0 (sa s)) (Maj (sa s) (sb s) (sc s)) in
  St (add32 t1 t2) (sa s) (sb s) (sc s) (add32 (sd s) t1) (se s) (sf s) (sg s).

Definition compress (s : state) (block : list Z) : state :=
  let r := fold_left round (combine K (schedule 48 block)) s in
  St (add32 (sa s) (sa r)) (add32 (sb s) (sb r)) (add32 (sc s) (sc r))
     (add32 (sd s) (sd r)) (add32 (se s) (se r)) (add32 (sf s) (sf r))
     (add32 (sg s) (sg r)) (add32 (sh s) (sh r)).

Definition digest (msg : list Z) : state :=
  let bs := pad msg in
  let ws := words_of (List.length bs) bs in
  fold_left compress (blocks_of (List.length ws) ws) init.

Definition hex_digit (d : Z) : ascii :=
  if d <? 10 then Py.chr (48 + d) else Py.chr (87 + d).

Definition hex8 (x : Z) (rest : string) : string :=
  String (hex_digit (Z.shiftr x 28 mod 16))
  (String (hex_digit (Z.shiftr x 24 mod 16))
  (String (hex_digit (Z.shiftr x 20 mod 16))
  (String (hex_digit (Z.shiftr x 16 mod 16))
  (String (hex_digit (Z.shiftr x 12 mod 16))
  (String (hex_digit (Z.shiftr x 8 mod 16))
  (String (hex_digit (Z.shiftr x 4 mod 16))
  (String (hex_digit (x mod 16)) rest))))))).

Definition hex_of_state (s : state) : string :=
  hex8 (sa s) (hex8 (sb s) (hex8 (sc s) (hex8 (sd s)
  (hex8 (se s) (hex8 (sf s) (hex8 (sg s) (hex8 (sh s) EmptyString))))))).

(** [hashlib.sha256(data).hexdigest()] *)
Definition hexdigest (msg : list Z) : string := hex_of_state (digest msg).

End Sha256.

(* ===================================================================== *)
(** ** JSON values and Python dictionaries *)
(* ===================================================================== *)

(** A value as [json.loads] produces it. *)
#[warnings="-register-all"]
Inductive jval : Type :=
| JNull
| JBool (b : bool)
| JInt (z : Z)
| JFloat (f : float)
| JStr (s : string)
| JList (l : list jval)
| JObj (o : list (string * jval)).

(** A Python [dict] with string keys: insertion ordered, keys unique. *)
Definition dict := list (string * jval).

Fixpoint dict_get (k : string) (d : dict) : option jval :=
  match d with
  | [] => None
  | (k', v) :: d' => if String.eqb k k' then Some v else dict_get k d'
  end.

(** [d[k] = v]: an existing key keeps its position. *)
Fixpoint dict_set (k : string) (v : jval) (d : dict) : dict :=
  match d with
  | [] => [(k, v)]
  | (k', v') :: d' =>
      if String.eqb k k' then (k, v) :: d' else (k', v') :: dict_set k v d'
  end.

(** [{**d, **upd}] and [d.update(upd)] *)
Definition dict_update (d upd : dict) : dict :=
  fold_left (fun acc kv => dict_set (fst kv) (snd kv) acc) upd d.

(** Python truthiness, as used by [not x], [if x] and [x and y]. *)
Definition truthy (v : jval) : bool :=
  match v with
  | JNull => false
  | JBool b => b
  | JInt z => negb (z =? 0)%Z
  | JFloat f => negb (PrimFloat.eqb f 0%float)
  | JStr s => negb (String.eqb s EmptyString)
  | JList l => match l with [] => false | _ => true end
  | JObj o => match o with [] => false | _ => true end
  end.

(** ** [json.dumps] on the keyword arguments of the cache key

    The value of a keyword argument.  The extra parameters the call
    sites pass are integers and strings ([top_k], [model]); booleans,
    [None], lists, tuples and dictionaries with string keys serialise
    as well.  Floats and dictionaries with other keys are left out. *)
#[warnings="-register-all"]
Inductive scalar : Type :=
| SInt (z : Z)
| SStr (s : string)
| SBool (b : bool)
| SNone
| SList (items : list scalar)
| STuple (items : list scalar)
| SDict (items : list (string * scalar)).

Module Json.

Definition dquote : ascii := Eval vm_compute in Py.chr 34.
Definition backslash : ascii := Eval vm_compute in Py.chr 92.

Definition hex_low (d : Z) : ascii :=
  if (d <? 10)%Z then Py.chr (48 + d) else Py.chr (87 + d).

(** The encoder's [ensure_ascii] escape of one character: everything
    outside [' '..'~'], the quote and the backslash are escaped. *)
Definition esc (c : ascii) (rest : string) : string :=
  let n := Py.code c in
  let two (x : ascii) := String backslash (String x rest) in
  if (n =? 34)%Z then two dquote
  else if (n =? 92)%Z then two backslash
  else if (n =? 10)%Z then two "n"%char
  else if (n =? 13)%Z then two "r"%char
  else if (n =? 9)%Z then two "t"%char
  else if (n =? 8)%Z then two "b"%char
  else if (n =? 12)%Z then two "f"%char
  else if ((32 <=? n) && (n <=? 126))%Z then String c rest
  else String backslash (String "u" (String "0" (String "0"
         (String (hex_low (n / 16)) (String (hex_low (n mod 16)) rest))))).

Fixpoint esc_string (s : string) (rest : string) : string :=
  match s with
  | EmptyString => rest
  | String c s' => esc c (esc_string s' rest)
  end.

Definition dumps_str (s : string) : string :=
  String dquote (esc_string s (String dquote EmptyString)).

(** The members of a dictionary, each value already written, in the
    order of their keys ([sort_keys=True]; the keys are distinct). *)
Fixpoint insert_member (x : string * string) (l : list (string * string))
  : list (string * string) :=
  match l with
  | [] => [x]
  | y :: l' =>
      if String.leb (fst x) (fst y) then x :: l else y :: insert_member x l'
  end.

Definition sort_members (l : list (string * string))
  : list (string * string) :=
  fold_right insert_member [] l.

Definition dumps_member (kv : string * string) : string :=
  dumps_str (fst kv) ++ ": " ++ snd kv.

(** A list and a tuple are both written as an array. *)
Fixpoint dumps_scalar (v : scalar) : string :=
  match v with
  | SInt z => Py.str_of_Z z
  | SStr s => dumps_str s
  | SBool true => "true"
  | SBool false => "false"
  | SNone => "null"
  | SList items | STuple items =>
      "[" ++ Py.join ", " (List.map dumps_scalar items) ++ "]"
  | SDict items =>
      "{"
      ++ Py.join ", "
           (List.map dumps_member
              (sort_members
                 (List.map (fun kv => let '(k, x) := kv in
                                      (k, dumps_scalar x))
                    items)))
      ++ "}"
  end.

(** A [(key, value)] tuple is written as a two-element array. *)
Definition dumps_item (kv : string * scalar) : string :=
  "[" ++ dumps_str (fst kv) ++ ", " ++ dumps_scalar (snd kv) ++ "]".

(** [json.dumps(items, sort_keys=True)] of a list of tuples. *)
Definition dumps_items (items : list (string * scalar)) : string :=
  "[" ++ Py.join ", " (List.map dumps_item items) ++ "]".

End Json.

(** [sorted(kwargs.items())]: keys of a dict are distinct, so the order
    is the order of the keys (code point lexicographic). *)
Definition key_leb (a b : string * scalar) : bool :=
  String.leb (fst a) (fst b).

Fixpoint insert_sorted (x : string * scalar) (l : list (string * scalar))
  : list (string * scalar) :=
  match l with
  | [] => [x]
  | y :: l' => if key_leb x y then x :: l else y :: insert_sorted x l'
  end.

Definition sorted_items (kwargs : list (string * scalar))
  : list (string * scalar) :=
  fold_right insert_sorted [] kwargs.

(* ===================================================================== *)
(** ** The Redis server, as the cache manager uses it *)
(* ===================================================================== *)

(** Redis is an external collaborator: the model keeps the key space, the
    glob matcher of [SCAN ... MATCH], and whether the server answers. *)
Module Redis.

Inductive tok : Type :=
| TStar
| TAny
| TLit (c : ascii)
| TClass (neg : bool) (items : list (ascii * ascii)).

(** Reading a glob pattern.  [cls] is [Some (neg, items)] while the
    reader is inside a bracket class. *)
Fixpoint tokens (p : string) (cls : option (bool * list (ascii * ascii)))
  : list tok :=
  match cls with
  | None =>
      match p with
      | EmptyString => []
      | String "*" p' => TStar :: tokens p' None
      | String "?" p' => TAny :: tokens p' None
      | String "[" p' =>
          match p' with
          | String "^" p'' => tokens p'' (Some (true, []))
          | _ => tokens p' (Some (false, []))
          end
      | String "\" (String c p') => TLit c :: tokens p' None
      | String c p' => TLit c :: tokens p' None
      end
  | Some (neg, items) =>
      match p with
      | EmptyString => [TClass neg items]
      | String "\" (String c p') => tokens p' (Some (neg, (c, c) :: items))
      | String "]" p' => TClass neg items :: tokens p' None
      | String a (String "-" (String b p')) =>
          tokens p' (Some (neg, (a, b) :: items))
      | String a p' => tokens p' (Some (neg, (a, a) :: items))
      end
  end.

Definition in_range (c : ascii) (r : ascii * ascii) : bool :=
  let lo := Z.min (Py.code (fst r)) (Py.code (snd r)) in
  let hi := Z.max (Py.code (fst r)) (Py.code (snd r)) in
  ((lo <=? Py.code c) && (Py.code c <=? hi))%Z.

Definition tok_match (t : tok) (c : ascii) : bool :=
  match t with
  | TStar => true
  | TAny => true
  | TLit x => Ascii.eqb x c
  | TClass neg items => xorb neg (existsb (in_range c) items)
  end.

Fixpoint glob_toks (ts : list tok) : string -> bool :=
  match ts with
  | [] => fun s => match s with EmptyString => true | _ => false end
  | TStar :: ts' =>
      fix star (s : string) : bool :=
        glob_toks ts' s
        || match s with
           | EmptyString => false
           | String _ s' => star s'
           end
  | t :: ts' =>
      fun s =>
        match s with
        | EmptyString => false
        | String c s' => tok_match t c && glob_toks ts' s'
        end
  end.

(** [stringmatch(pattern, key)], case sensitive. *)
Definition glob (pattern key : string) : bool :=
  glob_toks (tokens pattern None) key.

(** A stored value: the payload and the TTL it was written with (entries
    are observed before they expire). *)
Record entry := Entry { e_ttl : Z; e_payload : dict }.

Record server := Server {
  reachable : bool;              (* a command raises when this is false *)
  db : gmap string entry
}.

Definition set_db (s : server) (m : gmap string entry) : server :=
  Server (reachable s) m.

(** Each command returns [None] when it raises. *)
Definition ping (s : server) : option unit :=
  if reachable s then Some tt else None.

Definition get (s : server) (k : string) : option (option entry) :=
  if reachable s then Some (db s !! k) else None.

Definition setex (s : server) (k : string) (ttl : Z) (v : dict)
  : option server :=
  if reachable s then Some (set_db s (<[k := Entry ttl v]> (db s))) else None.

(** The [SCAN]/[DEL] cursor loop to its end: every key matching the
    pattern is deleted.  Returns the number of deleted keys. *)
Definition matching (pattern : string) (m : gmap string entry)
  : gmap string entry :=
  filter (fun kv => Redis.glob pattern (fst kv) = true) m.

Definition scan_delete (s : server) (pattern : string)
  : option (nat * server) :=
  if reachable s then
    Some (size (matching pattern (db s)),
          set_db s (filter (fun kv => Redis.glob pattern (fst kv) <> true)
                           (db s)))
  else None.

End Redis.


(* ===================================================================== *)
(** ** cache/redis_cache.py *)
(* ===================================================================== *)

Module Cache.

(** [RedisCacheManager]: [client] is created exactly when caching is
    enabled at construction. *)
Record manager := Manager {
  enabled : bool;
  has_client : bool;
  _initialized : bool;
  ttl : Z
}.

(** [settings.REDIS_CACHE_TTL] *)
Definition REDIS_CACHE_TTL : Z := 60 * 60 * 24 * 7.

(** [__init__] *)
Definition new (cache_enabled : bool) : manager :=
  Manager cache_enabled cache_enabled false REDIS_CACHE_TTL.

Definition world : Type := manager * Redis.server.

(** [_ensure_initialized] *)
Definition _ensure_initialized (w : world) : world :=
  let '(m, r) := w in
  if negb (enabled m) || _initialized m then w
  else match Redis.ping r with
       | Some _ => (Manager (enabled m) (has_client m) true (ttl m), r)
       | None => (Manager false (has_client m) false (ttl m), r)
       end.

(** [_generate_cache_key] *)
Definition cache_string (question content_id : string)
  (kwargs : list (string * scalar)) : string :=
  let normalized_question := Py.strip (Py.lower question) in
  let cache_string := content_id ++ ":" ++ normalized_question in
  match kwargs with
  | [] => cache_string
  | _ => cache_string ++ ":" ++ Json.dumps_items (sorted_items kwargs)
  end.

Definition _generate_cache_key (question content_id : string)
  (kwargs : list (string * scalar)) : string :=
  let cache_key :=
    Sha256.hexdigest (Py.encode (cache_string question content_id kwargs)) in
  "chembot:qa:" ++ cache_key.

(** [get_cached_answer] *)
Definition get_cached_answer (question content_id : string)
  (kwargs : list (string * scalar)) (w : world) : option dict * world :=
  if negb (enabled (fst w)) || negb (has_client (fst w)) then (None, w)
  else
    let w := _ensure_initialized w in
    if negb (enabled (fst w)) then (None, w)
    else
      let cache_key := _generate_cache_key question content_id kwargs in
      match Redis.get (snd w) cache_key with
      | Some (Some e) => (Some (Redis.e_payload e), w)
      | Some None => (None, w)
      | None => (None, w)
      end.

(** [cache_answer] *)
Definition cache_answer (question content_id : string) (answer_data : dict)
  (kwargs : list (string * scalar)) (w : world) : world :=
  if negb (enabled (fst w)) || negb (has_client (fst w)) then w
  else
    let w := _ensure_initialized w in
    if negb (enabled (fst w)) then w
    else
      let cache_key := _generate_cache_key question content_id kwargs in
      let cache_data :=
        dict_set "cache_key" (JStr cache_key)
          (dict_set "cached" (JBool true) answer_data) in
      match Redis.setex (snd w) cache_key (ttl (fst w)) cache_data with
      | Some r' => (fst w, r')
      | None => w
      end.

(** [invalidate_content_cache] *)
Definition invalidate_content_cache (content_id : string) (w : world)
  : world :=
  if negb (enabled (fst w)) || negb (has_client (fst w)) then w
  else
    let pattern := "chembot:qa:*" ++ content_id ++ "*" in
    match Redis.scan_delete (snd w) pattern with
    | Some (_, r') => (fst w, r')
    | None => w
    end.

(** [clear_all_cache] *)
Definition clear_all_cache (w : world) : world :=
  if negb (enabled (fst w)) || negb (has_client (fst w)) then w
  else
    match Redis.scan_delete (snd w) "chembot:qa:*" with
    | Some (_, r') => (fst w, r')
    | None => w
    end.

End Cache.

(* ===================================================================== *)
(** ** Exceptions, results and the call trace *)
(* ===================================================================== *)

(** The exception classes the handlers tell apart.  [litellm.APIError]
    and [litellm.RateLimitError] are siblings, so the three [except]
    clauses of the executor see disjoint classes. *)
Inductive exn : Type :=
| RateLimitError (msg : string)
| APIError (msg : string)
| JSONDecodeError (msg : string)
| OtherError (msg : string).

(** [str(e)] *)
Definition exn_str (e : exn) : string :=
  match e with
  | RateLimitError m | APIError m | JSONDecodeError m | OtherError m => m
  end.

Inductive result (A : Type) : Type :=
| Ok (a : A)
| Raise (e : exn).
Arguments Ok {A} a.
Arguments Raise {A} e.

(** What is called at the provider. *)
Inductive call_tag : Type :=
| CallCompletion
| CallStream
| CallEmbedding
| CallOther.

(** Observable steps of a request: the semaphore of the executor is
    taken and given back around each invocation it makes, a sleep
    separates its attempts; an invocation outside is bare. *)
Inductive event : Type :=
| EvAcquire
| EvInvoke (tag : call_tag)
| EvRelease
| EvSleep (delay : Q).

(** An outbound operation with its own state (the provider, or the
    counter of a test double). *)
Definition operation (S A : Type) : Type := S -> result A * S.

(* ===================================================================== *)
(** ** utils/rate_limiter.py *)
(* ===================================================================== *)

Module Retry.
Local Open Scope list_scope.

Record limiter := Limiter {
  max_concurrent : Z;
  max_retries : Z;
  retry_delay : Q;
  retry_backoff : Q;
  total_requests : Z;
  successful_requests : Z;
  failed_requests : Z;
  retried_requests : Z
}.

(** [settings.LLM_*] *)
Definition LLM_MAX_CONCURRENT_REQUESTS : Z := 5.
Definition LLM_MAX_RETRIES : Z := 3.
Definition LLM_RETRY_DELAY : Q := 1.
Definition LLM_RETRY_BACKOFF : Q := 2.

(** [x or default] on an optional number: [None] and zero are falsy. *)
Definition or_Z (x : option Z) (default : Z) : Z :=
  match x with
  | Some v => if (v =? 0)%Z then default else v
  | None => default
  end.

Definition or_Q (x : option Q) (default : Q) : Q :=
  match x with
  | Some v => if Qeq_bool v 0 then default else v
  | None => default
  end.

(** [RateLimiter.__init__] *)
Definition new (max_concurrent max_retries : option Z)
  (retry_delay retry_backoff : option Q) : limiter :=
  Limiter (or_Z max_concurrent LLM_MAX_CONCURRENT_REQUESTS)
          (or_Z max_retries LLM_MAX_RETRIES)
          (or_Q retry_delay LLM_RETRY_DELAY)
          (or_Q retry_backoff LLM_RETRY_BACKOFF)
          0 0 0 0.

Definition bump_total (l : limiter) : limiter :=
  Limiter (max_concurrent l) (max_retries l) (retry_delay l) (retry_backoff l)
          (total_requests l + 1) (successful_requests l)
          (failed_requests l) (retried_requests l).

Definition bump_success (l : limiter) : limiter :=
  Limiter (max_concurrent l) (max_retries l) (retry_delay l) (retry_backoff l)
          (total_requests l) (successful_requests l + 1)
          (failed_requests l) (retried_requests l).

Definition bump_failed (l : limiter) : limiter :=
  Limiter (max_concurrent l) (max_retries l) (retry_delay l) (retry_backoff l)
          (total_requests l) (successful_requests l)
          (failed_requests l + 1) (retried_requests l).

Definition bump_retried (l : limiter) : limiter :=
  Limiter (max_concurrent l) (max_retries l) (retry_delay l) (retry_backoff l)
          (total_requests l) (successful_requests l)
          (failed_requests l) (retried_requests l + 1).

(** [_is_retryable_error] *)
Definition retryable_patterns : list string :=
  ["timeout"; "connection"; "503"; "502"; "500"; "429"; "server error"].

Definition _is_retryable_error (error : exn) : bool :=
  let error_str := Py.lower (exn_str error) in
  existsb (fun pattern => Py.contains pattern error_str) retryable_patterns.

(** [retry_delay * (retry_backoff ** attempt)] *)
Definition backoff_delay (l : limiter) (attempt : Z) : Q :=
  (retry_delay l * retry_backoff l ^ attempt)%Q.

(** State threaded through one call of the executor. *)
Record rworld (S : Type) := RWorld {
  lim : limiter;
  ops : S;
  trace : list event
}.
Arguments RWorld {S} lim ops trace.
Arguments lim {S} r.
Arguments ops {S} r.
Arguments trace {S} r.

Section Execute.
Context {S A : Type}.
Variable tag : call_tag.
Variable func : operation S A.

(** The body of [for attempt in range(self.max_retries + 1)], on the
    attempts still to run. *)
Fixpoint attempts_loop (todo : list Z) (last_exception : option exn)
  (w : rworld S) : result A * rworld S :=
  match todo with
  | [] =>
      let l := bump_failed (lim w) in
      (Raise (match last_exception with
              | Some e => e
              | None => OtherError "Request failed after all retries"
              end),
       RWorld l (ops w) (trace w))
  | attempt :: rest =>
      let '(r, s') := func (ops w) in
      let tr := trace w ++ [EvAcquire; EvInvoke tag; EvRelease] in
      match r with
      | Ok v =>
          let l := bump_success (lim w) in
          let l := if (attempt >? 0)%Z then bump_retried l else l in
          (Ok v, RWorld l s' tr)
      | Raise (RateLimitError m) =>
          if (attempt <? max_retries (lim w))%Z then
            attempts_loop rest (Some (RateLimitError m))
              (RWorld (lim w) s'
                 (tr ++ [EvSleep (backoff_delay (lim w) attempt)]))
          else (Raise (RateLimitError m), RWorld (bump_failed (lim w)) s' tr)
      | Raise (APIError m) =>
          if (attempt <? max_retries (lim w))%Z
             && _is_retryable_error (APIError m) then
            attempts_loop rest (Some (APIError m))
              (RWorld (lim w) s'
                 (tr ++ [EvSleep (backoff_delay (lim w) attempt)]))
          else (Raise (APIError m), RWorld (bump_failed (lim w)) s' tr)
      | Raise e => (Raise e, RWorld (bump_failed (lim w)) s' tr)
      end
  end.

(** [range(n)] *)
Definition range (n : Z) : list Z := List.map Z.of_nat (seq 0 (Z.to_nat n)).

(** [execute_with_retry] *)
Definition execute_with_retry (w : rworld S) : result A * rworld S :=
  let w := RWorld (bump_total (lim w)) (ops w) (trace w) in
  attempts_loop (range (max_retries (lim w) + 1)) None w.

End Execute.

(** Number of invocations recorded in a trace. *)
Definition is_invoke (e : event) : bool :=
  match e with EvInvoke _ => true | _ => false end.

Definition invocations (tr : list event) : nat :=
  List.length (List.filter is_invoke tr).

(** The delays slept, in order. *)
Definition sleeps (tr : list event) : list Q :=
  flat_map (fun e => match e with EvSleep d => [d] | _ => [] end) tr.

(** [get_stats], the integer part. *)
Definition get_stats (l : limiter) : Z * Z * Z * Z :=
  (total_requests l, successful_requests l,
   failed_requests l, retried_requests l).

(** [reset_stats] *)
Definition reset_stats (l : limiter) : limiter :=
  Limiter (max_concurrent l) (max_retries l) (retry_delay l) (retry_backoff l)
          0 0 0 0.

End Retry.

(* ===================================================================== *)
(** ** External collaborators *)
(* ===================================================================== *)

(** [litellm.acompletion(model=, messages=, temperature=, max_tokens=,
    stream=)] *)
Record completion_request := CompletionRequest {
  cr_model : string;
  cr_messages : list (string * string);    (* role, content *)
  cr_temperature : float;
  cr_max_tokens : Z;
  cr_stream : bool
}.

(** A completed response: [choices[0].message.content] and
    [usage.total_tokens]. *)
Record completion := Completion {
  content : string;
  total_tokens : Z
}.

(** A streamed response: the [delta.content] of each chunk that arrives
    ([None] for a chunk without text), and the exception that ends the
    stream early, if any. *)
Record stream := Stream {
  deltas : list (option string);
  failure : option exn
}.

(** A match of the vector index: [{id, score, metadata}]. *)
Record vmatch := VMatch {
  m_id : string;
  m_score : float;
  m_metadata : dict
}.

(** Everything outside the repository, over one external state [X]:
    the generation and embedding provider, the vector index, the
    database and the clock. *)
Record externals (X : Type) := Externals {
  acompletion : completion_request -> operation X completion;
  acompletion_stream : completion_request -> operation X stream;
  aembedding : string -> string -> operation X (list float);
  store_query : list float -> string -> Z -> operation X (list vmatch);
  upsert_vectors : list (string * list float * dict) -> string
                   -> operation X unit;
  create_question : string -> string -> string -> string -> dict
                    -> operation X string;
  create_analytics_event : dict -> operation X unit;
  now_ms : X -> Z
}.
Arguments acompletion {X} e.
Arguments acompletion_stream {X} e.
Arguments aembedding {X} e.
Arguments store_query {X} e.
Arguments upsert_vectors {X} e.
Arguments create_question {X} e.
Arguments create_analytics_event {X} e.
Arguments now_ms {X} e.

(** [settings.LLM_MODEL], [settings.EMBEDDING_MODEL] *)
Definition LLM_MODEL : string := "gpt-4o-mini".
Definition EMBEDDING_MODEL : string := "text-embedding-3-small".

(* ===================================================================== *)
(** ** rag/chunking.py *)
(* ===================================================================== *)

Module Chunking.
Local Open Scope list_scope.

(** [class Chunk] *)
Record Chunk := MkChunk {
  chunk_text : string;
  chunk_metadata : dict;
  chunk_word_count : nat
}.

(** [metadata or {}] *)
Definition or_empty (metadata : option dict) : dict :=
  match metadata with
  | Some d => d
  | None => []
  end.

(** [Chunk.__init__] *)
Definition new_chunk (text : string) (metadata : option dict) : Chunk :=
  MkChunk text (or_empty metadata) (Py.word_count text).

(** [chunk.metadata["chunk_index"]], when present. *)
Definition chunk_index (c : Chunk) : option jval :=
  dict_get "chunk_index" (chunk_metadata c).

Definition is_nl (c : ascii) : bool := (Py.code c =? 10)%Z.

(** *** Regular expressions of the module, written out *)

(** The separator [\n\s*\n], read after its first newline: the number
    of characters up to the last newline of the white-space run that
    follows (the star is greedy), if there is one. *)
Fixpoint sep_len (s : string) : option nat :=
  match s with
  | EmptyString => None
  | String c s' =>
      if Py.is_space c then
        match sep_len s' with
        | Some n => Some (S n)
        | None => if is_nl c then Some 1%nat else None
        end
      else None
  end.

(** [re.split(r'\n\s*\n', text)]; [skip] characters still belong to the
    separator just found. *)
Fixpoint split_blank_lines (s : string) (cur : list ascii) (skip : nat)
  : list string :=
  match s with
  | EmptyString => [Py.rev_string cur]
  | String c s' =>
      match skip with
      | S k => split_blank_lines s' cur k
      | O =>
          if is_nl c then
            match sep_len s' with
            | Some n => Py.rev_string cur :: split_blank_lines s' [] n
            | None => split_blank_lines s' (c :: cur) 0
            end
          else split_blank_lines s' (c :: cur) 0
      end
  end.

Definition nonempty (s : string) : bool := negb (String.eqb s EmptyString).

(** [_split_into_paragraphs] *)
Definition _split_into_paragraphs (text : string) : list string :=
  List.filter nonempty (List.map Py.strip (split_blank_lines text [] 0)).

Definition is_end_mark (c : ascii) : bool :=
  let n := Py.code c in ((n =? 46) || (n =? 33) || (n =? 63))%Z.

(** [re.split(r'(?<=[.!?])\s+', text)]: a separator is a maximal run of
    white space that directly follows one of [. ! ?]. *)
Fixpoint split_sentences (s : string) (cur : list ascii)
  (after_mark in_sep : bool) : list string :=
  match s with
  | EmptyString => [Py.rev_string cur]
  | String c s' =>
      if in_sep then
        if Py.is_space c then split_sentences s' cur false true
        else split_sentences s' (c :: cur) (is_end_mark c) false
      else if after_mark && Py.is_space c then
        Py.rev_string cur :: split_sentences s' [] false true
      else split_sentences s' (c :: cur) (is_end_mark c) false
  end.

(** [re.match(r'^(#{1,6})\s+(.+)$', line)] on a line without newline:
    the level and the text of group 2. *)
Fixpoint count_hashes (s : string) : nat * string :=
  match s with
  | String "#" s' => let '(n, r) := count_hashes s' in (S n, r)
  | _ => (0%nat, s)
  end.

Fixpoint last_char (s : string) : string :=
  match s with
  | EmptyString => EmptyString
  | String c EmptyString => s
  | String _ s' => last_char s'
  end.

Definition header_match (line : string) : option (nat * string) :=
  let '(n, rest) := count_hashes line in
  if ((1 <=? n) && (n <=? 6))%nat then
    match rest with
    | String c rest' =>
        if Py.is_space c then
          match Py.lstrip rest' with
          | EmptyString =>
              (* only white space follows: the greedy run gives back its
                 last character to group 2 *)
              match rest' with
              | EmptyString => None
              | _ => Some (n, last_char rest')
              end
          | body => Some (n, body)
          end
        else None
    | EmptyString => None
    end
  else None.

(** *** HeuristicChunker *)

Section Heuristic.
Variables chunk_size overlap : Z.

Definition wc (s : string) : Z := Z.of_nat (Py.word_count s).

(** The loop [for x in reversed(items)] shared by the two overlap
    computations: items are taken from the end while they fit. *)
Fixpoint tail_within (rev_items : list string) (acc : list string)
  (words : Z) : list string * Z :=
  match rev_items with
  | [] => (acc, words)
  | s :: rest =>
      if (words + wc s <=? overlap)%Z
      then tail_within rest (s :: acc) (words + wc s)
      else (acc, words)
  end.

(** The separator between the paragraphs of a chunk: a blank line. *)
Definition para_sep : string :=
  String (Py.chr 10) (String (Py.chr 10) EmptyString).

(** [_get_overlap_text] *)
Definition _get_overlap_text (paragraphs : list string) : string :=
  match paragraphs with
  | [] => EmptyString
  | _ =>
      if (overlap <=? 0)%Z then EmptyString
      else
        let overlap_paras := fst (tail_within (List.rev paragraphs) [] 0) in
        match overlap_paras with
        | [] => EmptyString
        | _ => Py.join para_sep overlap_paras
        end
  end.

Definition sentence_chunk (metadata : option dict) (index : nat)
  (current : list string) : Chunk :=
  new_chunk (Py.join " " current)
    (Some (dict_set "sentence_count" (JInt (Z.of_nat (List.length current)))
          (dict_set "chunking_strategy" (JStr "heuristic_sentence")
          (dict_set "chunk_index" (JInt (Z.of_nat index))
             (or_empty metadata))))).

(** Loop state of [_chunk_by_sentences]. *)
Record sstate := SState {
  s_chunks : list Chunk;
  s_current : list string;
  s_current_words : Z
}.

Definition sentence_step (metadata : option dict) (start_index : nat)
  (st : sstate) (sentence : string) : sstate :=
  let sentence_words := wc sentence in
  let st :=
    if (s_current_words st + sentence_words >? chunk_size)%Z
       && match s_current st with [] => false | _ => true end
    then
      let chunks :=
        s_chunks st
        ++ [sentence_chunk metadata
              (start_index + List.length (s_chunks st)) (s_current st)] in
      if (overlap >? 0)%Z then
        let '(overlap_sentences, overlap_words) :=
          tail_within (List.rev (s_current st)) [] 0 in
        SState chunks overlap_sentences overlap_words
      else SState chunks [] 0
    else st in
  SState (s_chunks st) (s_current st ++ [sentence])
         (s_current_words st + sentence_words).

(** [_chunk_by_sentences] *)
Definition _chunk_by_sentences (text : string) (metadata : option dict)
  (start_index : nat) : list Chunk :=
  let sentences := split_sentences text [] false false in
  let st := fold_left (sentence_step metadata start_index) sentences
              (SState [] [] 0) in
  match s_current st with
  | [] => s_chunks st
  | current =>
      s_chunks st
      ++ [sentence_chunk metadata (start_index + List.length (s_chunks st))
            current]
  end.

Definition paragraph_chunk (metadata : option dict) (index : nat)
  (current_chunk : list string) : Chunk :=
  new_chunk (Py.join para_sep current_chunk)
    (Some (dict_set "paragraph_count"
             (JInt (Z.of_nat (List.length current_chunk)))
          (dict_set "chunking_strategy" (JStr "heuristic")
          (dict_set "chunk_index" (JInt (Z.of_nat index))
             (or_empty metadata))))).

(** Loop state of [HeuristicChunker.chunk]. *)
Record hstate := HState {
  h_chunks : list Chunk;
  h_current_chunk : list string;
  h_current_word_count : Z
}.

Definition heuristic_step (metadata : option dict) (st : hstate)
  (para : string) : hstate :=
  let para_word_count := wc para in
  if (h_current_word_count st + para_word_count >? chunk_size)%Z then
    let st :=
      match h_current_chunk st with
      | [] => st
      | current_chunk =>
          let chunks :=
            h_chunks st
            ++ [paragraph_chunk metadata (List.length (h_chunks st))
                  current_chunk] in
          let overlap_text := _get_overlap_text current_chunk in
          if nonempty overlap_text
          then HState chunks [overlap_text] (wc overlap_text)
          else HState chunks [] 0
      end in
    if (para_word_count >? chunk_size)%Z then
      let sentence_chunks :=
        _chunk_by_sentences para metadata (List.length (h_chunks st)) in
      HState (h_chunks st ++ sentence_chunks)
             (h_current_chunk st) (h_current_word_count st)
    else
      HState (h_chunks st) (h_current_chunk st ++ [para])
             (h_current_word_count st + para_word_count)
  else
    HState (h_chunks st) (h_current_chunk st ++ [para])
           (h_current_word_count st + para_word_count).

(** What [HeuristicChunker.chunk] does with the paragraphs. *)
Definition heuristic_paragraphs (paragraphs : list string)
  (metadata : option dict) : list Chunk :=
  let st := fold_left (heuristic_step metadata) paragraphs
              (HState [] [] 0) in
  match h_current_chunk st with
  | [] => h_chunks st
  | current_chunk =>
      h_chunks st
      ++ [paragraph_chunk metadata (List.length (h_chunks st)) current_chunk]
  end.

(** [HeuristicChunker.chunk] *)
Definition heuristic_chunk (text : string) (metadata : option dict)
  : list Chunk :=
  heuristic_paragraphs (_split_into_paragraphs text) metadata.

(** *** SemanticChunker *)

Record section := MkSection {
  title : string;
  level : nat;
  sec_text : string
}.

(** A section being read: its lines so far. *)
Record open_section := OpenSection {
  o_title : string;
  o_level : nat;
  o_lines : list string
}.

(** Closing a section: its lines are joined and stripped, and an empty
    section is dropped. *)
Definition close_section (sections : list section) (cur : open_section)
  : list section :=
  match o_lines cur with
  | [] => sections
  | lines =>
      let t := Py.strip (Py.join (String (Py.chr 10) EmptyString) lines) in
      if nonempty t then sections ++ [MkSection (o_title cur) (o_level cur) t]
      else sections
  end.

Definition section_step (st : list section * open_section) (line : string)
  : list section * open_section :=
  let '(sections, cur) := st in
  match header_match line with
  | Some (lvl, grp) =>
      (close_section sections cur, OpenSection (Py.strip grp) lvl [line])
  | None =>
      (sections, OpenSection (o_title cur) (o_level cur) (o_lines cur ++ [line]))
  end.

(** [_parse_markdown_sections] *)
Definition _parse_markdown_sections (text : string) : list section :=
  let lines := Py.split_char (Py.chr 10) text in
  let '(sections, cur) :=
    fold_left section_step lines ([], OpenSection "Introduction" 0 []) in
  close_section sections cur.

Definition semantic_step (metadata : option dict) (chunks : list Chunk)
  (sec : section) : list Chunk :=
  let section_text := sec_text sec in
  let section_word_count := wc section_text in
  if (section_word_count <=? chunk_size)%Z then
    chunks
    ++ [new_chunk section_text
          (Some (dict_set "is_complete_section" (JBool true)
                (dict_set "section_level" (JInt (Z.of_nat (level sec)))
                (dict_set "section_title" (JStr (title sec))
                (dict_set "chunking_strategy" (JStr "semantic")
                (dict_set "chunk_index" (JInt (Z.of_nat (List.length chunks)))
                   (or_empty metadata)))))))]
  else
    let sub_chunks :=
      heuristic_chunk section_text
        (Some (dict_set "section_level" (JInt (Z.of_nat (level sec)))
              (dict_set "parent_section" (JStr (title sec))
                 (or_empty metadata)))) in
    chunks
    ++ List.map
         (fun sub_chunk =>
            MkChunk (chunk_text sub_chunk)
              (dict_update (chunk_metadata sub_chunk)
                 [("chunking_strategy", JStr "semantic_hybrid");
                  ("is_complete_section", JBool false)])
              (chunk_word_count sub_chunk))
         sub_chunks.

(** [SemanticChunker.chunk] *)
Definition semantic_chunk (text : string) (metadata : option dict)
  : list Chunk :=
  fold_left (semantic_step metadata) (_parse_markdown_sections text) [].

(** *** IntelligentChunker *)

Definition split_marker : string := "---SPLIT---".

(** The prompt of [_llm_split_chunk]. *)
Definition split_prompt (text : string) : string :=
  let nl := String (Py.chr 10) EmptyString in
  let dq := String (Py.chr 34) EmptyString in
  let size := Py.str_of_Z chunk_size in
  ("Analyze the following text and identify the best places to split it into smaller chunks of approximately "
   ++ size ++ " words each." ++ nl ++ nl
   ++ "Each chunk should:" ++ nl
   ++ "1. Be semantically coherent (complete thoughts/topics)" ++ nl
   ++ "2. Start and end at natural boundaries" ++ nl
   ++ "3. Be around " ++ size ++ " words (but prioritize coherence)"
   ++ nl ++ nl
   ++ "Text to split:" ++ nl ++ text ++ nl ++ nl
   ++ "Respond with the split points marked by " ++ dq ++ split_marker ++ dq
   ++ " between sections. Include the original text with split markers.")%string.

(** The segments of the response that are kept, with their positions:
    [for i, section in enumerate(sections)]. *)
Definition keep_segment (metadata : option dict) (base_index : nat)
  (chunks : list Chunk) (i_section : nat * string) : list Chunk :=
  let '(i, section) := i_section in
  let section := Py.strip section in
  if nonempty section && (50 <? Py.word_count section)%nat then
    chunks
    ++ [new_chunk section
          (Some (dict_set "llm_model" (JStr LLM_MODEL)
                (dict_set "chunking_strategy" (JStr "intelligent_llm")
                (dict_set "chunk_index"
                   (JInt (Z.of_nat (base_index * 10 + i)))
                   (or_empty metadata)))))]
  else chunks.

Definition enumerate {A : Type} (l : list A) : list (nat * A) :=
  combine (seq 0 (List.length l)) l.

(** The part of [_llm_split_chunk] after the provider has answered. *)
Definition chunks_of_response (split_text text : string)
  (metadata : option dict) (base_index : nat) : list Chunk :=
  let sections := Py.split_on split_marker split_text [] 0 in
  let chunks :=
    fold_left (keep_segment metadata base_index) (enumerate sections) [] in
  match chunks with
  | [] => [new_chunk text metadata]
  | _ => chunks
  end.

Section Intelligent.
Context {X : Type}.
Variable ext : externals X.

(** State of a chunking run that talks to the provider. *)
Definition cworld : Type := X * list event.

(** [_llm_split_chunk]: the provider is called directly; any failure
    falls back to the heuristic strategy. *)
Definition _llm_split_chunk (text : string) (metadata : option dict)
  (base_index : nat) (w : cworld) : list Chunk * cworld :=
  let '(x, tr) := w in
  let req :=
    CompletionRequest LLM_MODEL [("user", split_prompt text)]
      0x1.3333333333333p-2%float
      (Z.of_nat (Py.word_count text) + 200) false in
  let '(r, x') := acompletion ext req x in
  let w' := (x', tr ++ [EvInvoke CallCompletion]) in
  match r with
  | Ok response =>
      (chunks_of_response (content response) text metadata base_index, w')
  | Raise _ => (heuristic_chunk text metadata, w')
  end.

Definition intelligent_step (metadata : option dict)
  (st : list Chunk * cworld) (i_chunk : nat * Chunk) : list Chunk * cworld :=
  let '(refined_chunks, w) := st in
  let '(i, chunk) := i_chunk in
  if (2 * Z.of_nat (chunk_word_count chunk) >? 3 * chunk_size)%Z then
    let '(sub_chunks, w') := _llm_split_chunk (chunk_text chunk) metadata i w in
    (refined_chunks ++ sub_chunks, w')
  else
    (refined_chunks
     ++ [MkChunk (chunk_text chunk)
           (dict_update (chunk_metadata chunk)
              [("chunking_strategy", JStr "intelligent");
               ("chunk_index",
                JInt (Z.of_nat (List.length refined_chunks)))])
           (chunk_word_count chunk)],
     w).

(** [IntelligentChunker.chunk] *)
Definition intelligent_chunk (text : string) (metadata : option dict)
  (w : cworld) : list Chunk * cworld :=
  if (wc text <=? chunk_size)%Z then
    ([new_chunk text
        (Some (dict_set "chunking_strategy" (JStr "intelligent_single")
              (dict_set "chunk_index" (JInt 0) (or_empty metadata))))],
     w)
  else
    let base_chunks := semantic_chunk text metadata in
    fold_left (intelligent_step metadata) (enumerate base_chunks) ([], w).

End Intelligent.
End Heuristic.

(** The [chunk_index] values of a chunk list, in order. *)
Definition indices (chunks : list Chunk) : list (option jval) :=
  List.map chunk_index chunks.

(** Contiguous and strictly increasing: [0, 1, 2, ...]. *)
Definition contiguous (chunks : list Chunk) : Prop :=
  indices chunks
  = List.map (fun i => Some (JInt (Z.of_nat i)))
             (seq 0 (List.length chunks)).

End Chunking.

(* ===================================================================== *)
(** ** chatbot/conversation_manager.py *)
(* ===================================================================== *)

Module Conversation.
Local Open Scope list_scope.

(** [ConversationTurn]; the timestamp is the clock reading in ms. *)
Record turn := Turn {
  question : string;
  answer : string;
  timestamp : Z
}.

Record manager := Manager {
  max_history : Z;
  conversations : gmap string (list turn)
}.

(** [settings.CONVERSATION_HISTORY_LENGTH] *)
Definition CONVERSATION_HISTORY_LENGTH : Z := 5.

(** [__init__]: [max_history or settings.CONVERSATION_HISTORY_LENGTH] *)
Definition new (max_history : option Z) : manager :=
  Manager (Retry.or_Z max_history CONVERSATION_HISTORY_LENGTH) ∅.

(** [_get_conversation_key] *)
Definition _get_conversation_key (content_id user_id : string) : string :=
  content_id ++ "_" ++ user_id.

(** The slice [l[start:]] of Python, [start] possibly negative. *)
Definition slice_from {A : Type} (start : Z) (l : list A) : list A :=
  let n := Z.of_nat (List.length l) in
  let i := if (start <? 0)%Z then Z.max 0 (n + start) else start in
  List.skipn (Z.to_nat i) l.

(** [add_turn] *)
Definition add_turn (content_id user_id question answer : string)
  (now : Z) (m : manager) : manager :=
  let key := _get_conversation_key content_id user_id in
  let history := default [] (conversations m !! key) in
  let history := history ++ [Turn question answer now] in
  let history :=
    if (Z.of_nat (List.length history) >? max_history m)%Z
    then slice_from (- max_history m) history
    else history in
  Manager (max_history m) (<[key := history]> (conversations m)).

(** [get_history] *)
Definition get_history (content_id user_id : string) (limit : option Z)
  (m : manager) : list turn :=
  let key := _get_conversation_key content_id user_id in
  let history := default [] (conversations m !! key) in
  match limit with
  | Some k => if (k =? 0)%Z then history else slice_from (- k) history
  | None => history
  end.

(** [ConversationTurn.to_context_string] *)
Definition to_context_string (t : turn) : string :=
  "Student: " ++ question t ++ String (Py.chr 10) EmptyString
  ++ "ChemBot: " ++ answer t.

(** [get_context_string] *)
Definition get_context_string (content_id user_id : string)
  (limit : option Z) (m : manager) : string :=
  match get_history content_id user_id limit m with
  | [] => EmptyString
  | history =>
      Py.join (String (Py.chr 10) (String (Py.chr 10) EmptyString))
              (List.map to_context_string history)
  end.

(** [clear_history] *)
Definition clear_history (content_id user_id : string) (m : manager)
  : manager :=
  Manager (max_history m)
          (delete (_get_conversation_key content_id user_id)
                  (conversations m)).

End Conversation.

(* ===================================================================== *)
(** ** The request pipeline: classifier, vector store manager, query
       engine and chatbot engine *)
(* ===================================================================== *)

Module Engine.
Local Open Scope list_scope.

(** Settings, prompt templates ([prompts.yaml]) and the Python built-ins
    the pipeline relies on. *)
Record config := Config {
  enable_classification : bool;     (* settings.ENABLE_QUERY_CLASSIFICATION *)
  llm_model : string;               (* settings.LLM_MODEL *)
  temperature : float;              (* settings.LLM_TEMPERATURE *)
  max_tokens : Z;                   (* settings.LLM_MAX_TOKENS *)
  classification_system_prompt : string;
  classification_user_prompt : string -> result string;
                                    (* template.format(query=...) *)
  chatbot_system_prompt : string;
  chatbot_user_prompt : string -> string -> result string;
                                    (* template.format(context=, question=) *)
  json_loads : string -> option jval;
  py_str : jval -> string           (* str(value) inside an f-string *)
}.

(** Everything one request can read and change. *)
Record eworld (X : Type) := EWorld {
  ext_state : X;
  limiter : Retry.limiter;
  events : list event;
  cache : Cache.world;
  conv : Conversation.manager;
  output : list string              (* what the generator has yielded *)
}.
Arguments EWorld {X} ext_state limiter events cache conv output.
Arguments ext_state {X} e.
Arguments limiter {X} e.
Arguments events {X} e.
Arguments cache {X} e.
Arguments conv {X} e.
Arguments output {X} e.

Section Pipeline.
Context {X : Type}.
Variable ext : externals X.
Variable cfg : config.

(** Computations of the pipeline: state and exceptions. *)
Definition M (A : Type) : Type := eworld X -> result A * eworld X.

Definition ret {A : Type} (a : A) : M A := fun w => (Ok a, w).

Definition raise {A : Type} (e : exn) : M A := fun w => (Raise e, w).

Definition bind {A B : Type} (c : M A) (k : A -> M B) : M B :=
  fun w =>
    match c w with
    | (Ok a, w') => k a w'
    | (Raise e, w') => (Raise e, w')
    end.

(** [try: c  except Exception as e: h e] *)
Definition try_except {A : Type} (c : M A) (h : exn -> M A) : M A :=
  fun w =>
    match c w with
    | (Ok a, w') => (Ok a, w')
    | (Raise e, w') => h e w'
    end.

Notation "'let*' x ':=' c 'in' k" := (bind c (fun x => k))
  (at level 10, x name, c at level 100, k at level 200).
Notation "'exec' c 'then' k" := (bind c (fun _ => k))
  (at level 10, c at level 100, k at level 200).

Definition lift_result {A : Type} (r : result A) : M A :=
  match r with
  | Ok a => ret a
  | Raise e => raise e
  end.

(** A call that leaves the process without the executor. *)
Definition direct {A : Type} (tag : call_tag) (f : operation X A) : M A :=
  fun w =>
    let '(r, x') := f (ext_state w) in
    (r, EWorld x' (limiter w) (events w ++ [EvInvoke tag])
               (cache w) (conv w) (output w)).

(** [await self.rate_limiter.execute_with_retry(f, ...)] *)
Definition via_executor {A : Type} (tag : call_tag) (f : operation X A)
  : M A :=
  fun w =>
    let '(r, rw) :=
      Retry.execute_with_retry tag f
        (Retry.RWorld (limiter w) (ext_state w) (events w)) in
    (r, EWorld (Retry.ops rw) (Retry.lim rw) (Retry.trace rw)
               (cache w) (conv w) (output w)).

(** A call to the vector index or the database. *)
Definition extern {A : Type} (f : operation X A) : M A :=
  fun w =>
    let '(r, x') := f (ext_state w) in
    (r, EWorld x' (limiter w) (events w) (cache w) (conv w) (output w)).

(** [datetime.now(timezone.utc)] *)
Definition clock : M Z := fun w => (Ok (now_ms ext (ext_state w)), w).

(** [yield chunk] *)
Definition yield (chunk : string) : M unit :=
  fun w =>
    (Ok tt, EWorld (ext_state w) (limiter w) (events w) (cache w) (conv w)
                   (output w ++ [chunk])).

Definition sleep (d : Q) : M unit :=
  fun w =>
    (Ok tt, EWorld (ext_state w) (limiter w) (events w ++ [EvSleep d])
                   (cache w) (conv w) (output w)).

Definition with_cache {A : Type} (f : Cache.world -> A * Cache.world) : M A :=
  fun w =>
    let '(a, c') := f (cache w) in
    (Ok a, EWorld (ext_state w) (limiter w) (events w) c' (conv w) (output w)).

Definition with_conv {A : Type}
  (f : Conversation.manager -> A * Conversation.manager) : M A :=
  fun w =>
    let '(a, c') := f (conv w) in
    (Ok a, EWorld (ext_state w) (limiter w) (events w) (cache w) c' (output w)).

Fixpoint for_each {A : Type} (l : list A) (body : A -> M unit) : M unit :=
  match l with
  | [] => ret tt
  | a :: l' => exec body a then for_each l' body
  end.

(** *** chatbot/query_classifier.py *)

Definition default_classification (confidence : float) (reasoning : string)
  : jval :=
  JObj [("is_question", JBool true); ("is_relevant", JBool true);
        ("question_type", JStr "general"); ("confidence", JFloat confidence);
        ("reasoning", JStr reasoning)].

Definition fence : string := "```".
Definition fence_json : string := "```json".

(** The text between the code fences, when the reply has them. *)
Definition strip_fences (classification_text : string) : string :=
  let first_field (s : string) : string :=
    Py.strip (hd EmptyString (Py.split_on fence s [] 0)) in
  if Py.contains fence_json classification_text then
    first_field (nth 1 (Py.split_on fence_json classification_text [] 0)
                     EmptyString)
  else if Py.contains fence classification_text then
    first_field (nth 1 (Py.split_on fence classification_text [] 0)
                     EmptyString)
  else classification_text.

(** [QueryClassifier.classify_query]: one direct provider call. *)
Definition classify_query (query : string) : M jval :=
  if negb (enable_classification cfg) then
    ret (default_classification 1 "Classification disabled")
  else
    try_except
      (let* user_prompt := lift_result (classification_user_prompt cfg query) in
       let* response := direct CallCompletion
         (acompletion ext
            (CompletionRequest (llm_model cfg)
               [("system", classification_system_prompt cfg);
                ("user", user_prompt)]
               0.3 200 false)) in
       let classification_text := strip_fences (Py.strip (content response)) in
       match json_loads cfg classification_text with
       | Some classification => ret classification
       | None => raise (JSONDecodeError "Expecting value")
       end)
      (fun e =>
         match e with
         | JSONDecodeError _ =>
             ret (default_classification 0.5 "Classification parsing failed")
         | _ =>
             ret (default_classification 0.5
                    ("Classification error: " ++ exn_str e)%string)
         end).

(** [d.get(k, default)]; an object that is not a dict has no [get]. *)
Definition get_or (k : string) (default : jval) (v : jval) : result jval :=
  match v with
  | JObj d => Ok (match dict_get k d with Some x => x | None => default end)
  | _ => Raise (OtherError "AttributeError")
  end.

(** [d[k]] *)
Definition getitem (k : string) (v : jval) : result jval :=
  match v with
  | JObj d =>
      match dict_get k d with
      | Some x => Ok x
      | None => Raise (OtherError "KeyError")
      end
  | _ => Raise (OtherError "TypeError")
  end.

(** [x >= 0.6]: numbers compare exactly, other values do not compare
    with a float. *)
Definition ge_threshold (x : jval) : result jval :=
  match x with
  | JFloat f => Ok (JBool (PrimFloat.leb 0.6 f))
  | JInt z => Ok (JBool (1 <=? z)%Z)
  | JBool b => Ok (JBool b)
  | _ => Raise (OtherError "TypeError")
  end.

(** [QueryClassifier.should_store_question]: the value of
    [a and b and c >= 0.6] is the first falsy operand, or the last. *)
Definition should_store_question (classification : jval) : result jval :=
  match get_or "is_question" (JBool false) classification with
  | Raise e => Raise e
  | Ok a =>
      if negb (truthy a) then Ok a
      else
        match get_or "is_relevant" (JBool false) classification with
        | Raise e => Raise e
        | Ok b =>
            if negb (truthy b) then Ok b
            else
              match get_or "confidence" (JFloat 0) classification with
              | Raise e => Raise e
              | Ok c => ge_threshold c
              end
        end
  end.

(** *** rag/vector_store.py: VectorStoreManager *)

(** [generate_embedding]: one direct provider call; an error is logged
    and raised again. *)
Definition generate_embedding (text : string) : M (list float) :=
  direct CallEmbedding (aembedding ext EMBEDDING_MODEL text).

(** [store_chunks] *)
Fixpoint embed_chunks (content_id : string) (i : nat)
  (chunks : list Chunking.Chunk) : M (list (string * list float * dict)) :=
  match chunks with
  | [] => ret []
  | chunk :: rest =>
      let* embedding := generate_embedding (Chunking.chunk_text chunk) in
      let* vectors := embed_chunks content_id (S i) rest in
      ret ((content_id ++ "_chunk_" ++ Py.str_of_Z (Z.of_nat i),
            embedding,
            dict_update
              [("text", JStr (Chunking.chunk_text chunk));
               ("content_id", JStr content_id)]
              (Chunking.chunk_metadata chunk))%string
           :: vectors)
  end.

Definition store_chunks (chunks : list Chunking.Chunk) (content_id : string)
  : M nat :=
  let* vectors := embed_chunks content_id 0 chunks in
  exec extern (upsert_vectors ext vectors content_id) then
  ret (List.length chunks).

(** [search_similar] *)
Definition search_similar (query content_id : string) (top_k : Z)
  : M (list vmatch) :=
  let* query_embedding := generate_embedding query in
  extern (store_query ext query_embedding content_id top_k).

(** *** rag/query_engine.py: QueryEngine *)

(** [_prepare_context] *)
Definition context_part (i_chunk : nat * vmatch) : string :=
  let '(i, chunk) := i_chunk in
  let text :=
    match dict_get "text" (m_metadata chunk) with
    | Some v => py_str cfg v
    | None => EmptyString
    end in
  let chunk_index :=
    match dict_get "chunk_index" (m_metadata chunk) with
    | Some v => py_str cfg v
    | None => "?"
    end in
  let nl := String (Py.chr 10) EmptyString in
  ("[Context " ++ Py.str_of_Z (Z.of_nat i) ++ " - Chunk " ++ chunk_index
   ++ "]" ++ nl ++ text ++ nl)%string.

Definition _prepare_context (chunks : list vmatch) : string :=
  Py.join (String (Py.chr 10) EmptyString)
    (List.map context_part (combine (seq 1 (List.length chunks)) chunks)).

Definition generation_request (user_prompt : string) (streaming : bool)
  : completion_request :=
  CompletionRequest (llm_model cfg)
    [("system", chatbot_system_prompt cfg); ("user", user_prompt)]
    (temperature cfg) (max_tokens cfg) streaming.

(** [_generate_answer]: the provider call goes through the executor. *)
Definition _generate_answer (question context : string)
  : M (string * Z) :=
  let* user_prompt := lift_result (chatbot_user_prompt cfg context question) in
  let* response := via_executor CallCompletion
                (acompletion ext (generation_request user_prompt false)) in
  ret (content response, total_tokens response).

Definition no_context_stream_message : string :=
  "I couldn't find relevant information in your uploaded content to answer this question.".

Definition stream_error_message : string :=
  "An error occurred while generating the answer. Please try again.".

(** Reading a stream: every chunk with a non-empty text is passed on;
    the failure that ends the stream, if any, is raised after them. *)
Definition consume (s : stream) : list string * option exn :=
  (flat_map (fun d => match d with
                      | Some t => if Chunking.nonempty t then [t] else []
                      | None => []
                      end) (deltas s),
   failure s).

(** [answer_question_stream]: the chunks it yields.  It catches every
    exception, so it always completes. *)
Definition answer_question_stream (question content_id user_id
  conversation_context : string) (top_k : Z) : eworld X
  -> list string * eworld X :=
  fun w =>
    match search_similar question content_id top_k w with
    | (Raise _, w1) => ([stream_error_message], w1)
    | (Ok [], w1) => ([no_context_stream_message], w1)
    | (Ok relevant_chunks, w1) =>
        let context := _prepare_context relevant_chunks in
        match chatbot_user_prompt cfg context question with
        | Raise _ => ([stream_error_message], w1)
        | Ok user_prompt =>
            match via_executor CallStream
                    (acompletion_stream ext
                       (generation_request user_prompt true)) w1 with
            | (Raise _, w2) => ([stream_error_message], w2)
            | (Ok response, w2) =>
                match consume response with
                | (chunks, None) => (chunks, w2)
                | (chunks, Some _) => (chunks ++ [stream_error_message], w2)
                end
            end
        end
    end.

(** *** chatbot/chatbot_engine.py: ChatbotEngine *)

Definition not_a_question_message : string :=
  "I noticed this might not be a question. If you'd like to learn something specific from your material, please ask me a question!".

Definition off_topic_message : string :=
  "This question seems to be outside the scope of your uploaded learning material. I can only help with questions related to the content you've provided.".

Definition engine_error_message : string :=
  "I encountered an error processing your question. Please try again.".

(** The extra parameters of the cache key: [top_k=5, model=...]. *)
Definition cache_kwargs : list (string * scalar) :=
  [("top_k", SInt 5); ("model", SStr (llm_model cfg))].

(** [_classify_query] *)
Definition _classify_query (question : string) : M jval :=
  if negb (enable_classification cfg) then
    ret (JObj [("is_question", JBool true); ("is_relevant", JBool true);
               ("question_type", JStr "general"); ("confidence", JFloat 1)])
  else classify_query question.

(** [_track_analytics] *)
Definition _track_analytics (user_id content_id : string)
  (question_id : option string) (response_time_ms : Z)
  (classification : jval) (cached : bool) : M unit :=
  let* question_type := lift_result (get_or "question_type" JNull classification) in
  let* confidence := lift_result (get_or "confidence" JNull classification) in
  extern
    (create_analytics_event ext
       [("event_type", JStr "question_asked");
        ("user_id", JStr user_id);
        ("content_id", JStr content_id);
        ("question_id",
         match question_id with Some i => JStr i | None => JNull end);
        ("metadata",
         JObj [("response_time_ms", JInt response_time_ms);
               ("question_type", question_type);
               ("cached", JBool cached);
               ("confidence", confidence)]);
        ("duration_ms", JInt response_time_ms)]).

(** [_store_question]: the id of the stored document. *)
Definition _store_question (question answer content_id user_id : string)
  (answer_result : dict) : M string :=
  extern (create_question ext question answer content_id user_id
            answer_result).

(** [answer[i:i + chunk_size] for i in range(0, len(answer), chunk_size)] *)
Fixpoint pieces (fuel : nat) (size : nat) (s : string) : list string :=
  match fuel, s with
  | S k, String _ _ =>
      String.substring 0 size s
      :: pieces k size (String.substring size (String.length s - size) s)
  | _, _ => []
  end.

(** The body of [ask_question_stream] inside its [try]. *)
Definition ask_question_stream_body (question content_id user_id : string)
  (use_cache : bool) : M unit :=
  let* start_time := clock in
  let* cached_answer :=
    (if use_cache
     then with_cache (Cache.get_cached_answer question content_id
                        cache_kwargs)
     else ret None) in
  match cached_answer with
  | Some ((_ :: _) as cached) =>
      (* replay of a cache hit in pieces of ten characters; the answer
         of a payload this code has stored is a string *)
      let* answer := match dict_get "answer" cached with
                | Some (JStr a) => ret a
                | None => ret EmptyString
                | Some _ => raise (OtherError "TypeError")
                end in
      exec for_each (pieces (String.length answer) 10 answer)
                    (fun chunk => exec yield chunk then sleep (1 # 100)) then
      let* end_time := clock in
      _track_analytics user_id content_id None (end_time - start_time)
        (JObj [("question_type", JStr "cached"); ("confidence", JFloat 1)])
        true
  | _ =>
      let* classification := _classify_query question in
      let* is_question := lift_result (getitem "is_question" classification) in
      if negb (truthy is_question) then yield not_a_question_message
      else
        let* is_relevant := lift_result (getitem "is_relevant" classification) in
        if negb (truthy is_relevant) then yield off_topic_message
        else
          let* conversation_context :=
            with_conv (fun m =>
              (Conversation.get_context_string content_id user_id
                 (Some 3%Z) m, m)) in
          let* chunks :=
            (fun w =>
               let '(cs, w') :=
                 answer_question_stream question content_id user_id
                   conversation_context 5 w in
               (Ok cs, w')) in
          exec for_each chunks yield then
          let full_answer := String.concat EmptyString chunks in
          let* end_time := clock in
          let response_time_ms := (end_time - start_time)%Z in
          let* store := lift_result (should_store_question classification) in
          let* question_doc :=
            (if truthy store
             then
               let* id := _store_question question full_answer content_id user_id
                       [("confidence_score", JFloat 0.8);
                        ("response_time_ms", JInt response_time_ms);
                        ("model_used", JStr (llm_model cfg))] in
               ret (Some id)
             else ret None) in
          exec (if use_cache && Chunking.nonempty full_answer
           then
             with_cache (fun c =>
               (tt, Cache.cache_answer question content_id
                      [("answer", JStr full_answer);
                       ("confidence_score", JFloat 0.8);
                       ("response_time_ms", JInt response_time_ms);
                       ("model_used", JStr (llm_model cfg));
                       ("tokens_used", JInt 0);
                       ("source_chunks", JList []);
                       ("cached", JBool false)]
                      cache_kwargs c))
           else ret tt) then
          let* now := clock in
          exec with_conv (fun m =>
            (tt, Conversation.add_turn content_id user_id question
                   full_answer now m)) then
          _track_analytics user_id content_id question_doc response_time_ms
            classification false
  end.

(** [ChatbotEngine.ask_question_stream]: any exception ends the stream
    with the generic message. *)
Definition ask_question_stream (question content_id user_id : string)
  (use_cache : bool) : M unit :=
  try_except (ask_question_stream_body question content_id user_id use_cache)
             (fun _ => yield engine_error_message).

End Pipeline.

(** Every provider invocation of a trace lies between an acquire and a
    release of the executor's semaphore. *)
Fixpoint guarded_from (inside : bool) (tr : list event) : bool :=
  match tr with
  | [] => true
  | EvAcquire :: tr' => guarded_from true tr'
  | EvRelease :: tr' => guarded_from false tr'
  | EvInvoke _ :: tr' => inside && guarded_from inside tr'
  | EvSleep _ :: tr' => guarded_from inside tr'
  end.

Definition guarded (tr : list event) : bool := guarded_from false tr.

End Engine.

(* ===================================================================== *)
(** ** Test doubles for the external collaborators *)
(* ===================================================================== *)

Module Mock.

(** What each collaborator answers, whatever it is asked. *)
Record script := Script {
  completion_reply : result completion;
  stream_reply : result stream;
  embedding_reply : result (list float);
  query_reply : result (list vmatch);
  question_reply : result string;
  analytics_reply : result unit
}.

(** The external state counts the calls made; the clock shows it. *)
Definition ext (s : script) : externals nat :=
  Externals nat
    (fun _ n => (completion_reply s, S n))
    (fun _ n => (stream_reply s, S n))
    (fun _ _ n => (embedding_reply s, S n))
    (fun _ _ _ n => (query_reply s, S n))
    (fun _ _ n => (Ok tt, S n))
    (fun _ _ _ _ _ n => (question_reply s, S n))
    (fun _ n => (analytics_reply s, S n))
    (fun n => Z.of_nat n).

(** A provider that is down. *)
Definition all_down : script :=
  Script (Raise (APIError "connection refused"))
         (Raise (APIError "connection refused"))
         (Raise (APIError "connection refused"))
         (Raise (OtherError "index unavailable"))
         (Raise (OtherError "database unavailable"))
         (Raise (OtherError "database unavailable")).

(** Prompt templates with one placeholder each, and built-ins that are
    enough for the double: no reply parses as JSON. *)
Definition cfg (classify : bool) : Engine.config :=
  Engine.Config classify LLM_MODEL 0.7 2000
    "You classify queries."
    (fun query => Ok ("Query: " ++ query))
    "You answer from the context."
    (fun context question =>
       Ok ("Context: " ++ context ++ " Question: " ++ question))
    (fun _ => None)
    (fun v => match v with
              | JStr s => s
              | JInt z => Py.str_of_Z z
              | _ => "?"
              end).

End Mock.

(* ===================================================================== *)
(** * Notions used to state the properties *)
(* ===================================================================== *)

(** ** Cache keys *)

Module KeySpec.

(** A string of white space only. *)
Fixpoint blank (s : string) : bool :=
  match s with
  | EmptyString => true
  | String c s' => Py.is_space c && blank s'
  end.

(** Two characters are the same letter: equal, or a capital and its
    small letter. *)
Inductive same_letter : ascii -> ascii -> Prop :=
| same_char (c : ascii) : same_letter c c
| capital_small (u : ascii) :
    Py.is_upper u = true -> same_letter u (Py.chr (Py.code u + 32))
| small_capital (u : ascii) :
    Py.is_upper u = true -> same_letter (Py.chr (Py.code u + 32)) u.

Inductive same_text : string -> string -> Prop :=
| same_empty : same_text EmptyString EmptyString
| same_cons (a b : ascii) (s t : string) :
    same_letter a b -> same_text s t -> same_text (String a s) (String b t).

(** [q2] is [q1] up to letter case and leading/trailing white space. *)
Definition same_question (q1 q2 : string) : Prop :=
  exists l1 m1 r1 l2 m2 r2 : string,
    q1 = (l1 ++ m1 ++ r1)%string /\ q2 = (l2 ++ m2 ++ r2)%string
    /\ blank l1 = true /\ blank r1 = true
    /\ blank l2 = true /\ blank r2 = true
    /\ same_text m1 m2.

(** Reading back one escaped character. *)
Definition hex_value (c : ascii) : Z :=
  let n := Py.code c in
  if (n <? 58)%Z then (n - 48)%Z else (n - 87)%Z.

Definition unesc (s : string) : option (ascii * string) :=
  match s with
  | EmptyString => None
  | String c rest =>
      if Ascii.eqb c Json.backslash then
        match rest with
        | String x rest' =>
            if Ascii.eqb x "n" then Some (Py.chr 10, rest')
            else if Ascii.eqb x "r" then Some (Py.chr 13, rest')
            else if Ascii.eqb x "t" then Some (Py.chr 9, rest')
            else if Ascii.eqb x "b" then Some (Py.chr 8, rest')
            else if Ascii.eqb x "f" then Some (Py.chr 12, rest')
            else if Ascii.eqb x "u" then
              match rest' with
              | String _ (String _ (String h (String l rest''))) =>
                  Some (Py.chr (16 * hex_value h + hex_value l), rest'')
              | _ => None
              end
            else Some (x, rest')
        | EmptyString => None
        end
      else Some (c, rest)
  end.

(** [kwargs] with the value of parameter [k] replaced by [v]. *)
Definition set_param (k : string) (v : scalar)
  (kwargs : list (string * scalar)) : list (string * scalar) :=
  List.map (fun kv => if String.eqb (fst kv) k then (k, v) else kv) kwargs.

(** An integer, a string, a boolean or [None]. *)
Definition leaf (v : scalar) : bool :=
  match v with
  | SInt _ | SStr _ | SBool _ | SNone => true
  | SList _ | STuple _ | SDict _ => false
  end.

(** The order of [sorted] on the items of [kwargs]. *)
Definition key_le (a b : string * scalar) : Prop := key_leb a b = true.

End KeySpec.

(** ** Traces of the executor *)

Module RetrySpec.
Import Retry.

(** One attempt that is followed by a retry, as it shows in the trace. *)
Definition failed_attempt (l : limiter) (tag : call_tag) (attempt : Z)
  : list event :=
  [EvAcquire; EvInvoke tag; EvRelease; EvSleep (backoff_delay l attempt)].

Definition last_attempt (tag : call_tag) : list event :=
  [EvAcquire; EvInvoke tag; EvRelease].

(** Attempts [a, a+1, ..., a+n-1]. *)
Definition span (a n : nat) : list Z := List.map Z.of_nat (seq a n).

End RetrySpec.

(** ** Chunk lists *)

Module ChunkingSpec.
Import Chunking.

(** The chunks carry the indices [start, start+1, ...]. *)
Definition indexed_from (start : nat) (chunks : list Chunk) : Prop :=
  indices chunks
  = List.map (fun i => Some (JInt (Z.of_nat i)))
             (seq start (List.length chunks)).

(** The segments that pass the size test, in order. *)
Definition kept_segments (split_text : string) : list string :=
  List.filter (fun s => (50 <? Py.word_count s)%nat)
    (List.map Py.strip (Py.split_on split_marker split_text [] 0)).

End ChunkingSpec.

(** ** Classification results *)

Module GateSpec.

(** [ClassificationResult] of the data model. *)
Record ClassificationResult := MkClassification {
  is_question : bool;
  is_relevant : bool;
  question_type : string;
  confidence : float;
  reasoning : string
}.

(** The dictionary the classifier returns for it. *)
Definition to_dict (c : ClassificationResult) : jval :=
  JObj [("is_question", JBool (is_question c));
        ("is_relevant", JBool (is_relevant c));
        ("question_type", JStr (question_type c));
        ("confidence", JFloat (confidence c));
        ("reasoning", JStr (reasoning c))].

End GateSpec.

(** ** Sequences of turns *)

Module WindowSpec.

(** [add_turn] for each turn of a list, in order, for one key. *)
Definition add_all (content_id user_id : string)
  (turns : list Conversation.turn) (m : Conversation.manager)
  : Conversation.manager :=
  fold_left
    (fun m t =>
       Conversation.add_turn content_id user_id (Conversation.question t)
         (Conversation.answer t) (Conversation.timestamp t) m)
    turns m.

(** The last [n] elements of a list. *)
Definition window {A : Type} (n : nat) (l : list A) : list A :=
  List.skipn (List.length l - n) l.

End WindowSpec.

(** ** Streams that fail *)

Module StreamSpec.
Import Engine.
Local Open Scope list_scope.

(** Cache, conversation window and output of a state. *)
Definition rest_of {X : Type} (w : eworld X)
  : Cache.world * Conversation.manager * list string :=
  (cache w, conv w, output w).

Definition set_cache {X : Type} (w : eworld X) (c : Cache.world) : eworld X :=
  EWorld (ext_state w) (limiter w) (events w) c (conv w) (output w).

Section Failure.
Context {X : Type}.
Variable ext : externals X.
Variable cfg : config.
Variables question content_id : string.

(** The ways the generation stream can fail, from the state in which it
    starts: what it yields, and the state in which it ends. *)
Inductive stream_failure (w : eworld X) : list string -> eworld X -> Prop :=
| NoRelevantChunks (w1 : eworld X) :
    search_similar ext question content_id 5 w = (Ok [], w1) ->
    stream_failure w [no_context_stream_message] w1
| RetrievalFails (e : exn) (w1 : eworld X) :
    search_similar ext question content_id 5 w = (Raise e, w1) ->
    stream_failure w [stream_error_message] w1
| GenerationFails (m : vmatch) (ms : list vmatch) (user_prompt : string)
    (e : exn) (w1 w2 : eworld X) :
    search_similar ext question content_id 5 w = (Ok (m :: ms), w1) ->
    chatbot_user_prompt cfg (_prepare_context cfg (m :: ms)) question
    = Ok user_prompt ->
    via_executor CallStream
      (acompletion_stream ext (generation_request cfg user_prompt true)) w1
    = (Raise e, w2) ->
    stream_failure w [stream_error_message] w2
| MidStreamFailure (m : vmatch) (ms : list vmatch) (user_prompt : string)
    (response : stream) (e : exn) (w1 w2 : eworld X) :
    search_similar ext question content_id 5 w = (Ok (m :: ms), w1) ->
    chatbot_user_prompt cfg (_prepare_context cfg (m :: ms)) question
    = Ok user_prompt ->
    via_executor CallStream
      (acompletion_stream ext (generation_request cfg user_prompt true)) w1
    = (Ok response, w2) ->
    failure response = Some e ->
    stream_failure w (fst (consume response) ++ [stream_error_message]) w2.

End Failure.

End StreamSpec.

(* ===================================================================== *)
(** * Sample inputs *)
(* ===================================================================== *)

Module Samples.
Import Chunking Engine StreamSpec.

(** The extra parameters both orchestrator paths pass:
    [top_k=5, model=settings.LLM_MODEL]. *)
Definition engine_kwargs : list (string * scalar) :=
  [("top_k", SInt 5); ("model", SStr "gpt-4o-mini")].

(** One extra parameter, passed as a tuple and as a list. *)
Definition tuple_kwargs : list (string * scalar) :=
  [("tags", STuple [SInt 1; SInt 2])].

Definition list_kwargs : list (string * scalar) :=
  [("tags", SList [SInt 1; SInt 2])].

(** A cache manager with caching enabled, in front of a reachable and
    empty Redis. *)
Definition fresh_cache : Cache.world :=
  (Cache.new true, Redis.Server true ∅).

Definition sample_answer : dict :=
  [("answer", JStr "X is a metal."); ("confidence_score", JFloat 0.8);
   ("cached", JBool false)].

(** A content id as the application issues them (a MongoDB ObjectId). *)
Definition sample_content_id : string := "507f1f77bcf86cd799439011".

(** A test double that always hits the rate limit; its state counts the
    invocations. *)
Definition always_rate_limited : operation nat string :=
  fun n => (Raise (RateLimitError "429 rate limit"), Datatypes.S n).

(** A test double failing with a rate-limit error on its first two
    invocations and returning on the third. *)
Definition fails_twice : operation nat string :=
  fun n =>
    (if (n <? 2)%nat then Raise (RateLimitError "429 rate limit")
     else Ok "success_after_retry",
     Datatypes.S n).

(** [RateLimiter(max_concurrent=1, max_retries=2, retry_delay=0.1)] *)
Definition limiter2 : Retry.limiter :=
  Retry.new (Some 1%Z) (Some 2%Z) (Some (1 # 10)) None.

Definition nl : string := String (Py.chr 10) EmptyString.

(** A document with a small section followed by a section of six
    words, chunked with [chunk_size = 4] and no overlap. *)
Definition two_sections : string :=
  ("# A" ++ nl ++ "x" ++ nl ++ "# B" ++ nl ++ "a b" ++ nl ++ nl ++ "c d")%string.

(** A short paragraph followed by a paragraph of six words in two
    sentences, chunked with [chunk_size = 3] and [overlap = 2]. *)
Definition short_then_long : string :=
  ("a b" ++ nl ++ nl ++ "c d e f. g h")%string.

(** [n] words separated by single spaces. *)
Definition words (n : nat) : string := Py.join " " (repeat "w" n).

Definition fifty_then_sixty : string :=
  (words 50 ++ split_marker ++ words 60)%string.

(** A provider that marks one split between a segment of 50 words and a
    segment of 60 words. *)
Definition splitting_provider : externals nat :=
  Mock.ext
    (Mock.Script (Ok (Completion fifty_then_sixty 0))
       (Mock.stream_reply Mock.all_down)
       (Mock.embedding_reply Mock.all_down)
       (Mock.query_reply Mock.all_down)
       (Mock.question_reply Mock.all_down)
       (Mock.analytics_reply Mock.all_down)).

(** Two sections of seven and ten words: with [chunk_size = 4] both
    exceed one and a half times the chunk size. *)
Definition two_long_sections : string :=
  ("# A" ++ nl ++ "x y z w v" ++ nl ++ "# B" ++ nl ++ "a b c d e f g h")%string.

(** A provider whose reply has no split marker. *)
Definition silent_provider : externals nat :=
  Mock.ext
    (Mock.Script (Ok (Completion "no markers here" 0))
       (Mock.stream_reply Mock.all_down)
       (Mock.embedding_reply Mock.all_down)
       (Mock.query_reply Mock.all_down)
       (Mock.question_reply Mock.all_down)
       (Mock.analytics_reply Mock.all_down)).

(** A process that has just started: fresh limiter, empty trace, cache
    enabled in front of an empty Redis, no conversation. *)
Definition fresh_world : eworld nat :=
  EWorld 0%nat (Retry.new None None None None) []
         fresh_cache (Conversation.new None) [].

Definition one_match : vmatch :=
  VMatch "507f1f77bcf86cd799439011_chunk_0" 0.9
         [("text", JStr "X is a metal."); ("chunk_index", JInt 0)].

(** The classifier's reply does not parse, so the permissive default
    (confidence 0.5) passes the gate; retrieval finds one chunk; the
    stream delivers two increments and then breaks. *)
Definition broken_stream : Mock.script :=
  Mock.Script (Ok (Completion "not json" 0))
    (Ok (Stream [Some "Par"; None; Some "tial "]
                (Some (APIError "connection reset"))))
    (Ok [0.1%float])
    (Ok [one_match])
    (Ok "q1")
    (Ok tt).

Definition sample_question : string := "What is X?".

Definition sample_user : string := "u1".

Definition broken_run : result unit * eworld nat :=
  ask_question_stream (Mock.ext broken_stream) (Mock.cfg true)
    sample_question sample_content_id sample_user true
    fresh_world.

(** The states the run of [broken_run] goes through. *)
Definition after_lookup : Cache.world :=
  snd (Cache.get_cached_answer sample_question sample_content_id
         (cache_kwargs (Mock.cfg true)) (cache fresh_world)).

Definition after_gate : eworld nat :=
  snd (_classify_query (Mock.ext broken_stream) (Mock.cfg true)
         sample_question (set_cache fresh_world after_lookup)).

Definition after_search : eworld nat :=
  snd (search_similar (Mock.ext broken_stream) sample_question
         sample_content_id 5 after_gate).

Definition broken_prompt : string :=
  ("Context: " ++ _prepare_context (Mock.cfg true) [one_match]
   ++ " Question: " ++ sample_question)%string.

Definition after_stream : eworld nat :=
  snd (via_executor CallStream
         (acompletion_stream (Mock.ext broken_stream)
            (generation_request (Mock.cfg true) broken_prompt true))
         after_search).

End Samples.
(** ** Runs of an operation under the executor *)

Module RunSpec.
Import Retry.

(** The errors after which the executor tries again, while attempts
    remain: every rate-limit error, and an API error whose message
    names a transient condition. *)
Definition retryable (e : exn) : bool :=
  match e with
  | RateLimitError _ => true
  | APIError _ => _is_retryable_error e
  | _ => false
  end.

(** The state of the operation after [n] invocations. *)
Fixpoint after {St A : Type} (func : operation St A) (n : nat) (s : St)
  : St :=
  match n with
  | O => s
  | Datatypes.S k => after func k (snd (func s))
  end.

(** The first [k] invocations from [s] each raise an error the
    executor retries. *)
Definition fails_retryably {St A : Type} (func : operation St A) (k : nat)
  (s : St) : Prop :=
  forall i : nat, (i < k)%nat ->
    exists e : exn,
      fst (func (after func i s)) = Raise e /\ retryable e = true.

(** The events a call added to a trace. *)
Definition added {St : Type} (before after_call : rworld St) : list event :=
  List.skipn (List.length (trace before)) (trace after_call).

End RunSpec.

Module RunSamples.

(** A test double that rejects every request with an error that names
    no transient condition; its state counts the invocations. *)
Definition bad_request : operation nat string :=
  fun n => (Raise (APIError "400 invalid request"), Datatypes.S n).

(** [RateLimiter(max_retries=-1)] *)
Definition limiter_neg : Retry.limiter :=
  Retry.new None (Some (-1)%Z) None None.

End RunSamples.
(** ** Glob patterns and keys *)

Module GlobSpec.

(** No character of [s] is special in a glob pattern. *)
Definition plain_char (c : ascii) : bool :=
  negb (Ascii.eqb c "*" || Ascii.eqb c "?" || Ascii.eqb c "["
        || Ascii.eqb c "\")%char.

Fixpoint plain (s : string) : bool :=
  match s with
  | EmptyString => true
  | String c s' => plain_char c && plain s'
  end.

(** What follows the prefix [p] in [s], when [s] starts with [p]. *)
Fixpoint after_prefix (p s : string) : option string :=
  match p with
  | EmptyString => Some s
  | String a p' =>
      match s with
      | EmptyString => None
      | String b s' => if Ascii.eqb a b then after_prefix p' s' else None
      end
  end.

(** A pattern that matches the text [s] character by character. *)
Definition lits (s : string) : list Redis.tok :=
  List.map Redis.TLit (list_ascii_of_string s).

End GlobSpec.
(** ** Word counts and sections *)

Module WordSpec.
Import Chunking.

(** The words of a list of texts, counted text by text. *)
Definition total_words (l : list string) : Z :=
  fold_right (fun s n => (wc s + n)%Z) 0%Z l.

(** No line of the text is a markdown header. *)
Definition headerless (text : string) : Prop :=
  Forall (fun line => header_match line = None)
         (Py.split_char (Py.chr 10) text).

(** [chunk.metadata["chunking_strategy"]], when present. *)
Definition strategy (c : Chunk) : option jval :=
  dict_get "chunking_strategy" (chunk_metadata c).

(** A chunk built from whole paragraphs is within the bound. *)
Definition within (chunk_size overlap : Z) (c : Chunk) : Prop :=
  strategy c = Some (JStr "heuristic") ->
  (Z.of_nat (chunk_word_count c) <= chunk_size + Z.max 0 overlap)%Z
  /\ chunk_word_count c = Py.word_count (chunk_text c).

(** What the loop of [HeuristicChunker.chunk] keeps true: the chunks
    made so far are within the bound, and the running word count is the
    number of words of the paragraphs collected for the next chunk. *)
Definition bounded (chunk_size overlap : Z) (st : hstate) : Prop :=
  Forall (within chunk_size overlap) (h_chunks st)
  /\ h_current_word_count st = total_words (h_current_chunk st)
  /\ (h_current_word_count st <= chunk_size + Z.max 0 overlap)%Z.

End WordSpec.

Module ChunkSamples.
Import Samples.

(** Three paragraphs of two, two and three words, chunked with
    [chunk_size = 3] and [overlap = 2]. *)
Definition three_paragraphs : string :=
  ("a b" ++ nl ++ nl ++ "c d" ++ nl ++ nl ++ "e f g")%string.

(** Blank lines and spaces only. *)
Definition only_blank : string := (" " ++ nl ++ nl ++ "  " ++ nl)%string.

(** Two lines without a header. *)
Definition plain_notes : string :=
  ("Acids donate protons." ++ nl ++ "Bases accept them." ++ nl)%string.

(** Two sections of two and three words. *)
Definition two_small_sections : string :=
  ("# A" ++ nl ++ "# B" ++ nl ++ "x")%string.

End ChunkSamples.
(** ** chatbot/conversation_manager.py: the remaining operations *)

Module ConversationDb.
Import Conversation.
Local Open Scope list_scope.

(** [clear_all] *)
Definition clear_all (m : manager) : manager :=
  Manager (max_history m) ∅.

(** A document of the [questions] collection, as far as
    [load_from_database] reads it; a field may be missing. *)
Record question_doc := QuestionDoc {
  d_question : option string;
  d_answer : option string;
  d_created_at : option Z
}.

Section Load.
Context {X : Type}.

(** [db.questions.find(query).sort("created_at", -1).limit(limit)] read
    to its end: the documents, newest first, or the exception raised
    on the way. *)
Variable find_questions :
  string -> string -> Z -> operation X (list question_doc).

(** [datetime.now(timezone.utc)] *)
Variable now_ms : X -> Z.

Definition turn_of_doc (now : Z) (q : question_doc) : turn :=
  Turn (default EmptyString (d_question q))
       (default EmptyString (d_answer q))
       (default now (d_created_at q)).

(** [load_from_database]: any exception is logged and swallowed. *)
Definition load_from_database (content_id user_id : string)
  (limit : option Z) (m : manager) (x : X) : manager * X :=
  let limit := Retry.or_Z limit (max_history m) in
  match find_questions content_id user_id limit x with
  | (Raise _, x') => (m, x')
  | (Ok questions, x') =>
      let questions := List.rev questions in
      let key := _get_conversation_key content_id user_id in
      (Manager (max_history m)
         (<[key := List.map (turn_of_doc (now_ms x')) questions]>
            (conversations m)),
       x')
  end.

End Load.

End ConversationDb.

(** ** Identifiers *)

Module IdSpec.

(** The text has no underscore. *)
Fixpoint no_underscore (s : string) : bool :=
  match s with
  | EmptyString => true
  | String c s' => negb (Ascii.eqb c "_") && no_underscore s'
  end.

End IdSpec.
(** ** Replaying and gating *)

Module ReplaySpec.
Import Engine.

(** A state with something more yielded. *)
Definition yielded {X : Type} (w : eworld X) (chunks : list string)
  : eworld X :=
  EWorld (ext_state w) (limiter w) (events w) (cache w) (conv w)
         (output w ++ chunks).

End ReplaySpec.

Module GateSamples.
Import Samples.

(** The reply of a provider that takes the input for small talk. *)
Definition small_talk_reply : string := "{not a question}".

(** A configuration whose [json.loads] knows that one reply. *)
Definition cfg_small_talk : Engine.config :=
  Engine.Config true LLM_MODEL 0.7 2000
    "You classify queries."
    (fun query => Ok ("Query: " ++ query))
    "You answer from the context."
    (fun context question =>
       Ok ("Context: " ++ context ++ " Question: " ++ question))
    (fun s =>
       if String.eqb s small_talk_reply
       then Some (JObj [("is_question", JBool false);
                        ("is_relevant", JBool false);
                        ("question_type", JStr "other");
                        ("confidence", JFloat 0.9)])
       else None)
    (fun v => match v with
              | JStr s => s
              | JInt z => Py.str_of_Z z
              | _ => "?"
              end).

Definition small_talk : Mock.script :=
  Mock.Script (Ok (Completion small_talk_reply 0))
    (Mock.stream_reply Mock.all_down)
    (Mock.embedding_reply Mock.all_down)
    (Mock.query_reply Mock.all_down)
    (Mock.question_reply Mock.all_down)
    (Mock.analytics_reply Mock.all_down).

(** The reply of a provider that words its confidence. *)
Definition vague_reply : string := "{confidence: high}".

Definition cfg_vague : Engine.config :=
  Engine.Config true LLM_MODEL 0.7 2000
    "You classify queries."
    (fun query => Ok ("Query: " ++ query))
    "You answer from the context."
    (fun context question =>
       Ok ("Context: " ++ context ++ " Question: " ++ question))
    (fun s =>
       if String.eqb s vague_reply
       then Some (JObj [("is_question", JBool true);
                        ("is_relevant", JBool true);
                        ("question_type", JStr "factual");
                        ("confidence", JStr "high")])
       else None)
    (fun v => match v with
              | JStr s => s
              | JInt z => Py.str_of_Z z
              | _ => "?"
              end).

(** The classifier words its confidence; retrieval finds one chunk and
    the stream delivers the answer in two increments. *)
Definition vague : Mock.script :=
  Mock.Script (Ok (Completion vague_reply 0))
    (Ok (Stream [Some "X is "; Some "a metal."] None))
    (Ok [0.1%float])
    (Ok [one_match])
    (Ok "q1")
    (Ok tt).

End GateSamples.

(** ** Vectors *)

Module VectorSpec.

(** The id [store_chunks] gives the chunk at position [i]. *)
Definition vector_id (content_id : string) (i : nat) : string :=
  (content_id ++ "_chunk_" ++ Py.str_of_Z (Z.of_nat i))%string.

Definition ids (vectors : list (string * list float * dict)) : list string :=
  List.map (fun v => fst (fst v)) vectors.

End VectorSpec.
(* ===================================================================== *)
(** ** rag/chunking.py: the factory, and rag/pipeline.py *)
(* ===================================================================== *)

Module Pipeline.
Import Engine Chunking.
Local Open Scope list_scope.

(** The three strategies behind [BaseChunker]. *)
Inductive chunker : Type :=
| HeuristicChunker (chunk_size overlap : Z)
| SemanticChunker (chunk_size overlap : Z)
| IntelligentChunker (chunk_size overlap : Z).

(** [get_chunker]: an unknown strategy is logged and gives the semantic
    one. *)
Definition get_chunker (strategy : string) (chunk_size overlap : Z)
  : chunker :=
  if String.eqb strategy "heuristic" then HeuristicChunker chunk_size overlap
  else if String.eqb strategy "semantic"
  then SemanticChunker chunk_size overlap
  else if String.eqb strategy "intelligent"
  then IntelligentChunker chunk_size overlap
  else SemanticChunker chunk_size overlap.

(** [class ProcessingStage(str, Enum)] and its [.value] *)
Inductive ProcessingStage : Type :=
| INITIALIZING | CONVERTING | CHUNKING | EMBEDDING | STORING | COMPLETING
| ERROR.

Definition value (s : ProcessingStage) : string :=
  match s with
  | INITIALIZING => "initializing"
  | CONVERTING => "converting"
  | CHUNKING => "chunking"
  | EMBEDDING => "embedding"
  | STORING => "storing"
  | COMPLETING => "completing"
  | ERROR => "error"
  end.

(** The [progress_data] the callbacks receive and the log shows. *)
Record progress_data := ProgressData {
  pd_stage : string;
  pd_percentage : Z;
  pd_message : string;
  pd_metadata : dict;
  pd_timestamp : Z
}.

(** What [DocumentProcessor.process_document] returns, as far as the
    pipeline reads it. *)
Record conversion_result := ConversionResult {
  markdown_text : string;
  word_count : Z;
  conv_metadata : dict;
  conversion_method : string
}.

(** [RAGPipeline]: settings, the vector store provider, the progress
    fields, and the progress lines logged so far. *)
Record pipeline := RAGPipeline {
  chunking_strategy : string;
  chunk_size : Z;
  chunk_overlap : Z;
  provider : string;
  current_stage : ProcessingStage;
  progress_percentage : Z;
  progress_log : list progress_data
}.

(** [settings.CHUNKING_STRATEGY], [CHUNK_SIZE], [CHUNK_OVERLAP],
    [VECTOR_DB_PROVIDER] *)
Definition CHUNKING_STRATEGY : string := "semantic".
Definition CHUNK_SIZE : Z := 800.
Definition CHUNK_OVERLAP : Z := 150.
Definition VECTOR_DB_PROVIDER : string := "pinecone".

(** [RAGPipeline.__init__] *)
Definition new : pipeline :=
  RAGPipeline CHUNKING_STRATEGY CHUNK_SIZE CHUNK_OVERLAP VECTOR_DB_PROVIDER
    INITIALIZING 0 [].

(** [a / b] on two counts (exact below 2^53) and [int(x)]. *)
Definition float_of_Z (z : Z) : float := PrimFloat.of_uint63 (Uint63.of_Z z).

Definition int_of_float (f : float) : result Z :=
  match Prim2SF f with
  | S754_zero _ => Ok 0%Z
  | S754_finite s m e =>
      let v := if (0 <=? e)%Z then (Z.pos m * 2 ^ e)%Z
               else (Z.pos m / 2 ^ (- e))%Z in
      Ok (if s then (- v)%Z else v)
  | S754_infinity _ => Raise (OtherError "OverflowError")
  | S754_nan => Raise (OtherError "ValueError")
  end.

(** [chunks[i:i + batch_size] for i in range(0, len(chunks), batch_size)] *)
Fixpoint batches {A : Type} (fuel : nat) (batch_size : nat) (l : list A)
  : list (list A) :=
  match fuel, l with
  | Datatypes.S k, _ :: _ =>
      List.firstn batch_size l :: batches k batch_size (List.skipn batch_size l)
  | _, _ => []
  end.

Section Run.
Context {X : Type}.
Variable ext : externals X.

(** [VectorStoreManager.initialize]: the index is created if missing. *)
Variable create_index : operation X unit.

(** [DocumentProcessor.process_document(file_path, file_type)]: the
    conversion with the third-party readers. *)
Variable convert : string -> string -> operation X conversion_result.

(** The callbacks registered with [register_progress_callback]. *)
Variable progress_callbacks : list (progress_data -> operation X unit).

(** State of a run: the process and the pipeline object. *)
Definition pworld : Type := eworld X * pipeline.

Definition P (A : Type) : Type := pworld -> result A * pworld.

Definition pret {A : Type} (a : A) : P A := fun w => (Ok a, w).

Definition pbind {A B : Type} (c : P A) (k : A -> P B) : P B :=
  fun w =>
    match c w with
    | (Ok a, w') => k a w'
    | (Raise e, w') => (Raise e, w')
    end.

Notation "'let*' x ':=' c 'in' k" := (pbind c (fun x => k))
  (at level 10, x name, c at level 100, k at level 200).
Notation "'exec' c 'then' k" := (pbind c (fun _ => k))
  (at level 10, c at level 100, k at level 200).

(** A step of the process inside a run of the pipeline. *)
Definition lift {A : Type} (c : M A) : P A :=
  fun w =>
    let '(r, e') := c (fst w) in (r, (e', snd w)).

Definition set_ext_state (w : eworld X) (x : X) : eworld X :=
  EWorld x (limiter w) (events w) (cache w) (conv w) (output w).

(** [_update_progress]: a callback that raises is logged and skipped. *)
Definition _update_progress (stage : ProcessingStage) (percentage : Z)
  (message : string) (metadata : option dict) : P unit :=
  fun w =>
    let '(e, p) := w in
    let data :=
      ProgressData (value stage) percentage message (or_empty metadata)
        (now_ms ext (ext_state e)) in
    let x' :=
      fold_left (fun x callback => snd (callback data x))
        progress_callbacks (ext_state e) in
    (Ok tt,
     (set_ext_state e x',
      RAGPipeline (chunking_strategy p) (chunk_size p) (chunk_overlap p)
        (provider p) stage percentage (progress_log p ++ [data]))).

Definition pclock : P Z := fun w => (Ok (now_ms ext (ext_state (fst w))), w).

Definition self : P pipeline := fun w => (Ok (snd w), w).

(** [chunker.chunk(text, metadata)] *)
Definition chunk (c : chunker) (text : string) (metadata : option dict)
  : P (list Chunk) :=
  match c with
  | HeuristicChunker size overlap =>
      pret (heuristic_chunk size overlap text metadata)
  | SemanticChunker size overlap =>
      pret (semantic_chunk size overlap text metadata)
  | IntelligentChunker size overlap =>
      fun w =>
        let '(e, p) := w in
        let '(chunks, (x', tr')) :=
          intelligent_chunk size overlap ext text metadata
            (ext_state e, events e) in
        (Ok chunks,
         (EWorld x' (limiter e) tr' (cache e) (conv e) (output e), p))
  end.

(** The loop over the batches of ten chunks. *)
Fixpoint store_batches (content_id : string) (chunks_count : Z)
  (todo : list (list Chunk)) (stored_count : Z) : P unit :=
  match todo with
  | [] => pret tt
  | batch :: rest =>
      exec lift (store_chunks ext batch content_id) then
      let stored_count := (stored_count + Z.of_nat (List.length batch))%Z in
      let* part :=
        (fun w =>
           (int_of_float
              (PrimFloat.mul
                 (PrimFloat.div (float_of_Z stored_count)
                    (float_of_Z chunks_count))
                 35), w)) in
      let embedding_progress := (55 + part)%Z in
      exec _update_progress EMBEDDING embedding_progress
             ("Processed " ++ Py.str_of_Z stored_count ++ "/"
              ++ Py.str_of_Z chunks_count ++ " chunks")%string None then
      store_batches content_id chunks_count rest stored_count
  end.

(** The body of [process_document] inside its [try]. *)
Definition process_document_body (file_path file_type content_id : string)
  : P dict :=
  let* start_time := pclock in
  exec _update_progress INITIALIZING 0 "Initializing RAG pipeline..." None then
  exec lift (extern create_index) then
  exec _update_progress CONVERTING 10
         ("Converting " ++ file_type ++ " to Markdown...")%string None then
  let* conversion_result := lift (extern (convert file_path file_type)) in
  let markdown_text := markdown_text conversion_result in
  let word_count := word_count conversion_result in
  exec _update_progress CONVERTING 25
         ("Conversion complete. Extracted " ++ Py.str_of_Z word_count
          ++ " words")%string
         (Some [("word_count", JInt word_count)]) then
  let* p := self in
  exec _update_progress CHUNKING 30
         ("Chunking document using " ++ chunking_strategy p
          ++ " strategy...")%string None then
  let chunker :=
    get_chunker (chunking_strategy p) (chunk_size p) (chunk_overlap p) in
  let* chunks :=
    chunk chunker markdown_text
      (Some (dict_update
               [("content_id", JStr content_id);
                ("file_type", JStr file_type);
                ("source_file", JStr file_path)]
               (conv_metadata conversion_result))) in
  let chunks_count := Z.of_nat (List.length chunks) in
  exec _update_progress CHUNKING 50
         ("Created " ++ Py.str_of_Z chunks_count ++ " chunks")%string
         (Some [("chunks_count", JInt chunks_count)]) then
  exec _update_progress EMBEDDING 55
         ("Generating embeddings for " ++ Py.str_of_Z chunks_count
          ++ " chunks...")%string None then
  exec store_batches content_id chunks_count
         (batches (List.length chunks) 10 chunks) 0 then
  exec _update_progress COMPLETING 95 "Finalizing processing..." None then
  let* end_time := pclock in
  let processing_time :=
    PrimFloat.div (float_of_Z (end_time - start_time)) 1000 in
  let result :=
    [("success", JBool true);
     ("content_id", JStr content_id);
     ("markdown_text", JStr markdown_text);
     ("chunks_count", JInt chunks_count);
     ("word_count", JInt word_count);
     ("processing_time_seconds", JFloat processing_time);
     ("chunking_strategy", JStr (chunking_strategy p));
     ("conversion_method", JStr (conversion_method conversion_result));
     ("metadata", JObj (conv_metadata conversion_result));
     ("vector_store", JStr (provider p))] in
  exec _update_progress COMPLETING 100 "Processing complete!" (Some result) then
  pret result.

(** [process_document]: an exception becomes a progress line of stage
    [error] and a result that reports the failure. *)
Definition process_document (file_path file_type content_id : string)
  : P dict :=
  fun w =>
    match process_document_body file_path file_type content_id w with
    | (Ok result, w') => (Ok result, w')
    | (Raise e, w') =>
        (exec _update_progress ERROR 0
                ("Processing failed: " ++ exn_str e)%string
                (Some [("error", JStr (exn_str e))]) then
         let* p := self in
         pret [("success", JBool false);
               ("content_id", JStr content_id);
               ("error", JStr (exn_str e));
               ("stage", JStr (value (current_stage p)))]) w'
    end.

End Run.

(** [class ProgressTracker] *)
Definition ProgressTracker : Type := gmap string dict.

Definition update (content_id : string) (progress : dict)
  (t : ProgressTracker) : ProgressTracker :=
  <[content_id := progress]> t.

Definition get_progress (content_id : string) (t : ProgressTracker)
  : option dict := t !! content_id.

Definition clear_progress (content_id : string) (t : ProgressTracker)
  : ProgressTracker := delete content_id t.

End Pipeline.

(** ** Observing the vector index *)

Module UpsertSpec.
Import Engine Pipeline VectorSpec.
Local Open Scope list_scope.

(** One [upsert_vectors] call: the namespace and the ids written. *)
Definition upsert_call : Type := string * list string.

(** An operation of [X] running beside a record of the upsert calls. *)
Definition beside {X A : Type} (f : operation X A)
  : operation (X * list upsert_call) A :=
  fun s => let '(r, x') := f (fst s) in (r, (x', snd s)).

(** The collaborators [ext], with every call of [upsert_vectors]
    written down, whether it succeeds or raises. *)
Definition recorded {X : Type} (ext : externals X)
  : externals (X * list upsert_call) :=
  Externals (X * list upsert_call)
    (fun req => beside (acompletion ext req))
    (fun req => beside (acompletion_stream ext req))
    (fun model text => beside (aembedding ext model text))
    (fun v ns k => beside (store_query ext v ns k))
    (fun vectors ns s =>
       let '(r, x') := upsert_vectors ext vectors ns (fst s) in
       (r, (x', snd s ++ [(ns, ids vectors)])))
    (fun q a c u d => beside (create_question ext q a c u d))
    (fun d => beside (create_analytics_event ext d))
    (fun s => now_ms ext (fst s)).

(** The upsert calls made up to a state of a run. *)
Definition upserts {X : Type} (w : eworld (X * list upsert_call) * pipeline)
  : list upsert_call :=
  snd (ext_state (fst w)).

(** The call that stores one batch. *)
Definition batch_call (content_id : string) (batch : list Chunking.Chunk)
  : upsert_call :=
  (content_id, List.map (vector_id content_id) (seq 0 (List.length batch))).

(** A step of a run that makes no upsert call. *)
Definition frames {X A : Type}
  (c : eworld (X * list upsert_call) * pipeline
       -> result A * (eworld (X * list upsert_call) * pipeline)) : Prop :=
  forall w, upserts (snd (c w)) = upserts w.

(** A step of a run whose upsert calls store the first batches of some
    chunk list, one call per batch. *)
Definition stores_batches {X A : Type} (content_id : string)
  (c : eworld (X * list upsert_call) * pipeline
       -> result A * (eworld (X * list upsert_call) * pipeline)) : Prop :=
  forall w,
    exists (chunks : list Chunking.Chunk) (k : nat),
      upserts (snd (c w))
      = upserts w
        ++ List.map (batch_call content_id)
             (List.firstn k (batches (List.length chunks) 10 chunks)).

End UpsertSpec.

(** ** The calls of [store_chunks], with their replies *)

Module StoreSpec.
Import Engine VectorSpec UpsertSpec.
Local Open Scope list_scope.

(** A call to the embedding provider or to the index, and what came
    back. *)
Inductive store_call : Type :=
| Embedded (model text : string) (reply : result (list float))
| Upserted (vectors : list (string * list float * dict))
    (namespace : string) (reply : result unit).

(** An operation of [X] running beside a record it does not touch. *)
Definition aside {X L A : Type} (f : operation X A) : operation (X * L) A :=
  fun s => let '(r, x') := f (fst s) in (r, (x', snd s)).

(** The collaborators [ext], with the embedding and the upsert calls
    written down. *)
Definition logged {X : Type} (ext : externals X)
  : externals (X * list store_call) :=
  Externals (X * list store_call)
    (fun req => aside (acompletion ext req))
    (fun req => aside (acompletion_stream ext req))
    (fun model text s =>
       let '(r, x') := aembedding ext model text (fst s) in
       (r, (x', snd s ++ [Embedded model text r])))
    (fun v ns k => aside (store_query ext v ns k))
    (fun vectors ns s =>
       let '(r, x') := upsert_vectors ext vectors ns (fst s) in
       (r, (x', snd s ++ [Upserted vectors ns r])))
    (fun q a c u d => aside (create_question ext q a c u d))
    (fun d => aside (create_analytics_event ext d))
    (fun s => now_ms ext (fst s)).

(** The calls written down up to a state. *)
Definition calls {X : Type} (w : eworld (X * list store_call))
  : list store_call :=
  snd (ext_state w).

(** The embedding calls for the chunks [cs], answered by [es]. *)
Definition embedded (cs : list Chunking.Chunk) (es : list (list float))
  : list store_call :=
  List.map
    (fun ce => Embedded EMBEDDING_MODEL (Chunking.chunk_text (fst ce))
                 (Ok (snd ce)))
    (List.combine cs es).

(** The vectors for the chunks [cs] at positions [i], [i + 1], ... with
    the embeddings [es]. *)
Fixpoint vectors_of (content_id : string) (i : nat)
  (cs : list Chunking.Chunk) (es : list (list float))
  : list (string * list float * dict) :=
  match cs, es with
  | c :: cs', e :: es' =>
      (vector_id content_id i, e,
       dict_update
         [("text", JStr (Chunking.chunk_text c));
          ("content_id", JStr content_id)]
         (Chunking.chunk_metadata c))
      :: vectors_of content_id (Datatypes.S i) cs' es'
  | _, _ => []
  end.

End StoreSpec.

Module PipelineSamples.
Import Samples Pipeline.

(** A document of twelve short paragraphs, chunked one paragraph per
    chunk. *)
Definition twelve_paragraphs : string :=
  Py.join (nl ++ nl)
    ["p0"; "p1"; "p2"; "p3"; "p4"; "p5"; "p6"; "p7"; "p8"; "p9"; "p10";
     "p11"].

(** A pipeline that puts every paragraph in a chunk of its own. *)
Definition small_pipeline : pipeline :=
  RAGPipeline "heuristic" 1 0 "pinecone" INITIALIZING 0 [].

(** Collaborators that all answer. *)
Definition all_up : Mock.script :=
  Mock.Script (Ok (Completion "ok" 0))
    (Ok (Stream [] None))
    (Ok [0.1%float])
    (Ok [])
    (Ok "q1")
    (Ok tt).

Definition reads_twelve : string -> string -> operation nat conversion_result :=
  fun _ _ n =>
    (Ok (ConversionResult twelve_paragraphs 12 [("source", JStr "markdown")]
           "direct"),
     Datatypes.S n).

Definition index_ready : operation nat unit := fun n => (Ok tt, Datatypes.S n).

Definition index_down : operation nat unit :=
  fun n => (Raise (OtherError "index unavailable"), Datatypes.S n).

(** The fresh world with an empty record of upsert calls. *)
Definition recorded_world : Engine.eworld (nat * list UpsertSpec.upsert_call) :=
  Engine.EWorld (Engine.ext_state fresh_world, [])
    (Engine.limiter fresh_world) (Engine.events fresh_world)
    (Engine.cache fresh_world) (Engine.conv fresh_world)
    (Engine.output fresh_world).

End PipelineSamples.

(* ===================================================================== *)
(** ** api/routes/content.py: the background task of an upload *)
(* ===================================================================== *)

Module ContentRoutes.
Import Engine Pipeline.
Local Open Scope list_scope.

(** One [db.content.update_one({"_id": oid}, {"$set": fields})]. *)
Definition content_update : Type := (string * dict)%type.

Definition mime_type_map : list (string * string) :=
  [(".pdf", "application/pdf");
   (".docx",
    "application/vnd.openxmlformats-officedocument.wordprocessingml.document");
   (".doc", "application/msword");
   (".txt", "text/plain");
   (".md", "text/markdown")].

(** [m.get(k, default)] on a dict of strings. *)
Fixpoint map_get (k default : string) (m : list (string * string)) : string :=
  match m with
  | [] => default
  | (k', v) :: m' => if String.eqb k k' then v else map_get k default m'
  end.

Section Background.
Context {X : Type}.
Variable ext : externals X.
Variable create_index : operation X unit.
Variable convert : string -> string -> operation X conversion_result.

(** [ObjectId(content_id)]: the id, or the exception for a text that is
    no object id. *)
Variable ObjectId : string -> result string.

(** [db.content.update_one] *)
Variable update_one : string -> dict -> operation X unit.

(** [DocumentProcessor()] and [VectorStoreManager()], built by
    [RAGPipeline()]. *)
Variable build_clients : operation X unit.

(** [Path(file_path).suffix.lower()] *)
Variable suffix_lower : string -> string.

(** State of the task: the process, and the updates of the content
    collection requested so far. *)
Definition tworld : Type := (eworld X * list content_update)%type.

Definition T (A : Type) : Type := tworld -> result A * tworld.

Definition tret {A : Type} (a : A) : T A := fun s => (Ok a, s).

Definition tbind {A B : Type} (c : T A) (k : A -> T B) : T B :=
  fun s =>
    match c s with
    | (Ok a, s') => k a s'
    | (Raise e, s') => (Raise e, s')
    end.

Notation "'let*' x ':=' c 'in' k" := (tbind c (fun x => k))
  (at level 10, x name, c at level 100, k at level 200).
Notation "'exec' c 'then' k" := (tbind c (fun _ => k))
  (at level 10, c at level 100, k at level 200).

Definition in_process {A : Type} (c : M A) : T A :=
  fun s => let '(r, w') := c (fst s) in (r, (w', snd s)).

Definition update (oid : string) (fields : dict) : T unit :=
  fun s =>
    let '(r, w') := extern (update_one oid fields) (fst s) in
    (r, (w', snd s ++ [(oid, fields)])).

(** [await pipeline.process_document(...)] on the pipeline the task has
    just built; the pipeline object is dropped afterwards. *)
Definition run_pipeline (pipeline : pipeline)
  (file_path file_type content_id : string) : T dict :=
  fun s =>
    let '(r, w') :=
      process_document ext create_index convert [] file_path file_type
        content_id (fst s, pipeline) in
    (r, (fst w', snd s)).

(** The body of [process_content_background] after [ObjectId]. *)
Definition process_content_background_body
  (content_oid content_id file_path : string) : T unit :=
  exec update content_oid [("status", JStr "processing")] then
  exec in_process (extern build_clients) then
  let pipeline := Pipeline.new in
  let file_ext := suffix_lower file_path in
  let file_type :=
    map_get file_ext "application/octet-stream" mime_type_map in
  let* result := run_pipeline pipeline file_path file_type content_id in
  update content_oid
    [("status", JStr "completed");
     ("chunks_count", default (JInt 0) (dict_get "chunks_count" result));
     ("embeddings_count",
      default (JInt 0) (dict_get "embeddings_count" result))].

(** [process_content_background]: the handler names [content_oid], which
    has no value when [ObjectId] raised. *)
Definition process_content_background (content_id file_path user_id : string)
  : T unit :=
  fun s =>
    match ObjectId content_id with
    | Raise _ => (Raise (OtherError "UnboundLocalError"), s)
    | Ok content_oid =>
        match process_content_background_body content_oid content_id
                file_path s with
        | (Ok u, s') => (Ok u, s')
        | (Raise e, s') =>
            update content_oid
              [("status", JStr "failed");
               ("error_message", JStr (exn_str e))] s'
        end
    end.

End Background.

End ContentRoutes.

Module RouteSamples.
Import Samples Pipeline PipelineSamples.

Definition any_id : string -> result string := fun s => Ok s.

Definition db_up : string -> dict -> operation nat unit :=
  fun _ _ n => (Ok tt, Datatypes.S n).

Definition clients_ready : operation nat unit := fun n => (Ok tt, n).

Definition markdown_suffix : string -> string := fun _ => ".md".

End RouteSamples.

(** ** Replies with code fences *)

Module FenceSpec.

Definition backtick : ascii := "`"%char.

(** The text has no backtick. *)
Fixpoint no_backtick (s : string) : bool :=
  match s with
  | EmptyString => true
  | String c s' => negb (Ascii.eqb c backtick) && no_backtick s'
  end.

End FenceSpec.

(* ===================================================================== *)
(** * Sanity checks of the primitives *)
(* ===================================================================== *)

Example sha256_abc :
  Sha256.hexdigest (Py.encode "abc")
  = "ba7816bf8f01cfea414140de5dae2223b00361a396177a9cb410ff61f20015ad".
Proof. vm_compute. reflexivity. Qed.

Example sha256_empty :
  Sha256.hexdigest []
  = "e3b0c44298fc1c149afbf4c8996fb92427ae41e4649b934ca495991b7852b855".
Proof. vm_compute. reflexivity. Qed.

Example sha256_two_blocks :
  Sha256.hexdigest
    (Py.encode "abcdbcdecdefdefgefghfghighijhijkijkljklmklmnlmnomnopnopq")
  = "248d6a61d20638b8e5c026930c3e6039a33ce45964ff2167f6ecedd419db06c1".
Proof. vm_compute. reflexivity. Qed.

Example glob_prefix : Redis.glob "chembot:qa:*" "chembot:qa:abc" = true.
Proof. reflexivity. Qed.

Example glob_infix : Redis.glob "a*bc*" "axxbxbcd" = true.
Proof. reflexivity. Qed.

Example glob_class : Redis.glob "h[a-c^]llo" "hbllo" = true.
Proof. reflexivity. Qed.

Example glob_neg : Redis.glob "h[^e]llo" "hello" = false.
Proof. reflexivity. Qed.

(* ===================================================================== *)
(** * The answer cache *)
(* ===================================================================== *)

Module CacheFacts.
Import Cache Samples.

(** What [invalidate_content_cache] deletes: the keys matching its glob
    pattern, and nothing else. *)
Lemma invalidate_lookup (content_id k : string) (m : manager)
  (r : Redis.server) :
  enabled m = true -> has_client m = true -> Redis.reachable r = true ->
  Redis.db (snd (invalidate_content_cache content_id (m, r))) !! k
  = if Redis.glob ("chembot:qa:*" ++ content_id ++ "*") k
    then None else Redis.db r !! k.
Proof.
  intros He Hc Hr. unfold invalidate_content_cache, Redis.scan_delete.
  cbn [fst snd]. rewrite He, Hc, Hr. cbn [negb orb snd Redis.db Redis.set_db].
  destruct (Redis.glob _ k) eqn:Hg.
  - apply map_lookup_filter_None_2. right. intros x _ Hx. cbn in Hx.
    congruence.
  - destruct (Redis.db r !! k) as [e|] eqn:Hk.
    + apply map_lookup_filter_Some_2; [exact Hk|]. cbn. congruence.
    + apply map_lookup_filter_None_2. left. exact Hk.
Qed.

(** C1 (evaluation at the failing input): an answer cached for a content
    id is still returned after [invalidate_content_cache] of that content
    id.  The key is the prefix followed by a SHA-256 digest, so the
    pattern [chembot:qa:*<content_id>*] does not match it. *)
Theorem C1_invalidate_leaves_entry :
  let q := "What is X?" in
  let w1 := cache_answer q sample_content_id sample_answer engine_kwargs
              fresh_cache in
  let w2 := invalidate_content_cache sample_content_id w1 in
  _generate_cache_key q sample_content_id engine_kwargs
  = "chembot:qa:f89153670810bb04e323c687ed2b2d1a79d7593771c9c9dea7c0ceb7052b04af"
  /\ Redis.glob ("chembot:qa:*" ++ sample_content_id ++ "*")
       (_generate_cache_key q sample_content_id engine_kwargs) = false
  /\ fst (get_cached_answer q sample_content_id engine_kwargs w2)
     = Some (dict_set "cache_key"
               (JStr (_generate_cache_key q sample_content_id engine_kwargs))
               (dict_set "cached" (JBool true) sample_answer)).
Proof.
  intros q w1 w2.
  assert (Hkey : _generate_cache_key q sample_content_id engine_kwargs
    = "chembot:qa:f89153670810bb04e323c687ed2b2d1a79d7593771c9c9dea7c0ceb7052b04af")
    by (vm_compute; reflexivity).
  assert (Hglob : Redis.glob ("chembot:qa:*" ++ sample_content_id ++ "*")
       (_generate_cache_key q sample_content_id engine_kwargs) = false)
    by (rewrite Hkey; vm_compute; reflexivity).
  split; [exact Hkey|]. split; [exact Hglob|].
  subst w2 w1. unfold get_cached_answer.
  set (kk := _generate_cache_key q sample_content_id engine_kwargs) in *.
  set (cached := cache_answer q sample_content_id sample_answer
                   engine_kwargs fresh_cache).
  assert (Hc : cached
    = (Manager true true true REDIS_CACHE_TTL,
       Redis.Server true
         (<[kk := Redis.Entry REDIS_CACHE_TTL
                    (dict_set "cache_key" (JStr kk)
                       (dict_set "cached" (JBool true) sample_answer))]> ∅)))
    by reflexivity.
  rewrite Hc. clear Hc cached.
  set (w := invalidate_content_cache _ _).
  assert (Hm : fst w = Manager true true true REDIS_CACHE_TTL) by reflexivity.
  assert (Hr : Redis.reachable (snd w) = true) by reflexivity.
  pose proof (invalidate_lookup sample_content_id kk
                (Manager true true true REDIS_CACHE_TTL)
                (Redis.Server true
                   (<[kk := Redis.Entry REDIS_CACHE_TTL
                      (dict_set "cache_key" (JStr kk)
                         (dict_set "cached" (JBool true) sample_answer))]> ∅))
                eq_refl eq_refl eq_refl) as Hl.
  fold w in Hl. rewrite Hglob in Hl. cbn [Redis.db] in Hl.
  rewrite lookup_insert_eq in Hl.
  rewrite Hm. cbn [enabled has_client negb orb].
  unfold _ensure_initialized. destruct w as [mw rw]. cbn [fst snd] in *.
  subst mw. cbn [enabled _initialized negb orb fst snd].
  unfold Redis.get. rewrite Hr, Hl. reflexivity.
Qed.

End CacheFacts.

(* ===================================================================== *)
(** * The cache key *)
(* ===================================================================== *)

Module KeyFacts.
Import Cache Samples KeySpec.

(** ** Strings *)

Lemma append_cons (c : ascii) (a b : string) :
  (String c a ++ b)%string = String c (a ++ b)%string.
Proof. reflexivity. Qed.

Lemma append_nil_l (b : string) : (EmptyString ++ b)%string = b.
Proof. reflexivity. Qed.

Lemma append_nil_r (a : string) : (a ++ EmptyString)%string = a.
Proof.
  induction a as [|c a IH]; [reflexivity|].
  rewrite append_cons, IH. reflexivity.
Qed.

Lemma append_assoc (a b c : string) :
  ((a ++ b) ++ c)%string = (a ++ (b ++ c))%string.
Proof.
  induction a as [|x a IH]; [reflexivity|].
  rewrite !append_cons, IH. reflexivity.
Qed.

Lemma append_length (a b : string) :
  String.length (a ++ b)%string = (String.length a + String.length b)%nat.
Proof.
  induction a as [|x a IH]; [reflexivity|].
  rewrite append_cons. cbn [String.length]. rewrite IH. reflexivity.
Qed.

Lemma append_inv_head (a b c : string) :
  (a ++ b)%string = (a ++ c)%string -> b = c.
Proof.
  induction a as [|x a IH]; [auto|].
  rewrite !append_cons. intros H. injection H as H. auto.
Qed.

Lemma append_inv_tail (a b t : string) :
  (a ++ t)%string = (b ++ t)%string -> a = b.
Proof.
  revert b. induction a as [|x a IH]; intros [|y b] H.
  - reflexivity.
  - apply (f_equal String.length) in H.
    rewrite append_nil_l, append_cons in H. cbn [String.length] in H.
    rewrite append_length in H. lia.
  - apply (f_equal String.length) in H.
    rewrite append_nil_l, append_cons in H. cbn [String.length] in H.
    rewrite append_length in H. lia.
  - rewrite !append_cons in H. injection H as -> H.
    f_equal. auto.
Qed.

(** ** [lower] and [strip] *)

Lemma lower_app (a b : string) :
  Py.lower (a ++ b) = (Py.lower a ++ Py.lower b)%string.
Proof.
  induction a as [|x a IH]; [reflexivity|].
  rewrite append_cons. cbn [Py.lower]. rewrite IH. reflexivity.
Qed.

Lemma lower_char_space (c : ascii) :
  Py.is_space c = true -> Py.lower_char c = c.
Proof.
  destruct c as [[] [] [] [] [] [] [] []]; intros H;
    first [reflexivity | vm_compute in H; discriminate].
Qed.

Lemma lower_blank (s : string) : blank s = true -> Py.lower s = s.
Proof.
  induction s as [|c s IH]; [reflexivity|].
  cbn [blank Py.lower]. intros H. apply andb_prop in H. destruct H as [Hc Hs].
  rewrite lower_char_space, IH; auto.
Qed.

Lemma lstrip_blank_app (l x : string) :
  blank l = true -> Py.lstrip (l ++ x) = Py.lstrip x.
Proof.
  induction l as [|c l IH]; [reflexivity|].
  cbn [blank]. intros H. apply andb_prop in H. destruct H as [Hc Hl].
  rewrite append_cons. cbn [Py.lstrip]. rewrite Hc. auto.
Qed.

Lemma rstrip_blank (r : string) : blank r = true -> Py.rstrip r = EmptyString.
Proof.
  induction r as [|c r IH]; [reflexivity|].
  cbn [blank Py.rstrip]. intros H. apply andb_prop in H.
  destruct H as [Hc Hr]. rewrite IH, Hc; auto.
Qed.

Lemma rstrip_app_blank (x r : string) :
  blank r = true -> Py.rstrip (x ++ r) = Py.rstrip x.
Proof.
  intros Hr. induction x as [|c x IH].
  - rewrite append_nil_l. apply rstrip_blank, Hr.
  - rewrite append_cons. cbn [Py.rstrip]. rewrite IH. reflexivity.
Qed.

Lemma strip_app_blank_r (m r : string) :
  blank r = true -> Py.strip (m ++ r) = Py.strip m.
Proof.
  intros Hr. unfold Py.strip. induction m as [|c m IH].
  - rewrite append_nil_l.
    replace (Py.lstrip r) with (Py.lstrip (r ++ EmptyString))
      by (rewrite append_nil_r; reflexivity).
    rewrite lstrip_blank_app by exact Hr. reflexivity.
  - rewrite append_cons. cbn [Py.lstrip].
    destruct (Py.is_space c); [exact IH|].
    rewrite <- append_cons. apply rstrip_app_blank, Hr.
Qed.

(** White space around a text does not survive [strip]. *)
Lemma strip_padding (l m r : string) :
  blank l = true -> blank r = true ->
  Py.strip (l ++ m ++ r) = Py.strip m.
Proof.
  intros Hl Hr. unfold Py.strip. rewrite lstrip_blank_app by exact Hl.
  apply strip_app_blank_r, Hr.
Qed.

(** ** Questions that differ only in case and outer white space *)

Lemma lower_small (u : ascii) :
  Py.is_upper u = true ->
  Py.lower_char (Py.chr (Py.code u + 32)) = Py.chr (Py.code u + 32).
Proof.
  destruct u as [[] [] [] [] [] [] [] []]; intros H;
    first [reflexivity | vm_compute in H; discriminate].
Qed.

Lemma same_letter_lower (a b : ascii) :
  same_letter a b -> Py.lower_char a = Py.lower_char b.
Proof.
  intros [c|u Hu|u Hu].
  - reflexivity.
  - rewrite lower_small by exact Hu. unfold Py.lower_char. rewrite Hu.
    reflexivity.
  - rewrite lower_small by exact Hu. unfold Py.lower_char. rewrite Hu.
    reflexivity.
Qed.

Lemma same_text_lower (s t : string) :
  same_text s t -> Py.lower s = Py.lower t.
Proof.
  induction 1 as [|a b s t Hab Hst IH]; [reflexivity|].
  cbn [Py.lower]. rewrite IH, (same_letter_lower a b Hab). reflexivity.
Qed.

Lemma same_question_normalized (q1 q2 : string) :
  same_question q1 q2 ->
  Py.strip (Py.lower q1) = Py.strip (Py.lower q2).
Proof.
  intros (l1 & m1 & r1 & l2 & m2 & r2 & -> & -> & Hl1 & Hr1 & Hl2 & Hr2 & Hm).
  rewrite !lower_app.
  rewrite (lower_blank l1 Hl1), (lower_blank r1 Hr1),
          (lower_blank l2 Hl2), (lower_blank r2 Hr2).
  rewrite !strip_padding by assumption.
  rewrite (same_text_lower m1 m2 Hm). reflexivity.
Qed.

Lemma same_question_key (q1 q2 content_id : string)
  (kwargs : list (string * scalar)) :
  same_question q1 q2 ->
  _generate_cache_key q1 content_id kwargs
  = _generate_cache_key q2 content_id kwargs.
Proof.
  intros H. unfold _generate_cache_key, cache_string.
  rewrite (same_question_normalized q1 q2 H). reflexivity.
Qed.

(** The example of the specification. *)
Example same_question_example : same_question "What is X?" " what is x? ".
Proof.
  exists EmptyString, "What is X?", EmptyString, " ", "what is x?", " ".
  repeat split; try reflexivity.
  apply same_cons; [apply (capital_small "W"); reflexivity|].
  do 7 (apply same_cons; [apply same_char|]).
  apply same_cons; [apply (capital_small "X"); reflexivity|].
  apply same_cons; [apply same_char|]. apply same_empty.
Qed.

(** ** The hashed string separates name spaces *)

Lemma cache_string_split (question content_id : string)
  (kwargs : list (string * scalar)) :
  exists tail : string,
    forall ns, cache_string question ns kwargs = (ns ++ tail)%string.
Proof.
  unfold cache_string. destruct kwargs as [|kv kwargs].
  - eexists. intros ns. reflexivity.
  - eexists. intros ns. rewrite append_assoc. reflexivity.
Qed.

Lemma cache_string_content_id (question ns1 ns2 : string)
  (kwargs : list (string * scalar)) :
  cache_string question ns1 kwargs = cache_string question ns2 kwargs ->
  ns1 = ns2.
Proof.
  destruct (cache_string_split question ns1 kwargs) as [tail Htail].
  rewrite !Htail. apply append_inv_tail.
Qed.

(** ** [json.dumps] is injective on scalars *)

Lemma unesc_esc (c : ascii) (rest : string) :
  unesc (Json.esc c rest) = Some (c, rest).
Proof.
  destruct c as [[] [] [] [] [] [] [] []]; reflexivity.
Qed.

Lemma esc_not_quote (c : ascii) (rest : string) :
  Json.esc c rest <> String Json.dquote EmptyString.
Proof.
  destruct c as [[] [] [] [] [] [] [] []]; discriminate.
Qed.

Lemma esc_string_inj (s1 s2 : string) :
  Json.esc_string s1 (String Json.dquote EmptyString)
  = Json.esc_string s2 (String Json.dquote EmptyString) ->
  s1 = s2.
Proof.
  revert s2. induction s1 as [|c1 s1 IH]; intros [|c2 s2] H;
    cbn [Json.esc_string] in H.
  - reflexivity.
  - symmetry in H. apply esc_not_quote in H. destruct H.
  - apply esc_not_quote in H. destruct H.
  - apply (f_equal unesc) in H. rewrite !unesc_esc in H.
    injection H as -> H. f_equal. auto.
Qed.

Lemma uint_of_string_not_digit (c : ascii) (s : string) :
  (forall d, NilEmpty.uint_of_string (String c EmptyString) <> Some d) ->
  NilEmpty.uint_of_string (String c s) = None.
Proof.
  intros H. cbn [NilEmpty.uint_of_string] in *.
  destruct (NilEmpty.uint_of_string s) as [d|]; [|reflexivity].
  unfold uint_of_char in *.
  destruct c as [[] [] [] [] [] [] [] []];
    first [reflexivity | exfalso; eapply H; reflexivity].
Qed.

Lemma int_of_string_quote (s : string) :
  NilZero.int_of_string (String Json.dquote s) = None.
Proof.
  unfold NilZero.int_of_string. cbn [Ascii.eqb Json.dquote Bool.eqb].
  unfold NilZero.uint_of_string.
  rewrite uint_of_string_not_digit; [reflexivity|].
  intros d. discriminate.
Qed.

Lemma int_of_str_of_Z (z : Z) :
  NilZero.int_of_string (Py.str_of_Z z) = Some (Z.to_int z).
Proof.
  unfold Py.str_of_Z. apply NilZero.isi.
  - destruct z; cbn; try discriminate.
    intros H. injection H as H. exact (DecimalPos.Unsigned.to_uint_nonnil _ H).
  - destruct z; cbn; try discriminate.
    intros H. injection H as H. exact (DecimalPos.Unsigned.to_uint_nonnil _ H).
Qed.

Lemma dumps_leaf_inj (v v' : scalar) :
  leaf v = true -> leaf v' = true ->
  Json.dumps_scalar v = Json.dumps_scalar v' -> v = v'.
Proof.
  destruct v as [z|s|[]| | | |], v' as [z'|s'|[]| | | |];
    cbn [leaf Json.dumps_scalar];
    intros Hv Hv' H; try discriminate Hv; try discriminate Hv';
    try reflexivity; try discriminate H.
  - apply (f_equal NilZero.int_of_string) in H.
    rewrite !int_of_str_of_Z in H. injection H as H.
    f_equal. apply DecimalZ.to_int_inj, H.
  - apply (f_equal NilZero.int_of_string) in H.
    rewrite int_of_str_of_Z in H. unfold Json.dumps_str in H.
    rewrite int_of_string_quote in H. discriminate.
  - apply (f_equal NilZero.int_of_string) in H.
    rewrite int_of_str_of_Z in H. discriminate.
  - apply (f_equal NilZero.int_of_string) in H.
    rewrite int_of_str_of_Z in H. discriminate.
  - apply (f_equal NilZero.int_of_string) in H.
    rewrite int_of_str_of_Z in H. discriminate.
  - apply (f_equal NilZero.int_of_string) in H.
    rewrite int_of_str_of_Z in H. unfold Json.dumps_str in H.
    rewrite int_of_string_quote in H. discriminate.
  - unfold Json.dumps_str in H. injection H as H.
    f_equal. apply esc_string_inj, H.
  - apply (f_equal NilZero.int_of_string) in H.
    rewrite int_of_str_of_Z in H. discriminate.
  - apply (f_equal NilZero.int_of_string) in H.
    rewrite int_of_str_of_Z in H. discriminate.
  - apply (f_equal NilZero.int_of_string) in H.
    rewrite int_of_str_of_Z in H. discriminate.
Qed.

(** ** Changing the value of one extra parameter *)

Lemma set_param_fst (k : string) (v : scalar) (kv : string * scalar) :
  fst (if String.eqb (fst kv) k then (k, v) else kv) = fst kv.
Proof.
  destruct (String.eqb (fst kv) k) eqn:E; [|reflexivity].
  apply String.eqb_eq in E. symmetry. exact E.
Qed.

Lemma insert_sorted_set_param (k : string) (v : scalar)
  (x : string * scalar) (l : list (string * scalar)) :
  insert_sorted (if String.eqb (fst x) k then (k, v) else x) (set_param k v l)
  = set_param k v (insert_sorted x l).
Proof.
  induction l as [|y l IH]; [reflexivity|].
  cbn [set_param List.map insert_sorted]. unfold key_leb.
  rewrite !set_param_fst.
  destruct (String.leb (fst x) (fst y)); cbn [List.map]; [reflexivity|].
  f_equal. exact IH.
Qed.

Lemma sorted_items_set_param (k : string) (v : scalar)
  (kwargs : list (string * scalar)) :
  sorted_items (set_param k v kwargs) = set_param k v (sorted_items kwargs).
Proof.
  induction kwargs as [|x kwargs IH]; [reflexivity|].
  cbn [set_param List.map sorted_items fold_right].
  fold (set_param k v kwargs). fold (sorted_items (set_param k v kwargs)).
  fold (sorted_items kwargs).
  rewrite IH. apply insert_sorted_set_param.
Qed.

Lemma insert_sorted_perm (x : string * scalar) (l : list (string * scalar)) :
  Permutation (insert_sorted x l) (x :: l).
Proof.
  induction l as [|y l IH]; [reflexivity|].
  cbn [insert_sorted]. destruct (key_leb x y); [reflexivity|].
  rewrite IH. apply perm_swap.
Qed.

Lemma sorted_items_perm (kwargs : list (string * scalar)) :
  Permutation (sorted_items kwargs) kwargs.
Proof.
  induction kwargs as [|x kwargs IH]; [reflexivity|].
  cbn [sorted_items fold_right]. fold (sorted_items kwargs).
  rewrite insert_sorted_perm, IH. reflexivity.
Qed.

Lemma set_param_other (k : string) (v : scalar)
  (l : list (string * scalar)) :
  ~ In k (List.map fst l) -> set_param k v l = l.
Proof.
  induction l as [|y l IH]; [reflexivity|].
  cbn [List.map In set_param]. intros H.
  destruct (String.eqb (fst y) k) eqn:E.
  - apply String.eqb_eq in E. tauto.
  - f_equal. apply IH. tauto.
Qed.

Lemma set_param_split (k : string) (v v' : scalar)
  (l1 l2 : list (string * scalar)) :
  List.NoDup (List.map fst (l1 ++ (k, v) :: l2)%list) ->
  set_param k v' (l1 ++ (k, v) :: l2)%list = (l1 ++ (k, v') :: l2)%list.
Proof.
  intros Hnd. rewrite List.map_app in Hnd. cbn [List.map fst] in Hnd.
  pose proof (List.NoDup_remove_2 _ _ _ Hnd) as Hnot.
  unfold set_param. rewrite List.map_app. cbn [List.map fst].
  rewrite String.eqb_refl.
  fold (set_param k v' l1). fold (set_param k v' l2).
  rewrite !set_param_other; [reflexivity| |];
    intros Hin; apply Hnot, List.in_or_app; auto.
Qed.

Lemma concat_split (sep : string) (A B : list string) :
  exists P R : string,
    forall x, String.concat sep (A ++ x :: B)%list = (P ++ x ++ R)%string.
Proof.
  induction A as [|a A [P [R IH]]].
  - destruct B as [|b B].
    + exists EmptyString, EmptyString. intros x.
      cbn [List.app String.concat]. rewrite append_nil_l, append_nil_r.
      reflexivity.
    + exists EmptyString, (sep ++ String.concat sep (b :: B))%string.
      intros x. reflexivity.
  - exists (a ++ sep ++ P)%string, R. intros x.
    cbn [List.app]. specialize (IH x).
    destruct (A ++ x :: B)%list as [|y ys] eqn:E.
    + destruct A; discriminate.
    + cbn [String.concat]. cbn [String.concat] in IH. rewrite IH.
      rewrite !append_assoc. reflexivity.
Qed.

(** The hashed string as a function of the value of one parameter. *)
Lemma cache_string_param (question content_id k : string) (v0 : scalar)
  (kwargs : list (string * scalar)) :
  List.NoDup (List.map fst kwargs) -> In (k, v0) kwargs ->
  exists Pre Post : string,
    forall v,
      cache_string question content_id (set_param k v kwargs)
      = (Pre ++ Json.dumps_scalar v ++ Post)%string.
Proof.
  intros Hnd Hin.
  assert (Hin' : In (k, v0) (sorted_items kwargs))
    by (eapply Permutation_in; [symmetry; apply sorted_items_perm|exact Hin]).
  assert (Hnd' : List.NoDup (List.map fst (sorted_items kwargs))).
  { eapply Permutation_NoDup; [|exact Hnd].
    apply Permutation_map. symmetry. apply sorted_items_perm. }
  destruct (List.in_split _ _ Hin') as [l1 [l2 Hsplit]].
  destruct (concat_split ", " (List.map Json.dumps_item l1)
              (List.map Json.dumps_item l2)) as [P [R Hc]].
  exists (content_id ++ ":" ++ Py.strip (Py.lower question) ++ ":" ++ "["
          ++ P ++ "[" ++ Json.dumps_str k ++ ", ")%string,
         ("]" ++ R ++ "]")%string.
  intros v. unfold cache_string.
  assert (Hne : set_param k v kwargs <> []).
  { destruct kwargs; [destruct Hin|discriminate]. }
  destruct (set_param k v kwargs) as [|kv rest] eqn:E; [congruence|].
  rewrite <- E. clear E kv rest Hne.
  rewrite sorted_items_set_param.
  rewrite Hsplit in Hnd' |- *. rewrite (set_param_split k v0 v l1 l2 Hnd').
  unfold Json.dumps_items, Py.join. rewrite List.map_app. cbn [List.map].
  rewrite Hc. unfold Json.dumps_item at 1. cbn [fst snd].
  rewrite !append_assoc. reflexivity.
Qed.

(** ** The order in which the extra parameters are passed *)

Lemma ascii_compare_refl (c : ascii) : Ascii.compare c c = Eq.
Proof. unfold Ascii.compare. apply N.compare_refl. Qed.

Lemma leb_trans (a : string) :
  forall b c : string,
    String.leb a b = true -> String.leb b c = true -> String.leb a c = true.
Proof.
  unfold String.leb.
  induction a as [|x a IH]; intros [|y b] [|z c]; cbn [String.compare];
    intros H1 H2; try reflexivity; try discriminate.
  destruct (Ascii.compare x y) eqn:Exy; try discriminate H1;
    destruct (Ascii.compare y z) eqn:Eyz; try discriminate H2.
  - apply Ascii.compare_eq_iff in Exy, Eyz. subst.
    rewrite ascii_compare_refl. exact (IH b c H1 H2).
  - apply Ascii.compare_eq_iff in Exy. subst. rewrite Eyz. reflexivity.
  - apply Ascii.compare_eq_iff in Eyz. subst. rewrite Exy. reflexivity.
  - unfold Ascii.compare in *. rewrite N.compare_lt_iff in Exy, Eyz.
    assert (Hxz : (N_of_ascii x ?= N_of_ascii z)%N = Lt)
      by (apply N.compare_lt_iff; lia).
    rewrite Hxz. reflexivity.
Qed.

Lemma insert_sorted_sorted (x : string * scalar)
  (l : list (string * scalar)) :
  StronglySorted key_le l -> StronglySorted key_le (insert_sorted x l).
Proof.
  induction 1 as [|y l Hl IH Hy]; cbn [insert_sorted].
  - repeat constructor.
  - destruct (key_leb x y) eqn:Exy.
    + constructor; [constructor; assumption|].
      constructor; [exact Exy|].
      rewrite List.Forall_forall in Hy |- *. intros z Hz.
      exact (leb_trans _ _ _ Exy (Hy z Hz)).
    + constructor; [exact IH|].
      rewrite List.Forall_forall in Hy |- *. intros z Hz.
      apply (Permutation_in _ (insert_sorted_perm x l)) in Hz.
      destruct Hz as [<-|Hz]; [|exact (Hy z Hz)].
      unfold key_le, key_leb in *.
      destruct (String.leb_total (fst x) (fst y)) as [H|H]; congruence.
Qed.

Lemma sorted_items_sorted (kwargs : list (string * scalar)) :
  StronglySorted key_le (sorted_items kwargs).
Proof.
  induction kwargs as [|x kwargs IH]; [constructor|].
  cbn [sorted_items fold_right]. fold (sorted_items kwargs).
  apply insert_sorted_sorted, IH.
Qed.

Lemma same_key_same_item (l : list (string * scalar))
  (x y : string * scalar) :
  List.NoDup (List.map fst l) -> In x l -> In y l -> fst x = fst y -> x = y.
Proof.
  induction l as [|z l IH]; cbn [List.map In]; intros Hnd Hx Hy E;
    [contradiction|].
  inversion Hnd as [|? ? Hnot Hnd']; subst.
  destruct Hx as [->|Hx], Hy as [->|Hy].
  - reflexivity.
  - exfalso. apply Hnot. rewrite E. apply List.in_map, Hy.
  - exfalso. apply Hnot. rewrite <- E. apply List.in_map, Hx.
  - exact (IH Hnd' Hx Hy E).
Qed.

(** [sorted(kwargs.items())] does not depend on the order in which the
    parameters were passed. *)
Lemma sorted_items_order (kwargs kwargs' : list (string * scalar)) :
  List.NoDup (List.map fst kwargs) -> Permutation kwargs kwargs' ->
  sorted_items kwargs = sorted_items kwargs'.
Proof.
  intros Hnd Hperm.
  apply (StronglySorted_unique_strong key_le).
  - intros x y Hx Hy Hxy Hyx.
    apply list_elem_of_In in Hx, Hy.
    apply (Permutation_in _ (sorted_items_perm kwargs)) in Hx.
    apply (Permutation_in _ (sorted_items_perm kwargs')) in Hy.
    apply (Permutation_in _ (Permutation_sym Hperm)) in Hy.
    apply (same_key_same_item kwargs x y Hnd Hx Hy).
    apply String.leb_antisym; assumption.
  - apply sorted_items_sorted.
  - apply sorted_items_sorted.
  - rewrite (sorted_items_perm kwargs), (sorted_items_perm kwargs').
    exact Hperm.
Qed.

(** ** The key as a function of what is hashed *)

Lemma sorted_items_nil (kwargs : list (string * scalar)) :
  sorted_items kwargs = [] -> kwargs = [].
Proof.
  intros H. pose proof (sorted_items_perm kwargs) as Hp.
  rewrite H in Hp. apply Permutation_nil in Hp. exact Hp.
Qed.

Lemma key_of_normal_form (q1 q2 ns : string)
  (kw1 kw2 : list (string * scalar)) :
  Py.strip (Py.lower q1) = Py.strip (Py.lower q2) ->
  sorted_items kw1 = sorted_items kw2 ->
  _generate_cache_key q1 ns kw1 = _generate_cache_key q2 ns kw2.
Proof.
  intros Hq Hs. unfold _generate_cache_key, cache_string. rewrite Hq.
  destruct kw1 as [|x kw1], kw2 as [|y kw2].
  - reflexivity.
  - symmetry in Hs. apply sorted_items_nil in Hs. discriminate Hs.
  - apply sorted_items_nil in Hs. discriminate Hs.
  - rewrite Hs. reflexivity.
Qed.

Lemma key_digest (q1 q2 ns1 ns2 : string)
  (kw1 kw2 : list (string * scalar)) :
  _generate_cache_key q1 ns1 kw1 = _generate_cache_key q2 ns2 kw2
  <-> Sha256.hexdigest (Py.encode (cache_string q1 ns1 kw1))
      = Sha256.hexdigest (Py.encode (cache_string q2 ns2 kw2)).
Proof.
  unfold _generate_cache_key. split.
  - apply append_inv_head.
  - intros ->. reflexivity.
Qed.

(** C6, as stated, fails in its second half: a tuple and the list of
    the same items are different values of an extra parameter, and
    [json.dumps] writes both as the same array, so the two calls hash
    the same string and get the same key. *)
Lemma C6_tuple_and_list_share_a_key :
  STuple [SInt 1; SInt 2] <> SList [SInt 1; SInt 2]
  /\ list_kwargs = set_param "tags" (SList [SInt 1; SInt 2]) tuple_kwargs
  /\ cache_string "What is X?" "doc1" tuple_kwargs
     = ("doc1:what is x?:[[" ++ Json.dumps_str "tags" ++ ", [1, 2]]]")%string
  /\ cache_string "What is X?" "doc1" list_kwargs
     = ("doc1:what is x?:[[" ++ Json.dumps_str "tags" ++ ", [1, 2]]]")%string
  /\ _generate_cache_key "What is X?" "doc1" tuple_kwargs
     = "chembot:qa:d285612ae35b076eb58a9adde4fa8043567686614c5e0b086b44e9325da2f05b"
  /\ _generate_cache_key "What is X?" "doc1" list_kwargs
     = _generate_cache_key "What is X?" "doc1" tuple_kwargs.
Proof.
  split; [discriminate|]. split; [reflexivity|].
  split; [reflexivity|]. split; [reflexivity|].
  split; vm_compute; reflexivity.
Qed.

(** C6 (amended), for questions of characters below U+0100.  The key is
    a function of the name space, the normalised question and the
    sorted extra parameters.  Questions that differ only in letter case
    and in leading or trailing white space have the same key, and so
    have calls that pass the same extra parameters in another order.
    Changing the name space changes the hashed string.  Changing the
    value of an extra parameter changes the hashed string exactly when
    the JSON text of the value changes: always between integers,
    strings, booleans and [None].  Two keys are equal exactly when the
    SHA-256 digests of the two hashed strings are. *)
Theorem C6_cache_key :
  (forall (q1 q2 ns : string) (kw1 kw2 : list (string * scalar)),
     Py.strip (Py.lower q1) = Py.strip (Py.lower q2) ->
     sorted_items kw1 = sorted_items kw2 ->
     _generate_cache_key q1 ns kw1 = _generate_cache_key q2 ns kw2)
  /\ (forall (q1 q2 ns : string) (kwargs : list (string * scalar)),
        same_question q1 q2 ->
        _generate_cache_key q1 ns kwargs = _generate_cache_key q2 ns kwargs)
  /\ (forall (q ns : string) (kwargs kwargs' : list (string * scalar)),
        List.NoDup (List.map fst kwargs) -> Permutation kwargs kwargs' ->
        _generate_cache_key q ns kwargs = _generate_cache_key q ns kwargs')
  /\ (forall (q ns1 ns2 : string) (kwargs : list (string * scalar)),
        ns1 <> ns2 ->
        cache_string q ns1 kwargs <> cache_string q ns2 kwargs)
  /\ (forall (q ns k : string) (v v' : scalar)
             (kwargs : list (string * scalar)),
        List.NoDup (List.map fst kwargs) -> In (k, v) kwargs ->
        (cache_string q ns kwargs
         = cache_string q ns (set_param k v' kwargs)
         <-> Json.dumps_scalar v = Json.dumps_scalar v'))
  /\ (forall v v' : scalar,
        leaf v = true -> leaf v' = true -> v <> v' ->
        Json.dumps_scalar v <> Json.dumps_scalar v')
  /\ (forall (q1 q2 ns1 ns2 : string) (kw1 kw2 : list (string * scalar)),
        _generate_cache_key q1 ns1 kw1 = _generate_cache_key q2 ns2 kw2
        <-> Sha256.hexdigest (Py.encode (cache_string q1 ns1 kw1))
            = Sha256.hexdigest (Py.encode (cache_string q2 ns2 kw2))).
Proof.
  split; [exact key_of_normal_form|].
  split; [intros; apply same_question_key; assumption|].
  split.
  { intros q ns kwargs kwargs' Hnd Hperm.
    apply key_of_normal_form; [reflexivity|].
    apply sorted_items_order; assumption. }
  split.
  { intros q ns1 ns2 kwargs Hne E. apply Hne.
    exact (cache_string_content_id q ns1 ns2 kwargs E). }
  split.
  { intros q ns k v v' kwargs Hnd Hin.
    destruct (cache_string_param q ns k v kwargs Hnd Hin) as [Pre [Post Hp]].
    assert (Hid : set_param k v kwargs = kwargs).
    { destruct (List.in_split _ _ Hin) as [l1 [l2 ->]].
      apply set_param_split, Hnd. }
    assert (E1 : cache_string q ns kwargs
                 = (Pre ++ Json.dumps_scalar v ++ Post)%string)
      by (rewrite <- Hid at 1; apply Hp).
    rewrite E1, (Hp v'). split.
    - intros E. apply append_inv_head, append_inv_tail in E. exact E.
    - intros ->. reflexivity. }
  split.
  { intros v v' Hv Hv' Hne E. apply Hne.
    exact (dumps_leaf_inj v v' Hv Hv' E). }
  exact key_digest.
Qed.

(** The example of the specification, the two parameters of the engine
    in both orders, and a change of each. *)
Lemma C6_cache_key_witness :
  _generate_cache_key "What is X?" "doc1" []
  = _generate_cache_key " what is x? " "doc1" []
  /\ _generate_cache_key "What is X?" "doc1" engine_kwargs
     = _generate_cache_key "What is X?" "doc1" (List.rev engine_kwargs)
  /\ cache_string "What is X?" "doc1" engine_kwargs
     <> cache_string "What is X?" "doc2" engine_kwargs
  /\ cache_string "What is X?" "doc1" engine_kwargs
     <> cache_string "What is X?" "doc1"
          (set_param "top_k" (SInt 3) engine_kwargs).
Proof.
  destruct C6_cache_key as (_ & Hsame & Horder & Hns & Hval & Hleaf & _).
  assert (Hnd : List.NoDup (List.map fst engine_kwargs)).
  { repeat constructor; cbn; intuition discriminate. }
  assert (Hin : In ("top_k", SInt 5) engine_kwargs) by (left; reflexivity).
  assert (Hne : "doc1" <> "doc2") by discriminate.
  assert (H5 : leaf (SInt 5) = true) by reflexivity.
  assert (H3 : leaf (SInt 3) = true) by reflexivity.
  assert (H53 : SInt 5 <> SInt 3) by discriminate.
  split; [apply Hsame, same_question_example|].
  split; [apply (Horder _ _ _ _ Hnd), Permutation_rev|].
  split; [apply Hns, Hne|].
  intros E. apply (Hval _ _ "top_k" (SInt 5) (SInt 3) _ Hnd Hin) in E.
  exact (Hleaf _ _ H5 H3 H53 E).
Defined.

End KeyFacts.

(* ===================================================================== *)
(** * The retry executor *)
(* ===================================================================== *)

Module RetryFacts.
Import Retry Samples RetrySpec.
Local Open Scope list_scope.

Lemma range_span (n : Z) : range n = span 0 (Z.to_nat n).
Proof. reflexivity. Qed.

Lemma invocations_app (t1 t2 : list event) :
  invocations (t1 ++ t2) = (invocations t1 + invocations t2)%nat.
Proof.
  unfold invocations. rewrite List.filter_app, List.length_app. reflexivity.
Qed.

Lemma sleeps_app (t1 t2 : list event) :
  sleeps (t1 ++ t2) = sleeps t1 ++ sleeps t2.
Proof. unfold sleeps. apply flat_map_app. Qed.

Lemma invocations_failed (l : limiter) (tag : call_tag) (todo : list Z) :
  invocations (flat_map (failed_attempt l tag) todo) = List.length todo.
Proof.
  induction todo as [|a todo IH]; [reflexivity|].
  cbn [flat_map]. rewrite invocations_app, IH. reflexivity.
Qed.

Lemma sleeps_failed (l : limiter) (tag : call_tag) (todo : list Z) :
  sleeps (flat_map (failed_attempt l tag) todo)
  = List.map (backoff_delay l) todo.
Proof.
  induction todo as [|a todo IH]; [reflexivity|].
  cbn [flat_map]. rewrite sleeps_app, IH. reflexivity.
Qed.

Section Loop.
Context {S A : Type}.
Variable tag : call_tag.
Variable func : operation S A.

(** Shape of the trace: when the attempts still to run are
    [a .. a+n-1] and the last of them is attempt number [max_retries],
    the loop adds [k] failed attempts, each followed by its backoff
    sleep, and one final attempt, for some [k < n]. *)
Lemma attempts_loop_trace (n a : nat) (last : option exn) (w : rworld S) :
  (Z.of_nat a + Z.of_nat n = max_retries (lim w))%Z ->
  exists k : nat,
    (k <= n)%nat
    /\ trace (snd (attempts_loop tag func (span a (Datatypes.S n)) last w))
       = trace w ++ flat_map (failed_attempt (lim w) tag) (span a k)
                 ++ last_attempt tag.
Proof.
  revert a last w. induction n as [|n IH]; intros a last w Hmax.
  - exists 0%nat. split; [lia|].
    cbn. destruct (func (ops w)) as [r s'].
    assert (Hlt : (Z.of_nat a <? max_retries (lim w))%Z = false)
      by (apply Z.ltb_ge; lia).
    destruct r as [v|[m|m|m|m]]; cbn; rewrite ?Hlt; cbn; reflexivity.
  - change (span a (Datatypes.S (Datatypes.S n)))
      with (Z.of_nat a :: span (Datatypes.S a) (Datatypes.S n)).
    cbn [attempts_loop].
    destruct (func (ops w)) as [r s'].
    assert (Hlt : (Z.of_nat a <? max_retries (lim w))%Z = true)
      by (apply Z.ltb_lt; lia).
    assert (Hstop :
      trace w ++ last_attempt tag
      = trace w ++ flat_map (failed_attempt (lim w) tag) (span a 0)
                ++ last_attempt tag) by reflexivity.
    assert (Hgo : forall e,
      exists k : nat,
        (k <= Datatypes.S n)%nat
        /\ trace (snd (attempts_loop tag func
                         (span (Datatypes.S a) (Datatypes.S n)) (Some e)
                         (RWorld (lim w) s'
                            ((trace w ++ last_attempt tag)
                             ++ [EvSleep (backoff_delay (lim w)
                                            (Z.of_nat a))]))))
           = trace w ++ flat_map (failed_attempt (lim w) tag) (span a k)
                     ++ last_attempt tag).
    { intros e.
      destruct (IH (Datatypes.S a) (Some e)
                  (RWorld (lim w) s'
                     ((trace w ++ last_attempt tag)
                      ++ [EvSleep (backoff_delay (lim w) (Z.of_nat a))])))
        as [k [Hk Htr]]; [cbn; lia|].
      exists (Datatypes.S k). split; [lia|].
      rewrite Htr. cbn [lim trace].
      change (span a (Datatypes.S k))
        with (Z.of_nat a :: span (Datatypes.S a) k).
      cbn [flat_map]. unfold failed_attempt at 2, last_attempt at 1.
      rewrite <- !List.app_assoc. reflexivity. }
    destruct r as [v|[m|m|m|m]]; cbn [snd trace].
    + exists 0%nat. split; [lia|]. exact Hstop.
    + rewrite Hlt. apply Hgo.
    + rewrite Hlt. cbn [andb].
      destruct (_is_retryable_error (APIError m)).
      * apply Hgo.
      * exists 0%nat. split; [lia|]. exact Hstop.
    + exists 0%nat. split; [lia|]. exact Hstop.
    + exists 0%nat. split; [lia|]. exact Hstop.
Qed.

End Loop.

(** The events one call of the executor adds to the trace: nothing
    when [max_retries] is negative; otherwise [k <= max_retries] failed
    attempts, each with its backoff sleep, and a last attempt. *)
Lemma execute_with_retry_shape {S A : Type} (tag : call_tag)
  (func : operation S A) (w : rworld S) :
  exists added : list event,
    trace (snd (execute_with_retry tag func w)) = trace w ++ added
    /\ (((max_retries (lim w) < 0)%Z /\ added = [])
        \/ ((0 <= max_retries (lim w))%Z
            /\ exists k : nat,
                 (Z.of_nat k <= max_retries (lim w))%Z
                 /\ added
                    = flat_map (failed_attempt (lim w) tag) (span 0 k)
                      ++ last_attempt tag)).
Proof.
  unfold execute_with_retry.
  set (w1 := RWorld (bump_total (lim w)) (ops w) (trace w)).
  change (lim w1) with (bump_total (lim w)).
  change (max_retries (bump_total (lim w))) with (max_retries (lim w)).
  destruct (Z_lt_le_dec (max_retries (lim w)) 0) as [Hneg|Hpos].
  - exists []. split; [|left; auto].
    replace (range (max_retries (lim w) + 1)) with (@nil Z)
      by (unfold range; replace (Z.to_nat (max_retries (lim w) + 1))
            with 0%nat by lia; reflexivity).
    cbn. rewrite List.app_nil_r. reflexivity.
  - rewrite range_span.
    replace (Z.to_nat (max_retries (lim w) + 1))
      with (Datatypes.S (Z.to_nat (max_retries (lim w)))) by lia.
    destruct (attempts_loop_trace tag func
                (Z.to_nat (max_retries (lim w))) 0 None w1)
      as [k [Hk Htr]]; [cbn; lia|].
    exists (flat_map (failed_attempt (lim w) tag) (span 0 k)
            ++ last_attempt tag).
    split; [exact Htr|]. right. split; [exact Hpos|].
    exists k. split; [lia|reflexivity].
Qed.

(** C4, as stated, fails: with [max_retries = 2] an operation that keeps
    hitting the rate limit is invoked three times, not at most two. *)
Lemma C4_three_invocations_with_two_retries :
  ~ (Z.of_nat
       (invocations
          (trace (snd (execute_with_retry CallOther always_rate_limited
                         (RWorld limiter2 0%nat [])))))
     <= max_retries limiter2)%Z.
Proof. vm_compute. intros H. apply H. reflexivity. Qed.

(** C4 (amended): one call of [execute_with_retry] invokes the wrapped
    operation at most [max_retries + 1] times: the first attempt and at
    most [max_retries] retries (no attempt is made when [max_retries] is
    negative).  What it adds to the trace is [k <= max_retries] failed
    attempts, numbered [0 .. k-1], each followed by a sleep of
    [retry_delay * retry_backoff ^ attempt], and one last attempt; so
    the delays slept are exactly the backoff delays of the attempts
    [0 .. k-1], in order. *)
Theorem C4_attempts_and_backoff :
  forall (S A : Type) (tag : call_tag) (func : operation S A)
         (w : rworld S),
    let w' := snd (execute_with_retry tag func w) in
    let added := List.skipn (List.length (trace w)) (trace w') in
    (Z.of_nat (invocations added) <= Z.max 0 (max_retries (lim w) + 1))%Z
    /\ exists k : nat,
         (Z.of_nat k <= Z.max 0 (max_retries (lim w)))%Z
         /\ trace w' = trace w ++ added
         /\ ((max_retries (lim w) < 0)%Z -> added = [])
         /\ ((0 <= max_retries (lim w))%Z ->
             added = flat_map (failed_attempt (lim w) tag)
                              (range (Z.of_nat k))
                     ++ last_attempt tag)
         /\ sleeps added
            = List.map (fun attempt =>
                          (retry_delay (lim w)
                           * retry_backoff (lim w) ^ attempt)%Q)
                       (range (Z.of_nat k)).
Proof.
  intros S A tag func w w' added. subst added w'.
  destruct (execute_with_retry_shape tag func w)
    as [added [Htr [[Hneg ->]|[Hpos [k [Hk ->]]]]]];
    rewrite Htr, drop_app_length.
  - split; [cbn; lia|]. exists 0%nat. cbn.
    split; [lia|]. split; [reflexivity|]. split; [reflexivity|].
    split; [lia|reflexivity].
  - split.
    + rewrite invocations_app, invocations_failed.
      unfold span. rewrite List.length_map, List.length_seq. cbn. lia.
    + exists k. split; [lia|]. split; [reflexivity|].
      split; [lia|]. rewrite range_span, Nat2Z.id.
      split; [reflexivity|].
      rewrite sleeps_app, sleeps_failed. cbn [sleeps flat_map last_attempt].
      rewrite List.app_nil_r. reflexivity.
Qed.

(** C5: with [max_retries = 2], an operation that raises a rate-limit
    error on its first two invocations and returns [v] on the third makes
    [execute_with_retry] return [v]; the operation is invoked exactly
    three times, [retried_requests] and [successful_requests] grow by one
    and [failed_requests] is unchanged, so a fresh limiter ends with
    [retried_requests = 1]. *)
Theorem C5_two_failures_then_success :
  forall (S A : Type) (tag : call_tag) (func : operation S A)
         (w : rworld S) (s1 s2 s3 : S) (m1 m2 : string) (v : A),
    max_retries (lim w) = 2%Z ->
    func (ops w) = (Raise (RateLimitError m1), s1) ->
    func s1 = (Raise (RateLimitError m2), s2) ->
    func s2 = (Ok v, s3) ->
    let out := execute_with_retry tag func w in
    let w' := snd out in
    fst out = Ok v
    /\ ops w' = s3
    /\ invocations (List.skipn (List.length (trace w)) (trace w')) = 3%nat
    /\ retried_requests (lim w') = (retried_requests (lim w) + 1)%Z
    /\ successful_requests (lim w') = (successful_requests (lim w) + 1)%Z
    /\ failed_requests (lim w') = failed_requests (lim w)
    /\ total_requests (lim w') = (total_requests (lim w) + 1)%Z
    /\ (retried_requests (lim w) = 0%Z -> retried_requests (lim w') = 1%Z).
Proof.
  intros S A tag func w s1 s2 s3 m1 m2 v Hmax H1 H2 H3 out w'.
  subst w' out. unfold execute_with_retry.
  cbn [lim ops trace bump_total max_retries]. rewrite Hmax.
  change (range (2 + 1)) with [0%Z; 1%Z; 2%Z].
  repeat first
    [ rewrite Hmax | rewrite H1 | rewrite H2 | rewrite H3
    | progress cbn [attempts_loop ops lim trace max_retries bump_total
                    Z.ltb Z.gtb Z.compare Pos.compare Pos.compare_cont
                    fst snd] ].
  cbn [bump_retried bump_success bump_total retried_requests
       successful_requests failed_requests total_requests].
  repeat split; try reflexivity.
  - rewrite <- !List.app_assoc, drop_app_length. reflexivity.
  - intros ->. reflexivity.
Qed.

(** The test double [fails_twice] under [max_retries = 2]: three
    invocations, one retried request. *)
Lemma C5_fails_twice_witness :
  let out := execute_with_retry CallOther fails_twice
               (RWorld limiter2 0%nat []) in
  fst out = Ok "success_after_retry"
  /\ ops (snd out) = 3%nat
  /\ invocations (trace (snd out)) = 3%nat
  /\ retried_requests (lim (snd out)) = 1%Z
  /\ successful_requests (lim (snd out)) = 1%Z
  /\ failed_requests (lim (snd out)) = 0%Z.
Proof.
  pose proof (C5_two_failures_then_success nat string CallOther fails_twice
                (RWorld limiter2 0%nat []) 1%nat 2%nat 3%nat
                "429 rate limit" "429 rate limit" "success_after_retry"
                eq_refl eq_refl eq_refl eq_refl) as H.
  cbv zeta in H.
  destruct H as (Hv & Hs & Hi & Hr & Hok & Hf & _ & _).
  repeat split; assumption.
Defined.

End RetryFacts.

(* ===================================================================== *)
(** * Chunking *)
(* ===================================================================== *)

Module ChunkingFacts.
Import Chunking Samples ChunkingSpec.
Local Open Scope list_scope.

(** ** Dictionaries *)

Lemma dict_get_set_eq (k : string) (v : jval) (d : dict) :
  dict_get k (dict_set k v d) = Some v.
Proof.
  induction d as [|[k' v'] d IH]; cbn.
  - rewrite String.eqb_refl. reflexivity.
  - destruct (String.eqb k k') eqn:E; cbn; rewrite ?String.eqb_refl, ?E; auto.
Qed.

Lemma dict_get_set_ne (k k' : string) (v : jval) (d : dict) :
  k <> k' -> dict_get k (dict_set k' v d) = dict_get k d.
Proof.
  intros Hne. induction d as [|[k0 v0] d IH]; cbn.
  - apply String.eqb_neq in Hne. rewrite Hne. reflexivity.
  - destruct (String.eqb k' k0) eqn:E; cbn.
    + apply String.eqb_eq in E. subst k0.
      apply String.eqb_neq in Hne. rewrite Hne. reflexivity.
    + rewrite IH. reflexivity.
Qed.

(** ** Index bookkeeping of the heuristic strategy *)

Lemma indexed_from_nil (start : nat) : indexed_from start [].
Proof. reflexivity. Qed.

Lemma indexed_from_snoc (start : nat) (chunks : list Chunk) (c : Chunk) :
  indexed_from start chunks ->
  chunk_index c = Some (JInt (Z.of_nat (start + List.length chunks))) ->
  indexed_from start (chunks ++ [c]).
Proof.
  unfold indexed_from, indices. intros H Hc.
  rewrite List.map_app, H, List.length_app, List.seq_app, List.map_app.
  cbn. rewrite Hc. reflexivity.
Qed.

Lemma indexed_from_app (start : nat) (l1 l2 : list Chunk) :
  indexed_from start l1 ->
  indexed_from (start + List.length l1) l2 ->
  indexed_from start (l1 ++ l2).
Proof.
  unfold indexed_from, indices. intros H1 H2.
  rewrite List.map_app, H1, H2, List.length_app, List.seq_app, List.map_app.
  reflexivity.
Qed.

Lemma chunk_index_sentence_chunk (metadata : option dict) (i : nat)
  (current : list string) :
  chunk_index (sentence_chunk metadata i current) = Some (JInt (Z.of_nat i)).
Proof.
  unfold chunk_index, sentence_chunk, new_chunk. cbn [chunk_metadata or_empty].
  rewrite !dict_get_set_ne by discriminate. apply dict_get_set_eq.
Qed.

Lemma chunk_index_paragraph_chunk (metadata : option dict) (i : nat)
  (current : list string) :
  chunk_index (paragraph_chunk metadata i current)
  = Some (JInt (Z.of_nat i)).
Proof.
  unfold chunk_index, paragraph_chunk, new_chunk.
  cbn [chunk_metadata or_empty].
  rewrite !dict_get_set_ne by discriminate. apply dict_get_set_eq.
Qed.

Section HeuristicIndex.
Variables chunk_size overlap : Z.
Variable metadata : option dict.

Lemma sentence_step_indexed (start : nat) (st : sstate) (sentence : string) :
  indexed_from start (s_chunks st) ->
  indexed_from start
    (s_chunks (sentence_step chunk_size overlap metadata start st sentence)).
Proof.
  intros H. unfold sentence_step.
  destruct ((s_current_words st + wc sentence >? chunk_size)%Z
            && match s_current st with [] => false | _ => true end);
    [|exact H].
  assert (Hi : indexed_from start
                 (s_chunks st
                  ++ [sentence_chunk metadata
                        (start + List.length (s_chunks st)) (s_current st)]))
    by (apply indexed_from_snoc;
        [exact H | apply chunk_index_sentence_chunk]).
  destruct (overlap >? 0)%Z; [|exact Hi].
  destruct (tail_within overlap (List.rev (s_current st)) [] 0).
  exact Hi.
Qed.

Lemma sentence_fold_indexed (start : nat) (sentences : list string)
  (st : sstate) :
  indexed_from start (s_chunks st) ->
  indexed_from start
    (s_chunks (fold_left (sentence_step chunk_size overlap metadata start)
                 sentences st)).
Proof.
  revert st. induction sentences as [|s sentences IH]; intros st H; cbn.
  - exact H.
  - apply IH, sentence_step_indexed, H.
Qed.

Lemma chunk_by_sentences_indexed (text : string) (start : nat) :
  indexed_from start
    (_chunk_by_sentences chunk_size overlap text metadata start).
Proof.
  unfold _chunk_by_sentences.
  set (st := fold_left _ _ _).
  assert (H : indexed_from start (s_chunks st))
    by (apply sentence_fold_indexed, indexed_from_nil).
  destruct (s_current st) as [|s rest]; [exact H|].
  apply indexed_from_snoc; [exact H | apply chunk_index_sentence_chunk].
Qed.

Lemma heuristic_step_indexed (st : hstate) (para : string) :
  indexed_from 0 (h_chunks st) ->
  indexed_from 0
    (h_chunks (heuristic_step chunk_size overlap metadata st para)).
Proof.
  intros H. unfold heuristic_step.
  destruct (h_current_word_count st + wc para >? chunk_size)%Z; [|exact H].
  set (st1 := match h_current_chunk st with [] => st | _ => _ end).
  assert (H1 : indexed_from 0 (h_chunks st1)).
  { subst st1. destruct (h_current_chunk st) as [|p ps]; [exact H|].
    destruct (nonempty _); cbn [h_chunks];
      (apply indexed_from_snoc;
       [exact H | apply chunk_index_paragraph_chunk]). }
  destruct (wc para >? chunk_size)%Z; cbn [h_chunks]; [|exact H1].
  apply indexed_from_app; [exact H1|].
  apply chunk_by_sentences_indexed.
Qed.

Lemma heuristic_fold_indexed (paragraphs : list string) (st : hstate) :
  indexed_from 0 (h_chunks st) ->
  indexed_from 0
    (h_chunks (fold_left (heuristic_step chunk_size overlap metadata)
                 paragraphs st)).
Proof.
  revert st. induction paragraphs as [|p paragraphs IH]; intros st H; cbn.
  - exact H.
  - apply IH, heuristic_step_indexed, H.
Qed.

(** The heuristic strategy numbers its chunks [0, 1, 2, ...] in the
    order it returns them, sentence-split chunks included. *)
Theorem heuristic_chunk_contiguous (text : string) :
  contiguous (heuristic_chunk chunk_size overlap text metadata).
Proof.
  unfold contiguous, heuristic_chunk, heuristic_paragraphs.
  set (st := fold_left _ _ _).
  assert (H : indexed_from 0 (h_chunks st))
    by (apply heuristic_fold_indexed, indexed_from_nil).
  destruct (h_current_chunk st) as [|p ps]; [exact H|].
  apply (indexed_from_snoc 0); [exact H | apply chunk_index_paragraph_chunk].
Qed.

End HeuristicIndex.

(** ** The semantic strategy does not renumber delegated sections *)

(** C2 (evaluation at the failing input): the semantic strategy returns
    three chunks whose indices are 0, 0, 1: the sub-chunks of the
    oversized second section keep the indices the heuristic strategy
    gave them. *)
Theorem C2_semantic_indices_not_contiguous :
  List.map chunk_text (semantic_chunk 4 0 two_sections None)
  = [("# A" ++ nl ++ "x")%string; ("# B" ++ nl ++ "a b")%string; "c d"]
  /\ indices (semantic_chunk 4 0 two_sections None)
     = [Some (JInt 0); Some (JInt 0); Some (JInt 1)]
  /\ ~ contiguous (semantic_chunk 4 0 two_sections None).
Proof.
  split; [vm_compute; reflexivity|].
  split; [vm_compute; reflexivity|].
  unfold contiguous. vm_compute. discriminate.
Qed.

(** The intelligent strategy on two oversized sections: chunks split
    by the provider are numbered [base_index * 10 + i], the fallback to
    the heuristic strategy numbers each chunk from 0 again, and a reply
    without a usable segment gives chunks without any index. *)
Example intelligent_indices :
  indices (fst (intelligent_chunk 4 0 splitting_provider two_long_sections
                  None (0%nat, [])))
  = [Some (JInt 1); Some (JInt 11)]
  /\ indices (fst (intelligent_chunk 4 0 (Mock.ext Mock.all_down)
                     two_long_sections None (0%nat, [])))
     = [Some (JInt 0); Some (JInt 0)]
  /\ indices (fst (intelligent_chunk 4 0 silent_provider two_long_sections
                     None (0%nat, [])))
     = [None; None].
Proof. repeat split; vm_compute; reflexivity. Qed.

(** ** The overlap seed and oversized paragraphs *)

(** C7 (evaluation at the failing input): the overlap tail of the first
    chunk is [a b]; the next chunk is the first sentence chunk of the
    long paragraph and does not start with it.  The seed stays in the
    accumulator and comes out as a chunk of its own at the end. *)
Theorem C7_overlap_tail_not_head_of_next :
  let chunks := heuristic_chunk 3 2 short_then_long None in
  List.map chunk_text chunks = ["a b"; "c d e f."; "g h"; "a b"]
  /\ _get_overlap_text 2 ["a b"] = "a b"
  /\ Py.startswith (_get_overlap_text 2 ["a b"])
       (nth 1 (List.map chunk_text chunks) EmptyString) = false.
Proof.
  cbv zeta. split; [vm_compute; reflexivity|].
  split; vm_compute; reflexivity.
Qed.

(** ** The split of an oversized chunk by the provider *)

(** C8, as stated, fails: a segment of exactly 50 words is dropped. *)
Lemma C8_fifty_word_segment_dropped :
  let result := chunks_of_response fifty_then_sixty "original text" None 0 in
  In (words 50) (Py.split_on split_marker fifty_then_sixty [] 0)
  /\ Py.word_count (Py.strip (words 50)) = 50%nat
  /\ List.map chunk_text result = [words 60]
  /\ ~ In (Py.strip (words 50)) (List.map chunk_text result).
Proof.
  cbv zeta.
  split; [vm_compute; left; reflexivity|].
  split; [vm_compute; reflexivity|].
  assert (H : List.map chunk_text
                (chunks_of_response fifty_then_sixty "original text" None 0)
              = [words 60]) by (vm_compute; reflexivity).
  split; [exact H|].
  rewrite H. intros [E|[]]. vm_compute in E. discriminate.
Qed.

Lemma word_count_empty_string : Py.word_count EmptyString = 0%nat.
Proof. reflexivity. Qed.

Lemma keep_segment_fold (metadata : option dict) (base_index : nat)
  (sections : list string) (start : nat) (acc : list Chunk) :
  List.map chunk_text
    (fold_left (keep_segment metadata base_index)
       (combine (seq start (List.length sections)) sections) acc)
  = List.map chunk_text acc
    ++ List.filter (fun s => (50 <? Py.word_count s)%nat)
         (List.map Py.strip sections).
Proof.
  revert start acc.
  induction sections as [|s sections IH]; intros start acc.
  - cbn. rewrite List.app_nil_r. reflexivity.
  - cbn [List.length seq combine fold_left List.map List.filter].
    rewrite IH. unfold keep_segment.
    destruct (50 <? Py.word_count (Py.strip s))%nat eqn:Hw.
    + assert (Hn : nonempty (Py.strip s) = true).
      { unfold nonempty. destruct (Py.strip s); [|reflexivity].
        rewrite word_count_empty_string in Hw. discriminate. }
      rewrite Hn. cbn [andb]. rewrite List.map_app. cbn [List.map].
      unfold new_chunk at 1. cbn [chunk_text].
      rewrite <- List.app_assoc. reflexivity.
    + rewrite andb_false_r. reflexivity.
Qed.

(** C8 (amended): when the provider answers, the sub-chunks are the
    stripped marker-delimited segments of strictly more than 50 words,
    in order; a segment of 50 words or fewer is not among them.  When
    no segment qualifies the chunk is returned whole. *)
Theorem C8_segments_over_fifty_words :
  forall (X : Type) (ext : externals X) (chunk_size overlap : Z)
         (text : string) (metadata : option dict) (base_index : nat)
         (x x' : X) (tr : list event) (response : completion),
    acompletion ext
      (CompletionRequest LLM_MODEL [("user", split_prompt chunk_size text)]
         0x1.3333333333333p-2%float
         (Z.of_nat (Py.word_count text) + 200) false) x
    = (Ok response, x') ->
    List.map chunk_text
      (fst (_llm_split_chunk chunk_size overlap ext text metadata
              base_index (x, tr)))
    = match kept_segments (content response) with
      | [] => [text]
      | kept => kept
      end.
Proof.
  intros X ext chunk_size overlap text metadata base_index x x' tr response
         Hcall.
  unfold _llm_split_chunk. rewrite Hcall. cbn [fst].
  unfold chunks_of_response, enumerate, kept_segments.
  pose proof (keep_segment_fold metadata base_index
                (Py.split_on split_marker (content response) [] 0) 0 [])
    as Hfold.
  cbn [List.map List.app] in Hfold.
  destruct (fold_left _ _ _) as [|c cs] eqn:Hres.
  - cbn [List.map] in Hfold. rewrite <- Hfold. reflexivity.
  - rewrite <- Hfold. reflexivity.
Qed.

Lemma C8_segments_witness :
  List.map chunk_text
    (fst (_llm_split_chunk 800 150 splitting_provider "original text" None 0
            (0%nat, [])))
  = [words 60].
Proof.
  rewrite (C8_segments_over_fifty_words nat splitting_provider 800 150
             "original text" None 0 0%nat 1%nat []
             (Completion fifty_then_sixty 0) eq_refl).
  vm_compute. reflexivity.
Defined.

End ChunkingFacts.

(* ===================================================================== *)
(** * The classification gate *)
(* ===================================================================== *)

Module ClassifierFacts.
Import Engine GateSpec.

(** The value [should_store_question] computes on a classification
    result is a boolean. *)
Lemma should_store_value (c : ClassificationResult) :
  should_store_question (to_dict c)
  = Ok (JBool (is_question c && is_relevant c
               && PrimFloat.leb 0.6 (confidence c))).
Proof.
  destruct c as [q r t f s]. unfold should_store_question, to_dict.
  cbn [get_or dict_get String.eqb Ascii.eqb Bool.eqb truthy negb
       is_question is_relevant confidence].
  destruct q; cbn [negb andb]; [|reflexivity].
  change (dict_get "is_relevant" _) with (Some (JBool r)).
  cbn [truthy]. destruct r; cbn [negb andb]; [|reflexivity].
  change (dict_get "confidence" _) with (Some (JFloat f)).
  reflexivity.
Qed.

(** C9: [should_store_question] is true exactly when the input is a
    question, is relevant, and its confidence is at least 0.6; it is
    false at confidence 0.59 and true at confidence 0.60. *)
Theorem C9_should_store_question :
  (forall c : ClassificationResult,
     should_store_question (to_dict c) = Ok (JBool true)
     <-> (is_question c = true /\ is_relevant c = true
          /\ PrimFloat.leb 0.6 (confidence c) = true))
  /\ (forall c : ClassificationResult,
        exists b : bool, should_store_question (to_dict c) = Ok (JBool b))
  /\ (forall t s,
        should_store_question (to_dict (MkClassification true true t 0.59 s))
        = Ok (JBool false))
  /\ (forall t s,
        should_store_question (to_dict (MkClassification true true t 0.6 s))
        = Ok (JBool true)).
Proof.
  split; [|split; [|split]].
  - intros c. rewrite should_store_value. split.
    + intros H. injection H as H.
      apply andb_prop in H. destruct H as [H Hc].
      apply andb_prop in H. destruct H as [Hq Hr]. auto.
    + intros (Hq & Hr & Hc). rewrite Hq, Hr, Hc. reflexivity.
  - intros c. eexists. apply should_store_value.
  - intros t s. rewrite should_store_value. reflexivity.
  - intros t s. rewrite should_store_value. reflexivity.
Qed.

End ClassifierFacts.

(* ===================================================================== *)
(** * Which provider calls go through the executor *)
(* ===================================================================== *)

Module RoutingFacts.
Import Engine Samples RetrySpec.
Local Open Scope list_scope.

Lemma guarded_from_app_true (tr1 tr2 : list event) (b : bool) :
  guarded_from b tr1 = true ->
  (forall b', guarded_from b' tr2 = true) ->
  guarded_from b (tr1 ++ tr2) = true.
Proof.
  revert b. induction tr1 as [|e tr1 IH]; intros b H1 H2; cbn.
  - apply H2.
  - destruct e; cbn in *; auto.
    apply andb_prop in H1. destruct H1 as [-> H1]. cbn. auto.
Qed.

Lemma guarded_last_attempt (tag : call_tag) (b : bool) :
  guarded_from b (last_attempt tag) = true.
Proof. reflexivity. Qed.

Lemma guarded_failed_attempts (l : Retry.limiter) (tag : call_tag)
  (todo : list Z) (rest : list event) (b : bool) :
  (forall b', guarded_from b' rest = true) ->
  guarded_from b (flat_map (failed_attempt l tag) todo ++ rest)
  = true.
Proof.
  intros Hrest. revert b. induction todo as [|a todo IH]; intros b.
  - apply Hrest.
  - cbn. apply IH.
Qed.

(** Whatever the executor adds to the trace is guarded. *)
Lemma via_executor_guarded {X A : Type} (tag : call_tag)
  (f : operation X A) (w : eworld X) :
  exists added : list event,
    events (snd (via_executor tag f w)) = events w ++ added
    /\ forall b, guarded_from b added = true.
Proof.
  unfold via_executor.
  destruct (RetryFacts.execute_with_retry_shape tag f
              (Retry.RWorld (limiter w) (ext_state w) (events w)))
    as [added [Htr Hshape]].
  destruct (Retry.execute_with_retry _ _ _) as [r rw].
  cbn [snd events Retry.trace] in *.
  exists added. split; [exact Htr|].
  destruct Hshape as [[_ ->]|[_ [k [_ ->]]]]; intros b.
  - reflexivity.
  - apply guarded_failed_attempts. intros b'. reflexivity.
Qed.

Section Routes.
Context {X : Type}.
Variable ext : externals X.
Variable cfg : config.

Lemma generate_embedding_events (text : string) (w : eworld X) :
  events (snd (generate_embedding ext text w))
  = events w ++ [EvInvoke CallEmbedding].
Proof.
  unfold generate_embedding, direct.
  destruct (aembedding ext EMBEDDING_MODEL text (ext_state w)).
  reflexivity.
Qed.

Lemma search_similar_events (query content_id : string) (top_k : Z)
  (w : eworld X) :
  events (snd (search_similar ext query content_id top_k w))
  = events w ++ [EvInvoke CallEmbedding].
Proof.
  unfold search_similar, bind.
  pose proof (generate_embedding_events query w) as H.
  destruct (generate_embedding ext query w) as [[v|e] w1]; cbn [snd] in *.
  - unfold extern. destruct (store_query ext v content_id top_k _).
    cbn. exact H.
  - exact H.
Qed.

Lemma classify_query_events (query user_prompt : string) (w : eworld X) :
  enable_classification cfg = true ->
  classification_user_prompt cfg query = Ok user_prompt ->
  events (snd (classify_query ext cfg query w))
  = events w ++ [EvInvoke CallCompletion].
Proof.
  intros Hen Hfmt. unfold classify_query. rewrite Hen. cbn [negb].
  unfold try_except, bind. rewrite Hfmt. cbn [lift_result ret].
  unfold direct.
  destruct (acompletion ext _ (ext_state w)) as [[resp|e] x'].
  - destruct (json_loads cfg _); reflexivity.
  - destruct e; reflexivity.
Qed.

Lemma llm_split_chunk_events (chunk_size overlap : Z) (text : string)
  (metadata : option dict) (base_index : nat) (x : X) (tr : list event) :
  snd (snd (Chunking._llm_split_chunk chunk_size overlap ext text metadata
              base_index (x, tr)))
  = tr ++ [EvInvoke CallCompletion].
Proof.
  unfold Chunking._llm_split_chunk.
  destruct (acompletion ext _ x) as [[resp|e] x']; reflexivity.
Qed.

Lemma generate_answer_events (question context : string) (w : eworld X) :
  exists added : list event,
    events (snd (_generate_answer ext cfg question context w))
    = events w ++ added
    /\ guarded added = true.
Proof.
  unfold _generate_answer, bind.
  destruct (chatbot_user_prompt cfg context question) as [up|e];
    cbn [lift_result ret raise].
  - destruct (via_executor_guarded CallCompletion
                (acompletion ext (generation_request cfg up false)) w)
      as [added [Hev Hg]].
    exists added. split; [|apply Hg].
    destruct (via_executor _ _ w) as [[resp|e] w1]; exact Hev.
  - exists []. split; [cbn; rewrite List.app_nil_r|]; reflexivity.
Qed.

Lemma answer_question_stream_events (question content_id user_id
  conversation_context : string) (top_k : Z) (w : eworld X) :
  exists added : list event,
    events (snd (answer_question_stream ext cfg question content_id user_id
                   conversation_context top_k w))
    = events w ++ EvInvoke CallEmbedding :: added
    /\ guarded added = true.
Proof.
  unfold answer_question_stream.
  pose proof (search_similar_events question content_id top_k w) as Hs.
  destruct (search_similar ext question content_id top_k w)
    as [[[|m ms]|e] w1]; cbn [snd] in *.
  - exists []. split; [exact Hs|reflexivity].
  - destruct (chatbot_user_prompt cfg _ question) as [up|e].
    + destruct (via_executor_guarded CallStream
                  (acompletion_stream ext (generation_request cfg up true))
                  w1) as [added [Hev Hg]].
      exists added. split; [|apply Hg].
      destruct (via_executor _ _ w1) as [[resp|e] w2]; cbn [snd] in *.
      * destruct (consume resp) as [cs [e|]]; cbn [snd];
          rewrite Hev, Hs, <- List.app_assoc; reflexivity.
      * rewrite Hev, Hs, <- List.app_assoc. reflexivity.
    + exists []. split; [exact Hs|reflexivity].
  - exists []. split; [exact Hs|reflexivity].
Qed.

End Routes.

(** C3, as stated, fails: the classifier invokes the provider outside
    the executor. *)
Lemma C3_classifier_bypasses_executor :
  let w := snd (classify_query (Mock.ext Mock.all_down) (Mock.cfg true)
                  "What is X?" fresh_world) in
  events w = [EvInvoke CallCompletion] /\ guarded (events w) = false.
Proof. split; reflexivity. Qed.

(** C3 (amended): only the two generation calls of the query engine go
    through [execute_with_retry]: what [_generate_answer] adds to the
    trace lies inside the executor, and so does what
    [answer_question_stream] adds after the embedding of the query.
    The classification call, the split call of the intelligent chunker
    and every embedding call invoke the provider directly. *)
Theorem C3_routes_through_executor :
  forall (X : Type) (ext : externals X) (cfg : config),
    (forall question context (w : eworld X),
       exists added,
         events (snd (_generate_answer ext cfg question context w))
         = events w ++ added
         /\ guarded added = true)
    /\ (forall question content_id user_id conversation_context top_k
               (w : eworld X),
          exists added,
            events (snd (answer_question_stream ext cfg question content_id
                           user_id conversation_context top_k w))
            = events w ++ EvInvoke CallEmbedding :: added
            /\ guarded added = true)
    /\ (forall query user_prompt (w : eworld X),
          enable_classification cfg = true ->
          classification_user_prompt cfg query = Ok user_prompt ->
          events (snd (classify_query ext cfg query w))
          = events w ++ [EvInvoke CallCompletion])
    /\ (forall text (w : eworld X),
          events (snd (generate_embedding ext text w))
          = events w ++ [EvInvoke CallEmbedding])
    /\ (forall chunk_size overlap text metadata base_index (x : X) tr,
          snd (snd (Chunking._llm_split_chunk chunk_size overlap ext text
                      metadata base_index (x, tr)))
          = tr ++ [EvInvoke CallCompletion]).
Proof.
  intros X ext cfg.
  split; [intros; apply generate_answer_events|].
  split; [intros; apply answer_question_stream_events|].
  split; [intros; eapply classify_query_events; eassumption|].
  split; [intros; apply generate_embedding_events|].
  intros; apply llm_split_chunk_events.
Qed.

(** The classifier and the embedding of a query on the test doubles:
    each adds one bare invocation to the trace. *)
Lemma C3_routes_witness :
  events (snd (classify_query (Mock.ext Mock.all_down) (Mock.cfg true)
                 "What is X?" fresh_world))
  = events fresh_world ++ [EvInvoke CallCompletion]
  /\ events (snd (generate_embedding (Mock.ext Mock.all_down) "What is X?"
                    fresh_world))
     = events fresh_world ++ [EvInvoke CallEmbedding].
Proof.
  destruct (C3_routes_through_executor nat (Mock.ext Mock.all_down)
              (Mock.cfg true)) as (_ & _ & Hcls & Hemb & _).
  split.
  - apply (Hcls "What is X?" "Query: What is X?" fresh_world);
      reflexivity.
  - apply Hemb.
Defined.

End RoutingFacts.

(* ===================================================================== *)
(** * A failed stream is cached and recorded *)
(* ===================================================================== *)

Module StreamFacts.
Import Engine Samples StreamSpec.
Local Open Scope list_scope.

(** ** The cache round trip *)

Lemma cache_then_get (question content_id : string) (answer_data : dict)
  (kwargs : list (string * scalar)) (c : Cache.world) :
  Cache.enabled (fst c) = true ->
  Cache.has_client (fst c) = true ->
  Redis.reachable (snd c) = true ->
  fst (Cache.get_cached_answer question content_id kwargs
         (Cache.cache_answer question content_id answer_data kwargs c))
  = Some (dict_set "cache_key"
            (JStr (Cache._generate_cache_key question content_id kwargs))
            (dict_set "cached" (JBool true) answer_data)).
Proof.
  destruct c as [m r]. cbn [fst snd]. intros He Hc Hr.
  unfold Cache.cache_answer. cbn [fst snd]. rewrite He, Hc. cbn [negb orb].
  unfold Cache._ensure_initialized. rewrite He. cbn [negb orb].
  assert (Hget : forall m' : Cache.manager,
    Cache.enabled m' = true -> Cache.has_client m' = true ->
    Cache._initialized m' = true ->
    fst (Cache.get_cached_answer question content_id kwargs
           (m', Redis.set_db r
                  (<[Cache._generate_cache_key question content_id kwargs :=
                       Redis.Entry (Cache.ttl m')
                         (dict_set "cache_key"
                            (JStr (Cache._generate_cache_key question
                                     content_id kwargs))
                            (dict_set "cached" (JBool true) answer_data))]>
                     (Redis.db r))))
    = Some (dict_set "cache_key"
              (JStr (Cache._generate_cache_key question content_id kwargs))
              (dict_set "cached" (JBool true) answer_data))).
  { intros m' He' Hc' Hi'. unfold Cache.get_cached_answer.
    cbn [fst snd]. rewrite He', Hc'. cbn [negb orb].
    unfold Cache._ensure_initialized. rewrite He', Hi'.
    cbn [negb orb fst snd]. rewrite He'. cbn [negb].
    unfold Redis.get, Redis.set_db. cbn [Redis.reachable Redis.db].
    rewrite Hr, lookup_insert_eq. reflexivity. }
  destruct (Cache._initialized m) eqn:Hi.
  - cbn [fst snd]. rewrite He. cbn [negb].
    unfold Redis.setex. rewrite Hr. apply Hget; assumption.
  - unfold Redis.ping. rewrite Hr. cbn [fst snd Cache.enabled negb].
    unfold Redis.setex. rewrite Hr. cbn [Cache.ttl].
    apply (Hget (Cache.Manager true (Cache.has_client m) true (Cache.ttl m)));
      auto.
Qed.

(** ** What the helpers leave alone *)

Section Frames.
Context {X : Type}.
Variable ext : externals X.
Variable cfg : config.

Lemma direct_frame {A : Type} (tag : call_tag) (f : operation X A)
  (w : eworld X) : rest_of (snd (direct tag f w)) = rest_of w.
Proof. unfold direct. destruct (f (ext_state w)). reflexivity. Qed.

Lemma extern_frame {A : Type} (f : operation X A) (w : eworld X) :
  rest_of (snd (extern f w)) = rest_of w.
Proof. unfold extern. destruct (f (ext_state w)). reflexivity. Qed.

Lemma via_executor_frame {A : Type} (tag : call_tag) (f : operation X A)
  (w : eworld X) : rest_of (snd (via_executor tag f w)) = rest_of w.
Proof.
  unfold via_executor. destruct (Retry.execute_with_retry _ _ _).
  reflexivity.
Qed.

Lemma search_similar_frame (query content_id : string) (top_k : Z)
  (w : eworld X) :
  rest_of (snd (search_similar ext query content_id top_k w)) = rest_of w.
Proof.
  unfold search_similar, bind, generate_embedding.
  pose proof (direct_frame CallEmbedding
                (aembedding ext EMBEDDING_MODEL query) w) as H.
  destruct (direct _ _ w) as [[v|e] w1]; cbn [snd] in *; [|exact H].
  rewrite extern_frame. exact H.
Qed.

Lemma classify_query_frame (query : string) (w : eworld X) :
  rest_of (snd (classify_query ext cfg query w)) = rest_of w.
Proof.
  unfold classify_query.
  destruct (enable_classification cfg); cbn [negb]; [|reflexivity].
  unfold try_except, bind.
  destruct (classification_user_prompt cfg query) as [up|e];
    cbn [lift_result ret raise].
  - match goal with
    | |- context [direct ?t ?f w] =>
        pose proof (direct_frame t f w) as H;
        destruct (direct t f w) as [[resp|e] w1]
    end; cbn [snd] in *.
    + destruct (json_loads cfg _); exact H.
    + destruct e; exact H.
  - destruct e; reflexivity.
Qed.

Lemma _classify_query_frame (question : string) (w : eworld X) :
  rest_of (snd (_classify_query ext cfg question w)) = rest_of w.
Proof.
  unfold _classify_query.
  destruct (enable_classification cfg); cbn [negb]; [|reflexivity].
  apply classify_query_frame.
Qed.

Lemma answer_question_stream_frame (question content_id user_id
  conversation_context : string) (top_k : Z) (w : eworld X) :
  rest_of (snd (answer_question_stream ext cfg question content_id user_id
                  conversation_context top_k w))
  = rest_of w.
Proof.
  unfold answer_question_stream.
  pose proof (search_similar_frame question content_id top_k w) as Hs.
  destruct (search_similar ext question content_id top_k w)
    as [[[|m ms]|e] w1]; cbn [snd] in *; try exact Hs.
  destruct (chatbot_user_prompt cfg _ question) as [up|e]; [|exact Hs].
  match goal with
  | |- context [via_executor ?t ?f w1] =>
      pose proof (via_executor_frame t f w1) as Hv;
      destruct (via_executor t f w1) as [[resp|e] w2]
  end; cbn [snd] in *.
  - destruct (consume resp) as [cs [e|]]; cbn [snd]; congruence.
  - congruence.
Qed.

End Frames.

(** ** The streaming path of the chatbot engine *)

Lemma bind_ok {X A B : Type} (c : M A) (k : A -> M B) (w w' : eworld X)
  (a : A) : c w = (Ok a, w') -> bind c k w = k a w'.
Proof. intros H. unfold bind. rewrite H. reflexivity. Qed.

Lemma for_each_yield {X : Type} (chunks : list string) (w : eworld X) :
  for_each chunks yield w
  = (Ok tt, EWorld (ext_state w) (limiter w) (events w) (cache w) (conv w)
                   (output w ++ chunks)).
Proof.
  revert w. induction chunks as [|c chunks IH]; intros w.
  - cbn. rewrite List.app_nil_r. destruct w; reflexivity.
  - cbn [for_each]. unfold bind at 1. unfold yield at 1. rewrite IH.
    cbn. rewrite <- List.app_assoc. reflexivity.
Qed.

Lemma concat_last_nonempty (pre : list string) (msg : string) :
  Chunking.nonempty msg = true ->
  Chunking.nonempty (String.concat EmptyString (pre ++ [msg])) = true.
Proof.
  intros Hm. induction pre as [|p pre IH]; [exact Hm|].
  cbn [List.app String.concat].
  destruct (pre ++ [msg]) as [|y ys] eqn:E.
  - destruct pre; discriminate.
  - destruct p as [|a p]; [|reflexivity].
    change (Chunking.nonempty (String.concat EmptyString (y :: ys)) = true).
    exact IH.
Qed.

Section Stream.
Context {X : Type}.
Variable ext : externals X.
Variable cfg : config.
Variables question content_id user_id : string.

Local Abbreviation stream_failure :=
  (StreamSpec.stream_failure ext cfg question content_id).

Lemma stream_failure_yields (ctx : string) (w w' : eworld X)
  (chunks : list string) :
  stream_failure w chunks w' ->
  answer_question_stream ext cfg question content_id user_id ctx 5 w
  = (chunks, w').
Proof.
  intros H. unfold answer_question_stream.
  destruct H as [w1 Hs|e w1 Hs|m ms up e w1 w2 Hs Hp Hv
                 |m ms up resp e w1 w2 Hs Hp Hv Hf]; rewrite Hs; auto.
  - rewrite Hp, Hv. reflexivity.
  - rewrite Hp, Hv. unfold consume in *. rewrite Hf. reflexivity.
Qed.

(** Every failure ends the yielded chunks with a canned message. *)
Lemma stream_failure_canned (w w' : eworld X) (chunks : list string) :
  stream_failure w chunks w' ->
  exists (pre : list string) (canned : string),
    chunks = pre ++ [canned]
    /\ (canned = no_context_stream_message \/ canned = stream_error_message).
Proof.
  intros H. destruct H.
  - exists [], no_context_stream_message. auto.
  - exists [], stream_error_message. auto.
  - exists [], stream_error_message. auto.
  - exists (fst (consume response)), stream_error_message. auto.
Qed.

(** The generation path of [ask_question_stream], after a cache miss
    and a classification that passes the gate, for whatever the inner
    stream yields. *)
Lemma generation_path (w w2 w3 : eworld X) (c1 : Cache.world)
  (classification vq vr vs : jval) (chunks : list string) :
  Cache.get_cached_answer question content_id (cache_kwargs cfg) (cache w)
  = (None, c1) ->
  _classify_query ext cfg question (set_cache w c1) = (Ok classification, w2) ->
  getitem "is_question" classification = Ok vq -> truthy vq = true ->
  getitem "is_relevant" classification = Ok vr -> truthy vr = true ->
  answer_question_stream ext cfg question content_id user_id
    (Conversation.get_context_string content_id user_id (Some 3%Z) (conv w2))
    5 w2 = (chunks, w3) ->
  Chunking.nonempty (String.concat EmptyString chunks) = true ->
  should_store_question classification = Ok vs ->
  (forall a d x, exists id x',
     create_question ext question a content_id user_id d x = (Ok id, x')) ->
  (forall d x, exists x', create_analytics_event ext d x = (Ok tt, x')) ->
  exists (t rt : Z) (w' : eworld X),
    ask_question_stream ext cfg question content_id user_id true w
    = (Ok tt, w')
    /\ output w' = output w ++ chunks
    /\ conv w'
       = Conversation.add_turn content_id user_id question
           (String.concat EmptyString chunks) t (conv w)
    /\ cache w'
       = Cache.cache_answer question content_id
           [("answer", JStr (String.concat EmptyString chunks));
            ("confidence_score", JFloat 0.8);
            ("response_time_ms", JInt rt);
            ("model_used", JStr (llm_model cfg));
            ("tokens_used", JInt 0);
            ("source_chunks", JList []);
            ("cached", JBool false)]
           (cache_kwargs cfg) c1.
Proof.
  intros Hget Hcls Hq Htq Hr Htr Hans Hne Hstore Hdb Han.
  pose proof (_classify_query_frame ext cfg question (set_cache w c1)) as Fc.
  rewrite Hcls in Fc. cbn [snd] in Fc. unfold rest_of in Fc.
  cbn [set_cache cache conv output] in Fc.
  injection Fc as Fc1 Fc2 Fc3.
  pose proof (answer_question_stream_frame ext cfg question content_id user_id
                (Conversation.get_context_string content_id user_id
                   (Some 3%Z) (conv w2)) 5 w2) as Fa.
  rewrite Hans in Fa. cbn [snd] in Fa. unfold rest_of in Fa.
  injection Fa as Fa1 Fa2 Fa3.
  unfold ask_question_stream, try_except, ask_question_stream_body.
  unfold bind at 1. unfold clock at 1.
  unfold bind at 1. unfold with_cache at 1. rewrite Hget.
  fold (set_cache w c1).
  rewrite (bind_ok _ _ _ _ _ Hcls).
  unfold bind at 1. rewrite Hq. cbn [lift_result ret]. rewrite Htq.
  cbn [negb].
  unfold bind at 1. rewrite Hr. cbn [lift_result ret]. rewrite Htr.
  cbn [negb].
  unfold bind at 1. unfold with_conv at 1. cbn [fst snd].
  unfold bind at 1.
  replace (EWorld (ext_state w2) (limiter w2) (events w2) (cache w2)
                  (conv w2) (output w2)) with w2 by (destruct w2; reflexivity).
  rewrite Hans.
  unfold bind at 1. rewrite for_each_yield.
  unfold bind at 1. unfold clock at 1.
  unfold bind at 1. rewrite Hstore. cbn [lift_result ret].
  rewrite Hne, andb_true_r.
  assert (Hobj : exists d, classification = JObj d).
  { destruct classification; try (cbn in Hq; discriminate). eauto. }
  destruct Hobj as [d ->].
  unfold _track_analytics, _store_question.
  destruct (truthy vs);
    unfold bind, clock, with_cache, with_conv, ret, extern;
    cbn [ext_state limiter events cache conv output lift_result get_or
         fst snd ret].
  - (* the question is stored in the database first *)
    match goal with
    | |- context [create_question ext ?q ?a ?c ?u ?m ?x] =>
        destruct (Hdb a m x) as [id [x' Hid]]; rewrite Hid
    end.
    cbn [ext_state limiter events cache conv output].
    match goal with
    | |- context [create_analytics_event ext ?m ?x] =>
        destruct (Han m x) as [x4 Hx4]; rewrite Hx4
    end.
    eexists (now_ms ext x'), _, _. split; [reflexivity|].
    cbn [output conv cache]. rewrite Fa1, Fa2, Fa3, Fc1, Fc2, Fc3.
    repeat split; reflexivity.
  - match goal with
    | |- context [create_analytics_event ext ?m ?x] =>
        destruct (Han m x) as [x4 Hx4]; rewrite Hx4
    end.
    eexists (now_ms ext (ext_state w3)), _, _. split; [reflexivity|].
    cbn [output conv cache]. rewrite Fa1, Fa2, Fa3, Fc1, Fc2, Fc3.
    repeat split; reflexivity.
Qed.

End Stream.

Lemma string_app_assoc (a b c : string) :
  ((a ++ b) ++ c)%string = (a ++ (b ++ c))%string.
Proof.
  induction a as [|x a IH]; [reflexivity|].
  change (String x ((a ++ b) ++ c)%string = String x (a ++ (b ++ c))%string).
  rewrite IH. reflexivity.
Qed.

Lemma concat_app_last (pre : list string) (msg : string) :
  String.concat EmptyString (pre ++ [msg])
  = (String.concat EmptyString pre ++ msg)%string.
Proof.
  induction pre as [|p pre IH]; [reflexivity|].
  cbn [List.app String.concat].
  destruct pre as [|q pre].
  - reflexivity.
  - change ((q :: pre) ++ [msg]) with (q :: (pre ++ [msg])) in *.
    rewrite IH.
    change (EmptyString ++ ?x)%string with x.
    rewrite string_app_assoc. reflexivity.
Qed.

(** C10 (amended): with [use_cache = true], after a cache miss and a
    classification that passes the gate, when the generation stream
    fails (retrieval finds no chunk or raises, the executor gives up, or
    the stream breaks after some increments), [ask_question_stream]
    yields the increments received so far followed by the canned
    message and completes normally; the accumulated text, that is the
    increments followed by the canned message, is then what the cache
    returns under the question's key and what the conversation window
    gets as the answer of the new turn.  When nothing was received
    before the failure this is the canned message alone.  (The cache
    is enabled and Redis reachable; [should_store_question] returns
    for the classification, which it does not when the confidence is
    no number; the database and the analytics store accept their
    writes.) *)
Theorem C10_failed_stream_cached_and_recorded :
  forall (X : Type) (ext : externals X) (cfg : config)
         (question content_id user_id : string) (w w2 w3 : eworld X)
         (c1 : Cache.world) (classification vq vr vs : jval)
         (chunks : list string),
    Cache.get_cached_answer question content_id (cache_kwargs cfg) (cache w)
    = (None, c1) ->
    Cache.enabled (fst c1) = true ->
    Cache.has_client (fst c1) = true ->
    Redis.reachable (snd c1) = true ->
    _classify_query ext cfg question (set_cache w c1)
    = (Ok classification, w2) ->
    getitem "is_question" classification = Ok vq -> truthy vq = true ->
    getitem "is_relevant" classification = Ok vr -> truthy vr = true ->
    stream_failure ext cfg question content_id w2 chunks w3 ->
    should_store_question classification = Ok vs ->
    (forall a d x, exists id x',
       create_question ext question a content_id user_id d x = (Ok id, x')) ->
    (forall d x, exists x', create_analytics_event ext d x = (Ok tt, x')) ->
    exists (pre : list string) (canned : string) (t : Z) (w' : eworld X)
           (payload : dict),
      chunks = pre ++ [canned]
      /\ (canned = no_context_stream_message
          \/ canned = stream_error_message)
      /\ ask_question_stream ext cfg question content_id user_id true w
         = (Ok tt, w')
      /\ output w' = output w ++ pre ++ [canned]
      /\ fst (Cache.get_cached_answer question content_id (cache_kwargs cfg)
                (cache w')) = Some payload
      /\ dict_get "answer" payload
         = Some (JStr (String.concat EmptyString pre ++ canned)%string)
      /\ conv w'
         = Conversation.add_turn content_id user_id question
             (String.concat EmptyString pre ++ canned)%string t (conv w).
Proof.
  intros X ext cfg question content_id user_id w w2 w3 c1 classification
         vq vr vs chunks Hget He Hc Hreach Hcls Hq Htq Hr Htr Hfail Hstore
         Hdb Han.
  destruct (stream_failure_canned ext cfg question content_id w2 w3 chunks
              Hfail) as [pre [canned [-> Hcanned]]].
  assert (Hne : Chunking.nonempty
                  (String.concat EmptyString (pre ++ [canned])) = true).
  { apply concat_last_nonempty. destruct Hcanned as [-> | ->]; reflexivity. }
  destruct (generation_path ext cfg question content_id user_id w w2 w3 c1
              classification vq vr vs (pre ++ [canned]) Hget Hcls Hq Htq Hr
              Htr
              (stream_failure_yields ext cfg question content_id user_id _
                 w2 w3 _ Hfail)
              Hne Hstore Hdb Han)
    as [t [rt [w' [Hrun [Hout [Hconv Hcache]]]]]].
  rewrite concat_app_last in Hconv, Hcache.
  exists pre, canned, t, w'. eexists.
  split; [reflexivity|]. split; [exact Hcanned|]. split; [exact Hrun|].
  split; [exact Hout|]. split; [|split; [|exact Hconv]].
  - rewrite Hcache. apply cache_then_get; assumption.
  - reflexivity.
Qed.

(** ** A stream that breaks after two increments *)

(** C10, as stated, fails when increments were delivered before the
    failure: what is cached and recorded is not the canned message
    itself but the increments followed by it. *)
Lemma C10_partial_text_is_stored_too :
  fst broken_run = Ok tt
  /\ output (snd broken_run) = ["Par"; "tial "; stream_error_message]
  /\ (exists payload,
        fst (Cache.get_cached_answer sample_question
               sample_content_id (cache_kwargs (Mock.cfg true))
               (cache (snd broken_run))) = Some payload
        /\ dict_get "answer" payload
           = Some (JStr ("Partial " ++ stream_error_message)%string)
        /\ dict_get "answer" payload <> Some (JStr stream_error_message))
  /\ List.map Conversation.answer
       (Conversation.get_history sample_content_id sample_user
          None (conv (snd broken_run)))
     = [("Partial " ++ stream_error_message)%string].
Proof.
  split; [vm_compute; reflexivity|].
  split; [vm_compute; reflexivity|].
  split; [|vm_compute; reflexivity].
  eexists. split; [vm_compute; reflexivity|].
  split; [vm_compute; reflexivity|].
  vm_compute. discriminate.
Qed.

Lemma C10_broken_stream_witness :
  exists (pre : list string) (canned : string) (t : Z) (w' : eworld nat)
         (payload : dict),
    ["Par"; "tial "; stream_error_message] = pre ++ [canned]
    /\ (canned = no_context_stream_message \/ canned = stream_error_message)
    /\ broken_run = (Ok tt, w')
    /\ output w' = output fresh_world ++ pre ++ [canned]
    /\ fst (Cache.get_cached_answer sample_question
              sample_content_id (cache_kwargs (Mock.cfg true))
              (cache w')) = Some payload
    /\ dict_get "answer" payload
       = Some (JStr (String.concat EmptyString pre ++ canned)%string)
    /\ conv w'
       = Conversation.add_turn sample_content_id sample_user
           sample_question (String.concat EmptyString pre ++ canned)%string t
           (conv fresh_world).
Proof.
  apply (C10_failed_stream_cached_and_recorded nat
           (Mock.ext broken_stream) (Mock.cfg true) sample_question
           sample_content_id sample_user fresh_world
           after_gate after_stream after_lookup
           (default_classification 0.5 "Classification parsing failed")
           (JBool true) (JBool true) (JBool false)
           ["Par"; "tial "; stream_error_message]).
  - vm_compute; reflexivity.
  - vm_compute; reflexivity.
  - vm_compute; reflexivity.
  - vm_compute; reflexivity.
  - vm_compute; reflexivity.
  - vm_compute; reflexivity.
  - vm_compute; reflexivity.
  - vm_compute; reflexivity.
  - vm_compute; reflexivity.
  - apply (MidStreamFailure (Mock.ext broken_stream) (Mock.cfg true)
             sample_question sample_content_id after_gate
             one_match [] broken_prompt
             (Stream [Some "Par"; None; Some "tial "]
                     (Some (APIError "connection reset")))
             (APIError "connection reset") after_search after_stream);
      vm_compute; reflexivity.
  - vm_compute; reflexivity.
  - intros a d x. exists "q1", (S x). reflexivity.
  - intros d x. exists (S x). reflexivity.
Defined.

End StreamFacts.

(* ===================================================================== *)
(** * Further properties of the specification *)
(* ===================================================================== *)

Module MoreFacts.
Import Samples WindowSpec.
Local Open Scope list_scope.

(** ** The cache round trip *)

(** With the cache enabled and Redis reachable, an answer that has been
    stored is returned by a lookup with the same question, content id
    and extra parameters: the stored payload with [cached] set to true
    and the key added. *)
Theorem cache_round_trip :
  forall (question content_id : string) (answer_data : dict)
         (kwargs : list (string * scalar)) (c : Cache.world),
    Cache.enabled (fst c) = true ->
    Cache.has_client (fst c) = true ->
    Redis.reachable (snd c) = true ->
    fst (Cache.get_cached_answer question content_id kwargs
           (Cache.cache_answer question content_id answer_data kwargs c))
    = Some (dict_set "cache_key"
              (JStr (Cache._generate_cache_key question content_id kwargs))
              (dict_set "cached" (JBool true) answer_data)).
Proof. intros. apply StreamFacts.cache_then_get; assumption. Qed.

Lemma cache_round_trip_witness :
  fst (Cache.get_cached_answer "What is X?" sample_content_id engine_kwargs
         (Cache.cache_answer "What is X?" sample_content_id sample_answer
            engine_kwargs fresh_cache))
  = Some [("answer", JStr "X is a metal."); ("confidence_score", JFloat 0.8);
          ("cached", JBool true);
          ("cache_key",
           JStr (Cache._generate_cache_key "What is X?" sample_content_id
                   engine_kwargs))].
Proof.
  rewrite (cache_round_trip "What is X?" sample_content_id sample_answer
             engine_kwargs fresh_cache eq_refl eq_refl eq_refl).
  reflexivity.
Defined.

(** ** The conversation window *)

Lemma slice_from_last {A : Type} (n : nat) (l : list A) :
  Conversation.slice_from (- Z.of_nat (Datatypes.S n)) l
  = List.skipn (List.length l - Datatypes.S n) l.
Proof.
  unfold Conversation.slice_from.
  assert (H : (- Z.of_nat (Datatypes.S n) <? 0)%Z = true)
    by (apply Z.ltb_lt; lia).
  rewrite H. f_equal. lia.
Qed.

Lemma add_turn_lookup (content_id user_id q a : string) (t : Z)
  (m : Conversation.manager) :
  Conversation.conversations
    (Conversation.add_turn content_id user_id q a t m)
  !! Conversation._get_conversation_key content_id user_id
  = Some
      (let history :=
         default [] (Conversation.conversations m
                     !! Conversation._get_conversation_key content_id user_id)
         ++ [Conversation.Turn q a t] in
       if (Z.of_nat (List.length history) >? Conversation.max_history m)%Z
       then Conversation.slice_from (- Conversation.max_history m) history
       else history).
Proof.
  unfold Conversation.add_turn. cbn [Conversation.conversations].
  apply lookup_insert_eq.
Qed.

Lemma add_turn_max_history (content_id user_id q a : string) (t : Z)
  (m : Conversation.manager) :
  Conversation.max_history
    (Conversation.add_turn content_id user_id q a t m)
  = Conversation.max_history m.
Proof. reflexivity. Qed.

Lemma add_all_max_history (content_id user_id : string)
  (turns : list Conversation.turn) (m : Conversation.manager) :
  Conversation.max_history (add_all content_id user_id turns m)
  = Conversation.max_history m.
Proof.
  unfold add_all. revert m.
  induction turns as [|x turns IH]; intros m; [reflexivity|].
  cbn [fold_left]. rewrite IH. apply add_turn_max_history.
Qed.

Lemma add_all_snoc (content_id user_id : string)
  (turns : list Conversation.turn) (x : Conversation.turn)
  (m : Conversation.manager) :
  add_all content_id user_id (turns ++ [x]) m
  = Conversation.add_turn content_id user_id (Conversation.question x)
      (Conversation.answer x) (Conversation.timestamp x)
      (add_all content_id user_id turns m).
Proof. unfold add_all. rewrite List.fold_left_app. reflexivity. Qed.

Lemma truncate_step {A : Type} (max_history : nat) (turns : list A)
  (x : A) :
  (1 <= max_history)%nat ->
  let history := window max_history turns ++ [x] in
  (if (Z.of_nat (List.length history) >? Z.of_nat max_history)%Z
   then Conversation.slice_from (- Z.of_nat max_history) history
   else history)
  = window max_history (turns ++ [x]).
Proof.
  intros Hmax history. subst history. unfold window.
  rewrite !List.length_app, List.length_skipn. cbn [List.length].
  destruct (Z.gtb_spec
              (Z.of_nat (List.length turns
                         - (List.length turns - max_history) + 1))
              (Z.of_nat max_history)) as [Hgt|Hle].
  - destruct max_history as [|k]; [lia|].
    rewrite slice_from_last, List.length_app, List.length_skipn.
    cbn [List.length].
    rewrite !List.skipn_app, List.skipn_skipn, List.length_skipn.
    replace (List.length turns - (List.length turns - Datatypes.S k)
             + 1 - Datatypes.S k
             - (List.length turns
                - (List.length turns - Datatypes.S k)))%nat
      with 0%nat by lia.
    replace (List.length turns + 1 - Datatypes.S k
             - List.length turns)%nat with 0%nat by lia.
    cbn [List.skipn]. f_equal. f_equal. lia.
  - rewrite List.skipn_app.
    replace (List.length turns + 1 - max_history
             - List.length turns)%nat with 0%nat by lia.
    cbn [List.skipn]. f_equal. f_equal. lia.
Qed.

Lemma add_all_lookup (content_id user_id : string) (max_history : nat)
  (turns : list Conversation.turn) :
  (1 <= max_history)%nat ->
  Conversation.conversations
    (add_all content_id user_id turns
       (Conversation.Manager (Z.of_nat max_history) ∅))
  !! Conversation._get_conversation_key content_id user_id
  = match turns with
    | [] => None
    | _ => Some (window max_history turns)
    end.
Proof.
  intros Hmax. induction turns as [|x turns IH] using List.rev_ind.
  - cbn. apply lookup_empty.
  - rewrite add_all_snoc, add_turn_lookup, add_all_max_history, IH.
    cbn [Conversation.max_history].
    destruct x as [q a t].
    cbn [Conversation.question Conversation.answer Conversation.timestamp].
    replace (default [] match turns with
                        | [] => None
                        | _ :: _ => Some (window max_history turns)
                        end)
      with (window max_history turns)
      by (destruct turns; reflexivity).
    cbv zeta. rewrite (truncate_step max_history turns _ Hmax).
    destruct turns; reflexivity.
Qed.

(** After any sequence of [add_turn] calls for one key, starting from an
    empty manager with [max_history >= 1], the window holds the last
    [max_history] turns added, in insertion order: exactly
    [min (turns added) max_history] of them. *)
Theorem window_keeps_last_turns :
  forall (content_id user_id : string) (max_history : nat)
         (turns : list Conversation.turn),
    (1 <= max_history)%nat ->
    let m := add_all content_id user_id turns
               (Conversation.Manager (Z.of_nat max_history) ∅) in
    Conversation.get_history content_id user_id None m
    = window max_history turns
    /\ List.length (Conversation.get_history content_id user_id None m)
       = Nat.min (List.length turns) max_history.
Proof.
  intros content_id user_id max_history turns Hmax m.
  assert (Hhist : Conversation.get_history content_id user_id None m
                  = window max_history turns).
  { subst m. unfold Conversation.get_history.
    rewrite add_all_lookup by exact Hmax. destruct turns; reflexivity. }
  split; [exact Hhist|].
  rewrite Hhist. unfold window. rewrite List.length_skipn. lia.
Qed.

Lemma window_witness :
  List.map Conversation.question
    (Conversation.get_history "doc1" "u1" None
       (add_all "doc1" "u1"
          [Conversation.Turn "q1" "a1" 1; Conversation.Turn "q2" "a2" 2;
           Conversation.Turn "q3" "a3" 3]
          (Conversation.Manager (Z.of_nat 2) ∅)))
  = ["q2"; "q3"].
Proof.
  destruct (window_keeps_last_turns "doc1" "u1" 2
              [Conversation.Turn "q1" "a1" 1; Conversation.Turn "q2" "a2" 2;
               Conversation.Turn "q3" "a3" 3]) as [H _].
  - lia.
  - cbv zeta in H. rewrite H. reflexivity.
Defined.

End MoreFacts.
(* ===================================================================== *)
(** * The retry executor on arbitrary operations *)
(* ===================================================================== *)

Module RunFacts.
Import Retry RetrySpec RunSpec Samples RunSamples.
Local Open Scope list_scope.

Lemma span_cons (a n : nat) :
  span a (Datatypes.S n) = Z.of_nat a :: span (Datatypes.S a) n.
Proof. reflexivity. Qed.

Lemma span_snoc (a n : nat) :
  span a (Datatypes.S n) = span a n ++ [Z.of_nat (a + n)].
Proof.
  unfold span. rewrite seq_S, List.map_app. reflexivity.
Qed.

Lemma span_app (a n m : nat) :
  span a (n + m) = span a n ++ span (a + n) m.
Proof. unfold span. rewrite seq_app, List.map_app. reflexivity. Qed.

Lemma after_S {St A : Type} (func : operation St A) (n : nat) (s : St) :
  after func (Datatypes.S n) s = snd (func (after func n s)).
Proof.
  revert s. induction n as [|n IH]; intros s; [reflexivity|].
  change (after func (Datatypes.S (Datatypes.S n)) s)
    with (after func (Datatypes.S n) (snd (func s))).
  rewrite IH. reflexivity.
Qed.

Lemma fails_retryably_tail {St A : Type} (func : operation St A) (k : nat)
  (s : St) :
  fails_retryably func (Datatypes.S k) s ->
  fails_retryably func k (snd (func s)).
Proof.
  intros H i Hi. apply (H (Datatypes.S i)). lia.
Qed.

Section Loop.
Context {St A : Type}.
Variable tag : call_tag.
Variable func : operation St A.

(** While the operation raises errors that are retried and attempts
    remain, the loop sleeps and goes on. *)
Lemma attempts_loop_prefix (k : nat) :
  forall (a : nat) (rest : list Z) (last : option exn) (w : rworld St),
    fails_retryably func k (ops w) ->
    (Z.of_nat a + Z.of_nat k <= max_retries (lim w))%Z ->
    exists last' : option exn,
      attempts_loop tag func (span a k ++ rest) last w
      = attempts_loop tag func rest last'
          (RWorld (lim w) (after func k (ops w))
             (trace w ++ flat_map (failed_attempt (lim w) tag) (span a k))).
Proof.
  induction k as [|k IH]; intros a rest last w Hf Hmax.
  - exists last. cbn. rewrite List.app_nil_r. destruct w; reflexivity.
  - destruct (Hf 0%nat ltac:(lia)) as [e [He Hr]]. cbn [after] in He.
    rewrite span_cons. cbn [List.app attempts_loop].
    destruct (func (ops w)) as [r s'] eqn:Hfun. cbn [fst] in He. subst r.
    assert (Hlt : (Z.of_nat a <? max_retries (lim w))%Z = true)
      by (apply Z.ltb_lt; lia).
    assert (Hs' : s' = snd (func (ops w))) by (rewrite Hfun; reflexivity).
    assert (Hgo : forall e0,
      exists last' : option exn,
        attempts_loop tag func (span (Datatypes.S a) k ++ rest) (Some e0)
          (RWorld (lim w) s'
             ((trace w ++ [EvAcquire; EvInvoke tag; EvRelease])
              ++ [EvSleep (backoff_delay (lim w) (Z.of_nat a))]))
        = attempts_loop tag func rest last'
            (RWorld (lim w) (after func (Datatypes.S k) (ops w))
               (trace w
                ++ flat_map (failed_attempt (lim w) tag)
                     (Z.of_nat a :: span (Datatypes.S a) k)))).
    { intros e0.
      destruct (IH (Datatypes.S a) rest (Some e0)
                  (RWorld (lim w) s'
                     ((trace w ++ [EvAcquire; EvInvoke tag; EvRelease])
                      ++ [EvSleep (backoff_delay (lim w) (Z.of_nat a))])))
        as [last' Hl].
      - cbn [ops]. rewrite Hs'. apply fails_retryably_tail. exact Hf.
      - cbn [lim]. lia.
      - exists last'. rewrite Hl. cbn [lim ops trace after flat_map].
        rewrite Hs'. unfold failed_attempt at 2.
        rewrite <- !List.app_assoc. reflexivity. }
    destruct e as [m|m|m|m]; unfold retryable in Hr; try discriminate.
    + rewrite Hlt. apply Hgo.
    + rewrite Hlt, Hr. apply Hgo.
Qed.

End Loop.


Lemma added_app {St : Type} (w : rworld St) (l : limiter) (s : St)
  (tr : list event) :
  added w (RWorld l s (trace w ++ tr)) = tr.
Proof. unfold added. cbn [trace]. apply drop_app_length. Qed.

Lemma invocations_run (l : limiter) (tag : call_tag) (a k : nat) :
  invocations (flat_map (failed_attempt l tag) (span a k) ++ last_attempt tag)
  = Datatypes.S k.
Proof.
  rewrite RetryFacts.invocations_app, RetryFacts.invocations_failed.
  unfold span. rewrite List.length_map, List.length_seq. cbn. lia.
Qed.

Lemma sleeps_run (l : limiter) (tag : call_tag) (a k : nat) :
  sleeps (flat_map (failed_attempt l tag) (span a k) ++ last_attempt tag)
  = List.map (backoff_delay l) (span a k).
Proof.
  rewrite RetryFacts.sleeps_app, RetryFacts.sleeps_failed.
  cbn. apply List.app_nil_r.
Qed.

Lemma range_split (n : Z) (k : nat) :
  (Z.of_nat k <= n)%Z ->
  range (n + 1)
  = span 0 k ++ Z.of_nat k :: span (Datatypes.S k) (Z.to_nat n - k).
Proof.
  intros Hk. unfold range.
  replace (Z.to_nat (n + 1))
    with (k + Datatypes.S (Z.to_nat n - k))%nat by lia.
  change (List.map Z.of_nat (seq 0 (k + Datatypes.S (Z.to_nat n - k))))
    with (span 0 (k + Datatypes.S (Z.to_nat n - k))).
  rewrite span_app, span_cons. reflexivity.
Qed.

(** The state in which the attempt after [k] retried failures starts. *)
Lemma execute_with_retry_prefix {St A : Type} (tag : call_tag)
  (func : operation St A) (w : rworld St) (k : nat) :
  fails_retryably func k (ops w) ->
  (Z.of_nat k <= max_retries (lim w))%Z ->
  exists last : option exn,
    execute_with_retry tag func w
    = attempts_loop tag func
        (Z.of_nat k :: span (Datatypes.S k) (Z.to_nat (max_retries (lim w)) - k))
        last
        (RWorld (bump_total (lim w)) (after func k (ops w))
           (trace w ++ flat_map (failed_attempt (lim w) tag) (span 0 k))).
Proof.
  intros Hf Hk. unfold execute_with_retry.
  cbn [lim ops trace].
  change (max_retries (bump_total (lim w))) with (max_retries (lim w)).
  rewrite (range_split _ k Hk).
  destruct (attempts_loop_prefix tag func k 0
              (Z.of_nat k
               :: span (Datatypes.S k) (Z.to_nat (max_retries (lim w)) - k))
              None (RWorld (bump_total (lim w)) (ops w) (trace w)))
    as [last Hl]; [exact Hf | cbn; lia |].
  exists last. exact Hl.
Qed.

(** ** Every request is counted once *)

(** One call of [execute_with_retry] adds one to [total_requests] and
    one to exactly one of [successful_requests] (when it returns) and
    [failed_requests] (when it raises); [retried_requests] grows by at
    most one and only when the call returns; the settings of the
    limiter are not touched. *)
Lemma attempts_loop_counts {St A : Type} (tag : call_tag)
  (func : operation St A) (todo : list Z) :
  forall (last : option exn) (w : rworld St),
    let out := attempts_loop tag func todo last w in
    let l := lim w in
    let l' := lim (snd out) in
    total_requests l' = total_requests l
    /\ max_concurrent l' = max_concurrent l
    /\ max_retries l' = max_retries l
    /\ retry_delay l' = retry_delay l
    /\ retry_backoff l' = retry_backoff l
    /\ match fst out with
       | Ok _ =>
           successful_requests l' = (successful_requests l + 1)%Z
           /\ failed_requests l' = failed_requests l
           /\ (retried_requests l <= retried_requests l'
               <= retried_requests l + 1)%Z
       | Raise _ =>
           failed_requests l' = (failed_requests l + 1)%Z
           /\ successful_requests l' = successful_requests l
           /\ retried_requests l' = retried_requests l
       end.
Proof.
  induction todo as [|attempt rest IH]; intros last w; cbv zeta.
  - cbn. repeat split; reflexivity.
  - cbn [attempts_loop]. destruct (func (ops w)) as [r s'].
    destruct r as [v|e].
    + cbn [fst snd lim].
      destruct (attempt >? 0)%Z; cbn; repeat split; lia.
    + assert (Hstop :
        let out : result A * rworld St :=
          (Raise e, RWorld (bump_failed (lim w)) s'
                      (trace w ++ [EvAcquire; EvInvoke tag; EvRelease])) in
        total_requests (lim (snd out)) = total_requests (lim w)
        /\ max_concurrent (lim (snd out)) = max_concurrent (lim w)
        /\ max_retries (lim (snd out)) = max_retries (lim w)
        /\ retry_delay (lim (snd out)) = retry_delay (lim w)
        /\ retry_backoff (lim (snd out)) = retry_backoff (lim w)
        /\ failed_requests (lim (snd out)) = (failed_requests (lim w) + 1)%Z
        /\ successful_requests (lim (snd out)) = successful_requests (lim w)
        /\ retried_requests (lim (snd out)) = retried_requests (lim w))
        by (cbn; repeat split; reflexivity).
      destruct e as [m|m|m|m]; try exact Hstop.
      * destruct (attempt <? max_retries (lim w))%Z; [|exact Hstop].
        apply (IH (Some (RateLimitError m))
                 (RWorld (lim w) s'
                    ((trace w ++ [EvAcquire; EvInvoke tag; EvRelease])
                     ++ [EvSleep (backoff_delay (lim w) attempt)]))).
      * destruct ((attempt <? max_retries (lim w))%Z
                  && _is_retryable_error (APIError m)); [|exact Hstop].
        apply (IH (Some (APIError m))
                 (RWorld (lim w) s'
                    ((trace w ++ [EvAcquire; EvInvoke tag; EvRelease])
                     ++ [EvSleep (backoff_delay (lim w) attempt)]))).
Qed.

(** X5.  For a wrapped operation that returns or raises an exception
    (a cancellation of the task is no [Exception] and is not modelled)
    and back-off delays that are computed exactly (no float overflow),
    one call of [execute_with_retry] counts exactly once, whatever the
    settings are: in [total_requests], and in [successful_requests] if
    it returns or in [failed_requests] if it raises.
    [retried_requests] grows by at most one, and only for a call that
    returns.  The settings stay as they were. *)
Theorem every_request_counted_once :
  forall (St A : Type) (tag : call_tag) (func : operation St A)
         (w : rworld St),
    let out := execute_with_retry tag func w in
    let l := lim w in
    let l' := lim (snd out) in
    total_requests l' = (total_requests l + 1)%Z
    /\ max_concurrent l' = max_concurrent l
    /\ max_retries l' = max_retries l
    /\ retry_delay l' = retry_delay l
    /\ retry_backoff l' = retry_backoff l
    /\ match fst out with
       | Ok _ =>
           successful_requests l' = (successful_requests l + 1)%Z
           /\ failed_requests l' = failed_requests l
           /\ (retried_requests l <= retried_requests l'
               <= retried_requests l + 1)%Z
       | Raise _ =>
           failed_requests l' = (failed_requests l + 1)%Z
           /\ successful_requests l' = successful_requests l
           /\ retried_requests l' = retried_requests l
       end.
Proof.
  intros St A tag func w. cbv zeta. unfold execute_with_retry.
  pose proof (attempts_loop_counts tag func
                (range (max_retries
                          (lim (RWorld (bump_total (lim w)) (ops w) (trace w)))
                        + 1))
                None (RWorld (bump_total (lim w)) (ops w) (trace w))) as H.
  cbv zeta in H. cbn [lim bump_total total_requests max_concurrent
                      max_retries retry_delay retry_backoff
                      successful_requests failed_requests retried_requests]
    in H |- *.
  exact H.
Qed.

(** ** Success after retried failures *)

(** X6.  When the first [k <= max_retries] invocations raise errors that
    are retried and the next one returns [v], the call returns [v]
    after [k + 1] invocations and [k] sleeps of
    [retry_delay * retry_backoff ** i] for [i = 0 .. k-1]; it counts as
    successful, and as retried exactly when [k > 0]. *)
Theorem success_after_retried_failures :
  forall (St A : Type) (tag : call_tag) (func : operation St A)
         (w : rworld St) (k : nat) (v : A) (s' : St),
    (Z.of_nat k <= max_retries (lim w))%Z ->
    fails_retryably func k (ops w) ->
    func (after func k (ops w)) = (Ok v, s') ->
    let out := execute_with_retry tag func w in
    fst out = Ok v
    /\ ops (snd out) = s'
    /\ added w (snd out)
       = flat_map (failed_attempt (lim w) tag) (span 0 k)
         ++ last_attempt tag
    /\ invocations (added w (snd out)) = Datatypes.S k
    /\ sleeps (added w (snd out))
       = List.map (backoff_delay (lim w)) (span 0 k)
    /\ successful_requests (lim (snd out))
       = (successful_requests (lim w) + 1)%Z
    /\ failed_requests (lim (snd out)) = failed_requests (lim w)
    /\ retried_requests (lim (snd out))
       = (retried_requests (lim w) + (if Nat.eqb k 0 then 0 else 1))%Z.
Proof.
  intros St A tag func w k v s' Hk Hf Hok. cbv zeta.
  destruct (execute_with_retry_prefix tag func w k Hf Hk) as [last ->].
  cbn [attempts_loop ops]. rewrite Hok. cbn [fst snd ops lim trace].
  rewrite <- List.app_assoc.
  change [EvAcquire; EvInvoke tag; EvRelease] with (last_attempt tag).
  rewrite added_app, invocations_run, sleeps_run.
  repeat split.
  - destruct (Z.of_nat k >? 0)%Z; reflexivity.
  - destruct (Z.of_nat k >? 0)%Z; reflexivity.
  - destruct k as [|k].
    + change (Z.of_nat 0 >? 0)%Z with false.
      change (Nat.eqb 0 0) with true.
      cbn [bump_success bump_total retried_requests]. lia.
    + replace (Z.of_nat (Datatypes.S k) >? 0)%Z with true
        by (symmetry; apply Z.gtb_lt; lia).
      change (Nat.eqb (Datatypes.S k) 0) with false.
      cbn [bump_retried bump_success bump_total retried_requests].
      reflexivity.
Qed.

Lemma success_after_retried_failures_witness :
  let w := RWorld limiter2 0%nat [] in
  let out := execute_with_retry CallOther fails_twice w in
  fst out = Ok "success_after_retry"
  /\ invocations (added w (snd out)) = 3%nat
  /\ sleeps (added w (snd out)) = [backoff_delay limiter2 0;
                                   backoff_delay limiter2 1]
  /\ retried_requests (lim (snd out)) = 1%Z.
Proof.
  assert (Hf : fails_retryably fails_twice 2 0%nat).
  { intros i Hi. exists (RateLimitError "429 rate limit").
    destruct i as [|[|i]]; [split; reflexivity | split; reflexivity | lia]. }
  destruct (success_after_retried_failures nat string CallOther fails_twice
              (RWorld limiter2 0%nat []) 2 "success_after_retry" 3%nat
              ltac:(vm_compute; discriminate) Hf eq_refl)
    as (H1 & _ & _ & H2 & H3 & _ & _ & H4).
  cbv zeta. split; [exact H1|]. split; [exact H2|]. split; [exact H3|].
  exact H4.
Defined.

(** ** Errors that are not retried *)

(** X7.  An error that is not retried (an API error whose message names
    no transient condition, or any exception that is neither a
    rate-limit nor an API error) is raised again at once, also after
    [k] retried failures: no sleep follows it and no further invocation
    is made, and the request counts as failed. *)
Theorem non_retryable_error_raised_at_once :
  forall (St A : Type) (tag : call_tag) (func : operation St A)
         (w : rworld St) (k : nat) (e : exn) (s' : St),
    (Z.of_nat k <= max_retries (lim w))%Z ->
    fails_retryably func k (ops w) ->
    func (after func k (ops w)) = (Raise e, s') ->
    retryable e = false ->
    let out := execute_with_retry tag func w in
    fst out = Raise e
    /\ ops (snd out) = s'
    /\ added w (snd out)
       = flat_map (failed_attempt (lim w) tag) (span 0 k)
         ++ last_attempt tag
    /\ invocations (added w (snd out)) = Datatypes.S k
    /\ failed_requests (lim (snd out)) = (failed_requests (lim w) + 1)%Z
    /\ successful_requests (lim (snd out)) = successful_requests (lim w)
    /\ retried_requests (lim (snd out)) = retried_requests (lim w).
Proof.
  intros St A tag func w k e s' Hk Hf Hraise Hnr. cbv zeta.
  destruct (execute_with_retry_prefix tag func w k Hf Hk) as [last ->].
  cbn [attempts_loop ops]. rewrite Hraise.
  cbn [lim trace].
  assert (Hend :
    let out : result A * rworld St :=
      (Raise e,
       RWorld (bump_failed (bump_total (lim w))) s'
         ((trace w ++ flat_map (failed_attempt (lim w) tag) (span 0 k))
          ++ [EvAcquire; EvInvoke tag; EvRelease])) in
    fst out = Raise e
    /\ ops (snd out) = s'
    /\ added w (snd out)
       = flat_map (failed_attempt (lim w) tag) (span 0 k)
         ++ last_attempt tag
    /\ invocations (added w (snd out)) = Datatypes.S k
    /\ failed_requests (lim (snd out)) = (failed_requests (lim w) + 1)%Z
    /\ successful_requests (lim (snd out)) = successful_requests (lim w)
    /\ retried_requests (lim (snd out)) = retried_requests (lim w)).
  { cbn [fst snd ops lim]. rewrite <- List.app_assoc.
    change [EvAcquire; EvInvoke tag; EvRelease] with (last_attempt tag).
    rewrite added_app, invocations_run. repeat split; reflexivity. }
  destruct e as [m|m|m|m]; unfold retryable in Hnr; try discriminate.
  - rewrite Hnr, andb_false_r. exact Hend.
  - exact Hend.
  - exact Hend.
Qed.

Lemma non_retryable_error_witness :
  let w := RWorld limiter2 0%nat [] in
  let out := execute_with_retry CallOther bad_request w in
  fst out = Raise (APIError "400 invalid request")
  /\ invocations (added w (snd out)) = 1%nat
  /\ sleeps (added w (snd out)) = []
  /\ failed_requests (lim (snd out)) = 1%Z.
Proof.
  assert (Hf : fails_retryably bad_request 0 0%nat)
    by (intros i Hi; lia).
  destruct (non_retryable_error_raised_at_once nat string CallOther
              bad_request (RWorld limiter2 0%nat []) 0
              (APIError "400 invalid request") 1%nat
              ltac:(vm_compute; discriminate) Hf eq_refl eq_refl)
    as (H1 & _ & H2 & H3 & H4 & _).
  cbv zeta. split; [exact H1|]. split; [exact H3|].
  split; [rewrite H2; reflexivity | exact H4].
Defined.

(** ** Retries exhausted *)

Lemma exhausted_run {St A : Type} (tag : call_tag) (func : operation St A)
  (w : rworld St) :
  (0 <= max_retries (lim w))%Z ->
  fails_retryably func (Datatypes.S (Z.to_nat (max_retries (lim w))))
    (ops w) ->
  let n := Z.to_nat (max_retries (lim w)) in
  execute_with_retry tag func w
  = (fst (func (after func n (ops w))),
     RWorld (bump_failed (bump_total (lim w)))
       (after func (Datatypes.S n) (ops w))
       (trace w ++ flat_map (failed_attempt (lim w) tag) (span 0 n)
        ++ last_attempt tag)).
Proof.
  intros Hpos Hf. cbv zeta.
  set (n := Z.to_nat (max_retries (lim w))) in *.
  assert (Hfn : fails_retryably func n (ops w))
    by (intros i Hi; apply Hf; lia).
  destruct (execute_with_retry_prefix tag func w n Hfn ltac:(lia))
    as [last ->].
  destruct (Hf n ltac:(lia)) as [e [He Hr]].
  rewrite after_S.
  cbn [attempts_loop ops lim trace].
  destruct (func (after func n (ops w))) as [r s'].
  cbn [fst snd] in He |- *. subst r.
  assert (Hlt : (Z.of_nat n <? max_retries (bump_total (lim w)))%Z = false)
    by (apply Z.ltb_ge; cbn [bump_total max_retries]; lia).
  rewrite (List.app_assoc (trace w)).
  destruct e as [m|m|m|m]; unfold retryable in Hr; try discriminate;
    rewrite Hlt; reflexivity.
Qed.

(** X4.  When every invocation raises an error that is retried, the
    call makes [max_retries + 1] invocations, sleeps
    [retry_delay * retry_backoff ** i] after invocation [i] for
    [i = 0 .. max_retries - 1], and raises the error of the last
    invocation; the request counts as failed, and neither as
    successful nor as retried. *)
Theorem retries_exhausted :
  forall (St A : Type) (tag : call_tag) (func : operation St A)
         (w : rworld St),
    (0 <= max_retries (lim w))%Z ->
    fails_retryably func (Datatypes.S (Z.to_nat (max_retries (lim w))))
      (ops w) ->
    let n := Z.to_nat (max_retries (lim w)) in
    let out := execute_with_retry tag func w in
    fst out = fst (func (after func n (ops w)))
    /\ (exists e : exn, fst out = Raise e /\ retryable e = true)
    /\ ops (snd out) = after func (Datatypes.S n) (ops w)
    /\ invocations (added w (snd out)) = Datatypes.S n
    /\ sleeps (added w (snd out))
       = List.map (backoff_delay (lim w)) (span 0 n)
    /\ failed_requests (lim (snd out)) = (failed_requests (lim w) + 1)%Z
    /\ successful_requests (lim (snd out)) = successful_requests (lim w)
    /\ retried_requests (lim (snd out)) = retried_requests (lim w).
Proof.
  intros St A tag func w Hpos Hf. cbv zeta.
  rewrite (exhausted_run tag func w Hpos Hf).
  cbn [fst snd ops lim].
  rewrite added_app, invocations_run, sleeps_run.
  split; [reflexivity|]. split.
  { destruct (Hf (Z.to_nat (max_retries (lim w))) ltac:(lia))
      as [e [He Hr]].
    exists e. split; assumption. }
  repeat split; reflexivity.
Qed.

Lemma retries_exhausted_witness :
  let w := RWorld limiter2 0%nat [] in
  let out := execute_with_retry CallOther always_rate_limited w in
  fst out = Raise (RateLimitError "429 rate limit")
  /\ invocations (added w (snd out)) = 3%nat
  /\ sleeps (added w (snd out)) = [backoff_delay limiter2 0;
                                   backoff_delay limiter2 1]
  /\ failed_requests (lim (snd out)) = 1%Z.
Proof.
  assert (Hf : fails_retryably always_rate_limited 3 0%nat).
  { intros i Hi. exists (RateLimitError "429 rate limit").
    split; reflexivity. }
  destruct (retries_exhausted nat string CallOther always_rate_limited
              (RWorld limiter2 0%nat [])
              ltac:(vm_compute; discriminate) Hf)
    as (H1 & _ & _ & H2 & H3 & H4 & _).
  cbv zeta. split; [exact H1|]. split; [exact H2|]. split; [exact H3|].
  exact H4.
Defined.

(** ** Arguments of the constructor *)

(** X8.  [RateLimiter(max_retries=0)] does not switch retries off: zero
    is falsy, so the limiter takes [settings.LLM_MAX_RETRIES = 3], and
    an operation whose every invocation raises a retried error is
    invoked four times, with three sleeps in between. *)
Theorem zero_max_retries_means_default :
  forall (St A : Type) (tag : call_tag) (func : operation St A)
         (max_concurrent : option Z) (retry_delay retry_backoff : option Q)
         (s : St) (tr : list event),
    fails_retryably func 4 s ->
    let l := new max_concurrent (Some 0%Z) retry_delay retry_backoff in
    let w := RWorld l s tr in
    let out := execute_with_retry tag func w in
    max_retries l = LLM_MAX_RETRIES
    /\ invocations (added w (snd out)) = 4%nat
    /\ sleeps (added w (snd out))
       = [backoff_delay l 0; backoff_delay l 1; backoff_delay l 2].
Proof.
  intros St A tag func mc d b s tr Hf. cbv zeta.
  split; [reflexivity|].
  rewrite (exhausted_run tag func
             (RWorld (new mc (Some 0%Z) d b) s tr));
    [| change (0 <= 3)%Z; lia | exact Hf].
  cbn [snd lim].
  change (Z.to_nat (max_retries (new mc (Some 0%Z) d b))) with 3%nat.
  rewrite added_app, invocations_run, sleeps_run.
  split; reflexivity.
Qed.

Lemma zero_max_retries_witness :
  let l := new (Some 1%Z) (Some 0%Z) (Some (1 # 10)) None in
  let w := RWorld l 0%nat [] in
  let out := execute_with_retry CallOther always_rate_limited w in
  max_retries l = 3%Z
  /\ invocations (added w (snd out)) = 4%nat.
Proof.
  assert (Hf : fails_retryably always_rate_limited 4 0%nat).
  { intros i Hi. exists (RateLimitError "429 rate limit").
    split; reflexivity. }
  destruct (zero_max_retries_means_default nat string CallOther
              always_rate_limited (Some 1%Z) (Some (1 # 10)) None
              0%nat [] Hf) as (H1 & H2 & _).
  cbv zeta. split; [exact H1 | exact H2].
Defined.

(** X9.  With a negative [max_retries] (the constructor keeps it: it is
    truthy) the wrapped operation is never invoked: the loop is empty,
    and the call raises the generic exception and counts as failed. *)
Theorem negative_max_retries_never_invokes :
  forall (St A : Type) (tag : call_tag) (func : operation St A)
         (w : rworld St),
    (max_retries (lim w) < 0)%Z ->
    execute_with_retry tag func w
    = (Raise (OtherError "Request failed after all retries"),
       RWorld (bump_failed (bump_total (lim w))) (ops w) (trace w)).
Proof.
  intros St A tag func w Hneg. unfold execute_with_retry.
  cbn [lim ops trace].
  change (max_retries (bump_total (lim w))) with (max_retries (lim w)).
  unfold range.
  replace (Z.to_nat (max_retries (lim w) + 1)) with 0%nat by lia.
  reflexivity.
Qed.

Lemma negative_max_retries_witness :
  let out := execute_with_retry CallOther fails_twice
               (RWorld limiter_neg 0%nat []) in
  fst out = Raise (OtherError "Request failed after all retries")
  /\ ops (snd out) = 0%nat
  /\ trace (snd out) = []
  /\ failed_requests (lim (snd out)) = 1%Z.
Proof.
  cbv zeta.
  rewrite (negative_max_retries_never_invokes nat string CallOther
             fails_twice (RWorld limiter_neg 0%nat [])
             ltac:(vm_compute; reflexivity)).
  repeat split; reflexivity.
Defined.

End RunFacts.
(* ===================================================================== *)
(** * The answer cache: connection failures, clearing and invalidation *)
(* ===================================================================== *)

Module CacheMoreFacts.
Import Cache GlobSpec Samples.
Local Open Scope list_scope.

(** ** Lookups in a reachable store *)

Lemma get_cached_answer_lookup (question content_id : string)
  (kwargs : list (string * scalar)) (c : world) :
  enabled (fst c) = true -> has_client (fst c) = true ->
  Redis.reachable (snd c) = true ->
  fst (get_cached_answer question content_id kwargs c)
  = option_map Redis.e_payload
      (Redis.db (snd c) !! _generate_cache_key question content_id kwargs).
Proof.
  destruct c as [m r]. cbn [fst snd]. intros He Hc Hr.
  unfold get_cached_answer. cbn [fst snd]. rewrite He, Hc. cbn [negb orb].
  unfold _ensure_initialized. rewrite He. cbn [negb orb].
  destruct (_initialized m).
  - cbn [fst snd]. rewrite He. cbn [negb]. unfold Redis.get. rewrite Hr.
    destruct (Redis.db r !! _); reflexivity.
  - unfold Redis.ping. rewrite Hr. cbn [fst snd enabled negb].
    unfold Redis.get. rewrite Hr.
    destruct (Redis.db r !! _); reflexivity.
Qed.

(** ** Redis not answering *)

(** X10.  When Redis does not answer, a lookup misses and a store
    writes nothing, without raising.  If this happens the first time
    the cache is used, the manager switches itself off for good: from
    then on no lookup hits and nothing is stored, invalidated or
    cleared, also when Redis answers again.  If the connection had been
    established before, the manager is unchanged and the cache works
    again as soon as Redis does. *)
Theorem redis_outage :
  forall (question content_id : string) (kwargs : list (string * scalar))
         (answer_data : dict) (m : manager) (r : Redis.server),
    enabled m = true -> has_client m = true ->
    Redis.reachable r = false ->
    let c1 := snd (get_cached_answer question content_id kwargs (m, r)) in
    fst (get_cached_answer question content_id kwargs (m, r)) = None
    /\ cache_answer question content_id answer_data kwargs (m, r) = c1
    /\ snd c1 = r
    /\ if _initialized m then fst c1 = m
       else
         enabled (fst c1) = false
         /\ forall (r' : Redis.server) (q' cid' : string)
                   (kw' : list (string * scalar)) (a' : dict),
              get_cached_answer q' cid' kw' (fst c1, r')
              = (None, (fst c1, r'))
              /\ cache_answer q' cid' a' kw' (fst c1, r') = (fst c1, r')
              /\ invalidate_content_cache cid' (fst c1, r') = (fst c1, r')
              /\ clear_all_cache (fst c1, r') = (fst c1, r').
Proof.
  intros question content_id kwargs answer_data m r He Hc Hr. cbv zeta.
  unfold get_cached_answer, cache_answer. cbn [fst snd].
  rewrite He, Hc. cbn [negb orb].
  unfold _ensure_initialized. rewrite He. cbn [negb orb].
  destruct (_initialized m) eqn:Hi.
  - cbn [fst snd]. rewrite He. cbn [negb].
    unfold Redis.get, Redis.setex. rewrite Hr. cbn [fst snd].
    repeat split; reflexivity.
  - unfold Redis.ping. rewrite Hr. cbn [fst snd enabled negb].
    repeat split; reflexivity.
Qed.

Lemma redis_outage_witness :
  let r := Redis.Server false ∅ in
  let c1 := snd (get_cached_answer "What is X?" sample_content_id
                   engine_kwargs (new true, r)) in
  fst (get_cached_answer "What is X?" sample_content_id engine_kwargs
         (new true, r)) = None
  /\ enabled (fst c1) = false
  /\ fst (get_cached_answer "What is X?" sample_content_id engine_kwargs
            (cache_answer "What is X?" sample_content_id sample_answer
               engine_kwargs (fst c1, Redis.Server true ∅))) = None.
Proof.
  destruct (redis_outage "What is X?" sample_content_id engine_kwargs
              sample_answer (new true) (Redis.Server false ∅)
              eq_refl eq_refl eq_refl) as (H1 & _ & _ & H2).
  cbv zeta. cbn [new _initialized] in H2. destruct H2 as [H2 H3].
  split; [exact H1|]. split; [exact H2|].
  destruct (H3 (Redis.Server true ∅) "What is X?" sample_content_id
              engine_kwargs sample_answer) as (Hg & Hp & _).
  rewrite Hp, Hg. reflexivity.
Defined.

(** ** Glob patterns made of plain text and stars *)

Lemma tokens_plain_char (c : ascii) (p : string) :
  plain_char c = true ->
  Redis.tokens (String c p) None = Redis.TLit c :: Redis.tokens p None.
Proof.
  destruct c as [[] [] [] [] [] [] [] []]; intros H;
    try discriminate H; reflexivity.
Qed.

Lemma tokens_plain (a rest : string) :
  plain a = true ->
  Redis.tokens (a ++ rest) None = lits a ++ Redis.tokens rest None.
Proof.
  induction a as [|c a IH]; intros H; [reflexivity|].
  cbn [plain] in H. apply andb_prop in H. destruct H as [Hc Ha].
  change ((String c a ++ rest)%string) with (String c (a ++ rest)%string).
  rewrite (tokens_plain_char c _ Hc), (IH Ha). reflexivity.
Qed.

Lemma glob_toks_lits (a : string) (ts : list Redis.tok) (s : string) :
  Redis.glob_toks (lits a ++ ts) s
  = match after_prefix a s with
    | Some rest => Redis.glob_toks ts rest
    | None => false
    end.
Proof.
  revert s. induction a as [|c a IH]; intros s; [reflexivity|].
  change (lits (String c a) ++ ts) with (Redis.TLit c :: (lits a ++ ts)).
  cbn [Redis.glob_toks after_prefix]. destruct s as [|b s]; [reflexivity|].
  cbn [Redis.tok_match]. destruct (Ascii.eqb c b); cbn [andb];
    [apply IH | reflexivity].
Qed.

Lemma glob_toks_star_end (s : string) :
  Redis.glob_toks [Redis.TStar] s = true.
Proof.
  induction s as [|c s IH]; [reflexivity|].
  change (Redis.glob_toks [Redis.TStar] (String c s))
    with (Redis.glob_toks [] (String c s)
          || Redis.glob_toks [Redis.TStar] s).
  rewrite IH. reflexivity.
Qed.

Lemma after_prefix_prefix (a s : string) :
  String.prefix a s
  = match after_prefix a s with Some _ => true | None => false end.
Proof.
  revert s. induction a as [|c a IH]; intros s.
  - destruct s; reflexivity.
  - destruct s as [|b s]; [reflexivity|]. cbn [String.prefix after_prefix].
    destruct (ascii_dec c b) as [->|Hne].
    + rewrite Ascii.eqb_refl. apply IH.
    + apply Ascii.eqb_neq in Hne. rewrite Hne. reflexivity.
Qed.

Lemma glob_toks_star_lits_star (a s : string) :
  Redis.glob_toks (Redis.TStar :: lits a ++ [Redis.TStar]) s
  = Py.contains a s.
Proof.
  induction s as [|c s IH].
  - cbn [Redis.glob_toks Py.contains]. rewrite glob_toks_lits.
    rewrite after_prefix_prefix.
    destruct (after_prefix a EmptyString);
      [rewrite glob_toks_star_end|]; reflexivity.
  - change (Redis.glob_toks (Redis.TStar :: lits a ++ [Redis.TStar])
              (String c s))
      with (Redis.glob_toks (lits a ++ [Redis.TStar]) (String c s)
            || Redis.glob_toks (Redis.TStar :: lits a ++ [Redis.TStar]) s).
    rewrite IH. cbn [Py.contains]. f_equal.
    rewrite glob_toks_lits, after_prefix_prefix.
    destruct (after_prefix a (String c s));
      [rewrite glob_toks_star_end|]; reflexivity.
Qed.

Lemma after_prefix_app (p s : string) :
  after_prefix p (p ++ s) = Some s.
Proof.
  induction p as [|c p IH]; [reflexivity|].
  change (String.append (String c p) s) with (String c (String.append p s)).
  cbn [after_prefix]. rewrite Ascii.eqb_refl. exact IH.
Qed.

(** The pattern of [clear_all_cache] matches the keys that start with
    the prefix of the cache. *)
Lemma glob_all (k : string) :
  Redis.glob "chembot:qa:*" k
  = match after_prefix "chembot:qa:" k with
    | Some _ => true
    | None => false
    end.
Proof.
  unfold Redis.glob.
  change (Redis.tokens "chembot:qa:*" None)
    with (lits "chembot:qa:" ++ [Redis.TStar]).
  rewrite glob_toks_lits.
  destruct (after_prefix "chembot:qa:" k);
    [apply glob_toks_star_end | reflexivity].
Qed.

(** The pattern of [invalidate_content_cache], for a content id without
    glob characters, matches the keys that start with the prefix of the
    cache and contain the content id after it. *)
Lemma glob_content (content_id k : string) :
  plain content_id = true ->
  Redis.glob ("chembot:qa:*" ++ content_id ++ "*") k
  = match after_prefix "chembot:qa:" k with
    | Some rest => Py.contains content_id rest
    | None => false
    end.
Proof.
  intros Hp. unfold Redis.glob.
  change ("chembot:qa:*" ++ content_id ++ "*")%string
    with ("chembot:qa:" ++ String "*" (content_id ++ "*"))%string.
  rewrite (tokens_plain "chembot:qa:" _ eq_refl).
  change (Redis.tokens (String "*" (content_id ++ "*")) None)
    with (Redis.TStar :: Redis.tokens (content_id ++ "*") None).
  rewrite (tokens_plain content_id "*" Hp).
  change (Redis.tokens "*" None) with [Redis.TStar].
  rewrite glob_toks_lits.
  destruct (after_prefix "chembot:qa:" k) as [rest|]; [|reflexivity].
  apply glob_toks_star_lits_star.
Qed.

Lemma scan_delete_lookup (pattern k : string) (r : Redis.server) :
  Redis.reachable r = true ->
  exists n : nat,
    Redis.scan_delete r pattern
    = Some (n, Redis.set_db r
                 (filter (fun kv => Redis.glob pattern (fst kv) <> true)
                         (Redis.db r)))
    /\ filter (fun kv => Redis.glob pattern (fst kv) <> true)
              (Redis.db r) !! k
       = if Redis.glob pattern k then None else Redis.db r !! k.
Proof.
  intros Hr. unfold Redis.scan_delete. rewrite Hr. eexists. split;
    [reflexivity|].
  destruct (Redis.glob pattern k) eqn:Hg.
  - apply map_lookup_filter_None_2. right. intros x _ Hx. cbn in Hx.
    congruence.
  - destruct (Redis.db r !! k) as [e|] eqn:Hk.
    + apply map_lookup_filter_Some_2; [exact Hk|]. cbn. congruence.
    + apply map_lookup_filter_None_2. left. exact Hk.
Qed.

(** ** Clearing the cache *)

(** X11.  With the cache enabled and Redis reachable, after
    [clear_all_cache] no lookup hits, whatever the question, the
    content id and the extra parameters; keys that do not start with
    [chembot:qa:] stay as they were. *)
Theorem clear_all_cache_empties_cache :
  forall c : world,
    enabled (fst c) = true -> has_client (fst c) = true ->
    Redis.reachable (snd c) = true ->
    let c' := clear_all_cache c in
    (forall (question content_id : string)
            (kwargs : list (string * scalar)),
        fst (get_cached_answer question content_id kwargs c') = None)
    /\ (forall k : string,
          after_prefix "chembot:qa:" k = None ->
          Redis.db (snd c') !! k = Redis.db (snd c) !! k)
    /\ fst c' = fst c.
Proof.
  intros [m r]. cbn [fst snd]. intros He Hc Hr. cbv zeta.
  unfold clear_all_cache. cbn [fst snd]. rewrite He, Hc. cbn [negb orb].
  destruct (scan_delete_lookup "chembot:qa:*" EmptyString r Hr)
    as [n [Hs _]]. rewrite Hs. cbn [fst snd].
  split; [|split; [|reflexivity]].
  - intros question content_id kwargs.
    rewrite get_cached_answer_lookup; [|assumption..].
    cbn [snd Redis.set_db Redis.db].
    destruct (scan_delete_lookup "chembot:qa:*"
                (_generate_cache_key question content_id kwargs) r Hr)
      as [n' [_ Hl]].
    rewrite Hl, glob_all. unfold _generate_cache_key.
    rewrite after_prefix_app. reflexivity.
  - intros k Hk. cbn [Redis.set_db Redis.db].
    destruct (scan_delete_lookup "chembot:qa:*" k r Hr) as [n' [_ Hl]].
    rewrite Hl, glob_all, Hk. reflexivity.
Qed.

Lemma clear_all_cache_witness :
  fst (get_cached_answer "What is X?" sample_content_id engine_kwargs
         (clear_all_cache
            (cache_answer "What is X?" sample_content_id sample_answer
               engine_kwargs fresh_cache))) = None.
Proof.
  apply (clear_all_cache_empties_cache
           (cache_answer "What is X?" sample_content_id sample_answer
              engine_kwargs fresh_cache) eq_refl eq_refl eq_refl).
Defined.

(** ** Invalidating one content *)

(** X12.  For a content id without glob characters,
    [invalidate_content_cache] removes an answer exactly when the
    content id occurs in the SHA-256 digest that makes up its key:
    whether the answer was stored for that content does not matter.
    Keys outside the cache prefix are kept. *)
Theorem invalidate_removes_by_digest :
  forall (content_id : string) (c : world),
    plain content_id = true ->
    enabled (fst c) = true -> has_client (fst c) = true ->
    Redis.reachable (snd c) = true ->
    let c' := invalidate_content_cache content_id c in
    (forall (question stored_for : string)
            (kwargs : list (string * scalar)),
        fst (get_cached_answer question stored_for kwargs c')
        = if Py.contains content_id
               (Sha256.hexdigest
                  (Py.encode (cache_string question stored_for kwargs)))
          then None
          else fst (get_cached_answer question stored_for kwargs c))
    /\ (forall k : string,
          after_prefix "chembot:qa:" k = None ->
          Redis.db (snd c') !! k = Redis.db (snd c) !! k)
    /\ fst c' = fst c.
Proof.
  intros content_id [m r] Hp. cbn [fst snd]. intros He Hc Hr. cbv zeta.
  assert (Hm : fst (invalidate_content_cache content_id (m, r)) = m).
  { unfold invalidate_content_cache. cbn [fst snd]. rewrite He, Hc.
    cbn [negb orb]. unfold Redis.scan_delete. rewrite Hr. reflexivity. }
  assert (Hreach :
    Redis.reachable (snd (invalidate_content_cache content_id (m, r)))
    = true).
  { unfold invalidate_content_cache. cbn [fst snd]. rewrite He, Hc.
    cbn [negb orb]. unfold Redis.scan_delete. rewrite Hr. exact Hr. }
  split; [|split; [|exact Hm]].
  - intros question stored_for kwargs.
    rewrite !get_cached_answer_lookup;
      rewrite ?Hm; cbn [fst snd]; try assumption.
    rewrite (CacheFacts.invalidate_lookup content_id _ m r He Hc Hr).
    rewrite (glob_content _ _ Hp). unfold _generate_cache_key.
    rewrite after_prefix_app.
    destruct (Py.contains content_id _); reflexivity.
  - intros k Hk.
    rewrite (CacheFacts.invalidate_lookup content_id k m r He Hc Hr).
    rewrite (glob_content _ _ Hp), Hk. reflexivity.
Qed.

Lemma invalidate_by_digest_witness :
  let c := cache_answer "What is X?" sample_content_id sample_answer
             engine_kwargs fresh_cache in
  fst (get_cached_answer "What is X?" sample_content_id engine_kwargs
         (invalidate_content_cache sample_content_id c))
  = fst (get_cached_answer "What is X?" sample_content_id engine_kwargs c).
Proof.
  cbv zeta.
  destruct (invalidate_removes_by_digest sample_content_id
              (cache_answer "What is X?" sample_content_id sample_answer
                 engine_kwargs fresh_cache)
              eq_refl eq_refl eq_refl eq_refl) as (H & _).
  rewrite H.
  replace (Py.contains sample_content_id
             (Sha256.hexdigest
                (Py.encode
                   (cache_string "What is X?" sample_content_id
                      engine_kwargs))))
    with false by (vm_compute; reflexivity).
  reflexivity.
Defined.

End CacheMoreFacts.
(* ===================================================================== *)
(** * Chunking: sizes, blank input and sections *)
(* ===================================================================== *)

Module ChunkSizeFacts.
Import Chunking ChunkingSpec KeySpec WordSpec Samples ChunkSamples.
Local Open Scope list_scope.

(** ** Words of a text put together from parts *)

Lemma flush_app (cur : list ascii) (acc : list string) :
  Py.flush cur acc = Py.flush cur [] ++ acc.
Proof. destruct cur; reflexivity. Qed.

Lemma split_ws_aux_space (a : string) (c : ascii) (b : string)
  (cur : list ascii) :
  Py.is_space c = true ->
  Py.split_ws_aux (a ++ String c b) cur
  = Py.split_ws_aux a cur ++ Py.split_ws b.
Proof.
  intros Hc. revert cur. induction a as [|x a IH]; intros cur.
  - change (EmptyString ++ String c b)%string with (String c b).
    cbn [Py.split_ws_aux]. rewrite Hc. apply flush_app.
  - change (String x a ++ String c b)%string
      with (String x (a ++ String c b)%string).
    cbn [Py.split_ws_aux]. destruct (Py.is_space x).
    + rewrite IH, flush_app, (flush_app cur (Py.split_ws_aux a [])).
      apply List.app_assoc.
    + apply IH.
Qed.

Lemma word_count_app_space (a : string) (c : ascii) (b : string) :
  Py.is_space c = true ->
  Py.word_count (a ++ String c b)
  = (Py.word_count a + Py.word_count b)%nat.
Proof.
  intros Hc. unfold Py.word_count, Py.split_ws.
  rewrite (split_ws_aux_space a c b [] Hc), List.length_app. reflexivity.
Qed.

Lemma word_count_space_cons (c : ascii) (b : string) :
  Py.is_space c = true -> Py.word_count (String c b) = Py.word_count b.
Proof.
  intros Hc. unfold Py.word_count, Py.split_ws. cbn [Py.split_ws_aux].
  rewrite Hc. reflexivity.
Qed.

Lemma split_ws_blank (s : string) : blank s = true -> Py.split_ws s = [].
Proof.
  unfold Py.split_ws. induction s as [|c s IH]; intros H; [reflexivity|].
  cbn [blank] in H. apply andb_prop in H. destruct H as [Hc Hs].
  cbn [Py.split_ws_aux]. rewrite Hc. cbn [Py.flush]. exact (IH Hs).
Qed.

Lemma wc_blank (s : string) : blank s = true -> wc s = 0%Z.
Proof.
  intros H. unfold wc, Py.word_count. rewrite (split_ws_blank s H).
  reflexivity.
Qed.

Lemma wc_nonneg (s : string) : (0 <= wc s)%Z.
Proof. unfold wc. lia. Qed.

Lemma total_words_cons (s : string) (l : list string) :
  total_words (s :: l) = (wc s + total_words l)%Z.
Proof. reflexivity. Qed.

Lemma total_words_nonneg (l : list string) : (0 <= total_words l)%Z.
Proof.
  induction l as [|s l IH]; [unfold total_words; cbn [fold_right]; lia|].
  rewrite total_words_cons. pose proof (wc_nonneg s). lia.
Qed.

Lemma total_words_app (l1 l2 : list string) :
  total_words (l1 ++ l2) = (total_words l1 + total_words l2)%Z.
Proof.
  induction l1 as [|s l1 IH]; [reflexivity|].
  change ((s :: l1) ++ l2) with (s :: (l1 ++ l2)).
  rewrite !total_words_cons, IH. lia.
Qed.

(** The words of paragraphs joined by blank lines are the words of the
    paragraphs. *)
Lemma wc_join_para_sep (l : list string) :
  wc (Py.join para_sep l) = total_words l.
Proof.
  unfold Py.join. induction l as [|x [|y l] IH].
  - reflexivity.
  - rewrite total_words_cons. change (total_words []) with 0%Z.
    change (String.concat para_sep [x]) with x. lia.
  - change (String.concat para_sep (x :: y :: l))
      with (x ++ para_sep ++ String.concat para_sep (y :: l))%string.
    change (total_words (x :: y :: l))
      with (wc x + total_words (y :: l))%Z.
    rewrite <- IH. unfold wc, para_sep.
    change (String (Py.chr 10) (String (Py.chr 10) EmptyString)
            ++ String.concat (String (Py.chr 10)
                                (String (Py.chr 10) EmptyString)) (y :: l))%string
      with (String (Py.chr 10)
              (String (Py.chr 10)
                 (String.concat (String (Py.chr 10)
                                   (String (Py.chr 10) EmptyString))
                    (y :: l)))).
    rewrite word_count_app_space by reflexivity.
    rewrite word_count_space_cons by reflexivity.
    lia.
Qed.

(** ** The size of the chunks built from whole paragraphs *)

Section Bound.
Variables chunk_size overlap : Z.
Variable metadata : option dict.

Lemma tail_within_bound (rev_items acc : list string) (words : Z) :
  words = total_words acc -> (words <= overlap)%Z ->
  snd (tail_within overlap rev_items acc words)
  = total_words (fst (tail_within overlap rev_items acc words))
  /\ (snd (tail_within overlap rev_items acc words) <= overlap)%Z.
Proof.
  revert acc words. induction rev_items as [|s rest IH];
    intros acc words Hw Hle.
  - cbn. split; assumption.
  - cbn [tail_within].
    destruct (words + wc s <=? overlap)%Z eqn:E.
    + apply IH.
      * rewrite total_words_cons, Hw. lia.
      * apply Z.leb_le. exact E.
    + cbn. split; assumption.
Qed.

Lemma get_overlap_text_words (paragraphs : list string) :
  (wc (_get_overlap_text overlap paragraphs) <= Z.max 0 overlap)%Z.
Proof.
  unfold _get_overlap_text.
  assert (H0 : (wc EmptyString <= Z.max 0 overlap)%Z)
    by (change (wc EmptyString) with 0%Z; lia).
  destruct paragraphs as [|p ps]; [exact H0|].
  destruct (overlap <=? 0)%Z eqn:E; [exact H0|].
  apply Z.leb_gt in E.
  destruct (tail_within_bound (List.rev (p :: ps)) [] 0 eq_refl
              ltac:(lia)) as [H1 H2].
  destruct (fst (tail_within overlap (List.rev (p :: ps)) [] 0))
    as [|q qs] eqn:Eq; [exact H0|].
  rewrite wc_join_para_sep, <- H1. lia.
Qed.

Lemma strategy_paragraph_chunk (i : nat) (current : list string) :
  strategy (paragraph_chunk metadata i current) = Some (JStr "heuristic").
Proof.
  unfold strategy, paragraph_chunk, new_chunk. cbn [chunk_metadata or_empty].
  rewrite ChunkingFacts.dict_get_set_ne by discriminate.
  apply ChunkingFacts.dict_get_set_eq.
Qed.

Lemma strategy_sentence_chunk (i : nat) (current : list string) :
  strategy (sentence_chunk metadata i current)
  = Some (JStr "heuristic_sentence").
Proof.
  unfold strategy, sentence_chunk, new_chunk. cbn [chunk_metadata or_empty].
  rewrite ChunkingFacts.dict_get_set_ne by discriminate.
  apply ChunkingFacts.dict_get_set_eq.
Qed.

Lemma words_paragraph_chunk (i : nat) (current : list string) :
  Z.of_nat (chunk_word_count (paragraph_chunk metadata i current))
  = total_words current.
Proof.
  unfold paragraph_chunk, new_chunk. cbn [chunk_word_count].
  apply wc_join_para_sep.
Qed.

Local Abbreviation within := (WordSpec.within chunk_size overlap).
Local Abbreviation bounded := (WordSpec.bounded chunk_size overlap).

Lemma within_sentence_chunk (i : nat) (current : list string) :
  within (sentence_chunk metadata i current).
Proof.
  intros H. rewrite strategy_sentence_chunk in H. discriminate.
Qed.

Lemma within_paragraph_chunk (i : nat) (current : list string) :
  (total_words current <= chunk_size + Z.max 0 overlap)%Z ->
  within (paragraph_chunk metadata i current).
Proof.
  intros Hle _. rewrite words_paragraph_chunk. split; [exact Hle|].
  reflexivity.
Qed.

Lemma sentence_step_within (start : nat) (st : sstate) (sentence : string) :
  Forall within (s_chunks st) ->
  Forall within
    (s_chunks (sentence_step chunk_size overlap metadata start st sentence)).
Proof.
  intros H. unfold sentence_step.
  destruct ((s_current_words st + wc sentence >? chunk_size)%Z
            && match s_current st with [] => false | _ => true end);
    [|exact H].
  assert (Hi : Forall within
                 (s_chunks st
                  ++ [sentence_chunk metadata
                        (start + List.length (s_chunks st)) (s_current st)])).
  { apply Forall_app. split; [exact H|].
    constructor; [apply within_sentence_chunk | constructor]. }
  destruct (overlap >? 0)%Z; [|exact Hi].
  destruct (tail_within overlap (List.rev (s_current st)) [] 0).
  exact Hi.
Qed.

Lemma chunk_by_sentences_within (text : string) (start : nat) :
  Forall within
    (_chunk_by_sentences chunk_size overlap text metadata start).
Proof.
  unfold _chunk_by_sentences.
  generalize (split_sentences text [] false false). intros sentences.
  assert (H : forall st, Forall within (s_chunks st) ->
    Forall within
      (s_chunks (fold_left (sentence_step chunk_size overlap metadata start)
                   sentences st))).
  { induction sentences as [|s sentences IH]; intros st Hst; cbn;
      [exact Hst|]. apply IH, sentence_step_within, Hst. }
  specialize (H (SState [] [] 0) (List.Forall_nil _)).
  destruct (s_current _) as [|s rest]; [exact H|].
  apply Forall_app. split; [exact H|].
  constructor; [apply within_sentence_chunk | constructor].
Qed.

Lemma heuristic_step_bounded (st : hstate) (para : string) :
  (0 <= chunk_size)%Z ->
  bounded st -> bounded (heuristic_step chunk_size overlap metadata st para).
Proof.
  intros Hcs (Hch & Hsum & Hle). unfold heuristic_step.
  pose proof (wc_nonneg para) as Hp.
  assert (Hsnoc : forall cur : list string,
            total_words (cur ++ [para]) = (total_words cur + wc para)%Z).
  { intros cur. rewrite total_words_app, total_words_cons.
    change (total_words []) with 0%Z. lia. }
  destruct (h_current_word_count st + wc para >? chunk_size)%Z eqn:Eover.
  - set (st1 := match h_current_chunk st with [] => st | _ => _ end).
    assert (H1 : bounded st1
                 /\ (h_current_word_count st1 <= Z.max 0 overlap)%Z).
    { subst st1. destruct (h_current_chunk st) as [|p ps] eqn:Ecur.
      - split.
        + split; [exact Hch|].
          split; [rewrite Ecur; exact Hsum | exact Hle].
        + rewrite Hsum. change (total_words []) with 0%Z. lia.
      - pose proof (get_overlap_text_words (p :: ps)) as Hov.
        assert (Hnew : Forall within
                  (h_chunks st
                   ++ [paragraph_chunk metadata (List.length (h_chunks st))
                         (p :: ps)])).
        { apply Forall_app. split; [exact Hch|].
          constructor; [|constructor].
          apply within_paragraph_chunk. rewrite <- Hsum. exact Hle. }
        destruct (nonempty (_get_overlap_text overlap (p :: ps))).
        + split; [|exact Hov]. split; [exact Hnew|].
          cbn [h_current_chunk h_current_word_count]. split.
          * rewrite total_words_cons. change (total_words []) with 0%Z. lia.
          * lia.
        + split; [|cbn [h_current_word_count]; lia].
          split; [exact Hnew|]. cbn [h_current_chunk h_current_word_count].
          split; [reflexivity | lia]. }
    destruct H1 as [(Hch1 & Hsum1 & Hle1) Hov1].
    destruct (wc para >? chunk_size)%Z eqn:Ebig.
    + split; [|split]; cbn [h_chunks h_current_chunk h_current_word_count].
      * apply Forall_app. split; [exact Hch1|].
        apply chunk_by_sentences_within.
      * exact Hsum1.
      * exact Hle1.
    + assert (wc para <= chunk_size)%Z by (rewrite Z.gtb_ltb in Ebig;
        apply Z.ltb_ge in Ebig; exact Ebig).
      split; [|split]; cbn [h_chunks h_current_chunk h_current_word_count].
      * exact Hch1.
      * rewrite Hsnoc, Hsum1. reflexivity.
      * lia.
  - assert (h_current_word_count st + wc para <= chunk_size)%Z
      by (rewrite Z.gtb_ltb in Eover; apply Z.ltb_ge in Eover; exact Eover).
    split; [|split]; cbn [h_chunks h_current_chunk h_current_word_count].
    + exact Hch.
    + rewrite Hsnoc, Hsum. reflexivity.
    + lia.
Qed.

Lemma heuristic_paragraphs_within (paragraphs : list string) :
  (0 <= chunk_size)%Z ->
  Forall within
    (heuristic_paragraphs chunk_size overlap paragraphs metadata).
Proof.
  intros Hcs. unfold heuristic_paragraphs.
  assert (H : forall st, bounded st ->
    bounded (fold_left (heuristic_step chunk_size overlap metadata)
               paragraphs st)).
  { induction paragraphs as [|p paragraphs IH]; intros st Hst; cbn;
      [exact Hst|]. apply IH, heuristic_step_bounded; assumption. }
  destruct (H (HState [] [] 0)) as (Hch & Hsum & Hle).
  { split; [constructor|]. split; [reflexivity|].
    cbn [h_current_word_count]. lia. }
  destruct (h_current_chunk _) as [|p ps] eqn:Ecur; [exact Hch|].
  apply Forall_app. split; [exact Hch|].
  constructor; [|constructor].
  apply within_paragraph_chunk. rewrite <- Hsum. exact Hle.
Qed.

End Bound.

(** X13.  With a chunk size that is not negative, every chunk the
    heuristic strategy builds from whole paragraphs (strategy
    [heuristic]) holds at most [chunk_size + overlap] words
    ([chunk_size] when the overlap is not positive): the overlap carried
    over from the previous chunk comes on top of the target size.  Its
    [word_count] is the number of words of its text. *)
Theorem heuristic_paragraph_chunks_bounded :
  forall (chunk_size overlap : Z) (text : string) (metadata : option dict)
         (c : Chunk),
    (0 <= chunk_size)%Z ->
    In c (heuristic_chunk chunk_size overlap text metadata) ->
    strategy c = Some (JStr "heuristic") ->
    (Z.of_nat (chunk_word_count c) <= chunk_size + Z.max 0 overlap)%Z
    /\ chunk_word_count c = Py.word_count (chunk_text c).
Proof.
  intros chunk_size overlap text metadata c Hcs Hin Hs.
  pose proof (heuristic_paragraphs_within chunk_size overlap metadata
                (_split_into_paragraphs text) Hcs) as H.
  rewrite List.Forall_forall in H. exact (H c Hin Hs).
Qed.

Lemma heuristic_paragraph_chunks_witness :
  let chunks := heuristic_chunk 3 2 three_paragraphs None in
  List.map chunk_word_count chunks = [2; 4; 5]%nat
  /\ forall c, In c chunks -> (Z.of_nat (chunk_word_count c) <= 3 + 2)%Z.
Proof.
  cbv zeta. split; [vm_compute; reflexivity|].
  intros c Hin.
  refine (proj1 (heuristic_paragraph_chunks_bounded 3 2 three_paragraphs
                   None c ltac:(lia) Hin _)).
  vm_compute in Hin.
  destruct Hin as [<-|[<-|[<-|[]]]]; reflexivity.
Defined.

End ChunkSizeFacts.

(* ===================================================================== *)
(** * Chunking: blank input and sections *)
(* ===================================================================== *)

Module SectionFacts.
Import Chunking ChunkingSpec KeySpec WordSpec Samples ChunkSamples.
Local Open Scope list_scope.

(** ** Splitting into lines and joining them again *)

Lemma string_of_list_ascii_app (l1 l2 : list ascii) :
  string_of_list_ascii (l1 ++ l2)
  = (string_of_list_ascii l1 ++ string_of_list_ascii l2)%string.
Proof.
  induction l1 as [|c l1 IH]; [reflexivity|].
  cbn [List.app string_of_list_ascii]. rewrite IH. reflexivity.
Qed.

Lemma rev_string_cons (c : ascii) (cur : list ascii) :
  Py.rev_string (c :: cur)
  = (Py.rev_string cur ++ String c EmptyString)%string.
Proof.
  unfold Py.rev_string. cbn [List.rev].
  apply string_of_list_ascii_app.
Qed.

Lemma split_char_aux_cons (sep : ascii) (s : string) (cur : list ascii) :
  exists x xs, Py.split_char_aux sep s cur = x :: xs.
Proof.
  revert cur. induction s as [|c s IH]; intros cur; cbn.
  - eauto.
  - destruct (Ascii.eqb c sep); [eauto | apply IH].
Qed.

Lemma join_cons (sep x : string) (y : string) (l : list string) :
  Py.join sep (x :: y :: l) = (x ++ sep ++ Py.join sep (y :: l))%string.
Proof. reflexivity. Qed.

(** [sep.join(s.split(sep)) == s] *)
Lemma join_split_char_aux (sep : ascii) (s : string) (cur : list ascii) :
  Py.join (String sep EmptyString) (Py.split_char_aux sep s cur)
  = (Py.rev_string cur ++ s)%string.
Proof.
  revert cur. induction s as [|c s IH]; intros cur.
  - cbn. symmetry. apply KeyFacts.append_nil_r.
  - cbn [Py.split_char_aux]. destruct (Ascii.eqb c sep) eqn:E.
    + apply Ascii.eqb_eq in E. subst c.
      destruct (split_char_aux_cons sep s []) as [x [xs Hx]].
      rewrite Hx, join_cons, <- Hx, IH. reflexivity.
    + rewrite IH, rev_string_cons, KeyFacts.append_assoc. reflexivity.
Qed.

Lemma join_split_char (sep : ascii) (s : string) :
  Py.join (String sep EmptyString) (Py.split_char sep s) = s.
Proof. apply (join_split_char_aux sep s []). Qed.

(** ** Text without headers *)

Lemma fold_section_step_headerless (lines : list string)
  (sections : list section) (cur : open_section) :
  Forall (fun line => header_match line = None) lines ->
  fold_left section_step lines (sections, cur)
  = (sections,
     OpenSection (o_title cur) (o_level cur) (o_lines cur ++ lines)).
Proof.
  revert cur. induction lines as [|l lines IH]; intros cur H.
  - cbn. rewrite List.app_nil_r. destruct cur; reflexivity.
  - inversion H as [|? ? Hl Hrest]; subst.
    cbn [fold_left]. unfold section_step at 2. rewrite Hl.
    rewrite (IH _ Hrest). cbn [o_title o_level o_lines].
    rewrite <- List.app_assoc. reflexivity.
Qed.

Lemma parse_headerless (text : string) :
  headerless text ->
  _parse_markdown_sections text
  = if nonempty (Py.strip text)
    then [MkSection "Introduction" 0 (Py.strip text)]
    else [].
Proof.
  intros H. unfold _parse_markdown_sections.
  rewrite (fold_section_step_headerless _ _ _ H).
  cbn [o_title o_level o_lines List.app].
  unfold close_section. cbn [o_title o_level o_lines].
  destruct (split_char_aux_cons (Py.chr 10) text []) as [x [xs Hx]].
  unfold Py.split_char. rewrite Hx, <- Hx.
  change (Py.split_char_aux (Py.chr 10) text [])
    with (Py.split_char (Py.chr 10) text).
  rewrite join_split_char. reflexivity.
Qed.

(** X14.  A text in which no line is a markdown header is one section,
    titled [Introduction] at level 0, whose text is the whole text
    stripped; it is no section at all when the text is blank.  When
    that section fits the chunk size, the semantic strategy returns it
    as its only chunk, with index 0. *)
Theorem headerless_text_is_one_section :
  forall (chunk_size overlap : Z) (text : string) (metadata : option dict),
    headerless text ->
    _parse_markdown_sections text
    = (if nonempty (Py.strip text)
       then [MkSection "Introduction" 0 (Py.strip text)]
       else [])
    /\ (nonempty (Py.strip text) = false ->
        semantic_chunk chunk_size overlap text metadata = [])
    /\ (nonempty (Py.strip text) = true ->
        (wc (Py.strip text) <= chunk_size)%Z ->
        semantic_chunk chunk_size overlap text metadata
        = [new_chunk (Py.strip text)
             (Some (dict_set "is_complete_section" (JBool true)
                   (dict_set "section_level" (JInt 0)
                   (dict_set "section_title" (JStr "Introduction")
                   (dict_set "chunking_strategy" (JStr "semantic")
                   (dict_set "chunk_index" (JInt 0)
                      (or_empty metadata)))))))]).
Proof.
  intros chunk_size overlap text metadata H.
  pose proof (parse_headerless text H) as Hp.
  split; [exact Hp|]. unfold semantic_chunk. rewrite Hp. split.
  - intros ->. reflexivity.
  - intros -> Hfit. cbn [fold_left]. unfold semantic_step.
    cbn [sec_text title level].
    apply Z.leb_le in Hfit. rewrite Hfit. reflexivity.
Qed.

Lemma headerless_witness :
  _parse_markdown_sections plain_notes
  = [MkSection "Introduction" 0
       ("Acids donate protons." ++ nl ++ "Bases accept them.")%string]
  /\ List.map chunk_text (semantic_chunk 800 150 plain_notes None)
     = [("Acids donate protons." ++ nl ++ "Bases accept them.")%string].
Proof.
  assert (H : headerless plain_notes)
    by (unfold headerless; vm_compute; repeat constructor).
  destruct (headerless_text_is_one_section 800 150 plain_notes None H)
    as (H1 & _ & H3).
  split; [rewrite H1; reflexivity|].
  rewrite (H3 eq_refl ltac:(vm_compute; discriminate)). reflexivity.
Defined.

(** ** Blank text *)

Lemma blank_string_of_list (l : list ascii) :
  blank (string_of_list_ascii l) = forallb Py.is_space l.
Proof. induction l as [|c l IH]; cbn; [|rewrite IH]; reflexivity. Qed.

Lemma forallb_rev_true {A : Type} (f : A -> bool) (l : list A) :
  forallb f l = true -> forallb f (List.rev l) = true.
Proof.
  rewrite !forallb_forall. intros H x Hx. apply H, in_rev, Hx.
Qed.

Lemma blank_rev_string (cur : list ascii) :
  forallb Py.is_space cur = true -> blank (Py.rev_string cur) = true.
Proof.
  intros H. unfold Py.rev_string. rewrite blank_string_of_list.
  apply forallb_rev_true, H.
Qed.

Lemma split_char_aux_blank (sep : ascii) (s : string) (cur : list ascii) :
  blank s = true -> forallb Py.is_space cur = true ->
  Forall (fun p => blank p = true) (Py.split_char_aux sep s cur).
Proof.
  revert cur. induction s as [|c s IH]; intros cur Hs Hcur.
  - cbn. constructor; [apply blank_rev_string, Hcur | constructor].
  - cbn [blank] in Hs. apply andb_prop in Hs. destruct Hs as [Hc Hs].
    cbn [Py.split_char_aux]. destruct (Ascii.eqb c sep).
    + constructor; [apply blank_rev_string, Hcur|].
      apply IH; [exact Hs | reflexivity].
    + apply IH; [exact Hs|]. cbn [forallb]. rewrite Hc. exact Hcur.
Qed.

Lemma split_blank_lines_blank (s : string) (cur : list ascii) (skip : nat) :
  blank s = true -> forallb Py.is_space cur = true ->
  Forall (fun p => blank p = true) (split_blank_lines s cur skip).
Proof.
  revert cur skip. induction s as [|c s IH]; intros cur skip Hs Hcur.
  - cbn. constructor; [apply blank_rev_string, Hcur | constructor].
  - cbn [blank] in Hs. apply andb_prop in Hs. destruct Hs as [Hc Hs].
    assert (Hpush : forallb Py.is_space (c :: cur) = true)
      by (cbn [forallb]; rewrite Hc; exact Hcur).
    cbn [split_blank_lines]. destruct skip as [|k].
    + destruct (is_nl c).
      * destruct (sep_len s) as [n|].
        -- constructor; [apply blank_rev_string, Hcur|].
           apply IH; [exact Hs | reflexivity].
        -- apply IH; assumption.
      * apply IH; assumption.
    + apply IH; assumption.
Qed.

Lemma strip_blank (s : string) : blank s = true -> Py.strip s = EmptyString.
Proof.
  intros H.
  rewrite <- (KeyFacts.append_nil_r s).
  rewrite <- (KeyFacts.append_nil_r EmptyString) at 1.
  rewrite (KeyFacts.strip_padding s EmptyString EmptyString H eq_refl).
  reflexivity.
Qed.

Lemma paragraphs_blank (text : string) :
  blank text = true -> _split_into_paragraphs text = [].
Proof.
  intros H. unfold _split_into_paragraphs.
  pose proof (split_blank_lines_blank text [] 0 H eq_refl) as Hall.
  induction Hall as [|p ps Hp _ IH]; [reflexivity|].
  cbn [List.map List.filter]. rewrite (strip_blank p Hp). exact IH.
Qed.

Lemma count_hashes_space (c : ascii) (s : string) :
  Py.is_space c = true -> count_hashes (String c s) = (0%nat, String c s).
Proof.
  destruct c as [[] [] [] [] [] [] [] []]; intros H;
    try discriminate H; reflexivity.
Qed.

Lemma header_match_blank (line : string) :
  blank line = true -> header_match line = None.
Proof.
  intros H. unfold header_match. destruct line as [|c s]; [reflexivity|].
  cbn [blank] in H. apply andb_prop in H. destruct H as [Hc _].
  rewrite (count_hashes_space c s Hc). reflexivity.
Qed.

Lemma blank_headerless (text : string) :
  blank text = true -> headerless text.
Proof.
  intros H. unfold headerless, Py.split_char.
  pose proof (split_char_aux_blank (Py.chr 10) text [] H eq_refl) as Hall.
  induction Hall as [|p ps Hp _ IH]; constructor;
    [apply header_match_blank, Hp | exact IH].
Qed.

(** X15.  For a text of white space only (the empty text included) the
    heuristic and the semantic strategy return no chunk, while the
    intelligent strategy, for a chunk size that is not negative,
    returns one chunk holding that text, with index 0 and without
    calling the provider. *)
Theorem blank_text_chunks :
  forall (chunk_size overlap : Z) (text : string) (metadata : option dict),
    blank text = true ->
    heuristic_chunk chunk_size overlap text metadata = []
    /\ semantic_chunk chunk_size overlap text metadata = []
    /\ ((0 <= chunk_size)%Z ->
        forall (X : Type) (ext : externals X) (w : cworld),
          intelligent_chunk chunk_size overlap ext text metadata w
          = ([new_chunk text
                (Some (dict_set "chunking_strategy"
                         (JStr "intelligent_single")
                      (dict_set "chunk_index" (JInt 0)
                         (or_empty metadata))))],
             w)).
Proof.
  intros chunk_size overlap text metadata H. split; [|split].
  - unfold heuristic_chunk. rewrite (paragraphs_blank text H). reflexivity.
  - unfold semantic_chunk.
    rewrite (parse_headerless text (blank_headerless text H)).
    rewrite (strip_blank text H). reflexivity.
  - intros Hcs X ext w. unfold intelligent_chunk.
    rewrite (ChunkSizeFacts.wc_blank text H).
    apply Z.leb_le in Hcs. rewrite Hcs. reflexivity.
Qed.

Lemma blank_text_witness :
  heuristic_chunk 800 150 only_blank None = []
  /\ semantic_chunk 800 150 only_blank None = []
  /\ List.map chunk_text
       (fst (intelligent_chunk 800 150 silent_provider only_blank None
               (0%nat, [])))
     = [only_blank].
Proof.
  destruct (blank_text_chunks 800 150 only_blank None eq_refl)
    as (H1 & H2 & H3).
  split; [exact H1|]. split; [exact H2|].
  rewrite (H3 ltac:(lia) nat silent_provider (0%nat, [])). reflexivity.
Defined.

(** ** Sections that fit *)

Lemma semantic_fit_fold (chunk_size overlap : Z) (metadata : option dict)
  (sections : list section) :
  forall chunks : list Chunk,
    Forall (fun sec => (wc (sec_text sec) <= chunk_size)%Z) sections ->
    indexed_from 0 chunks ->
    let out := fold_left (semantic_step chunk_size overlap metadata)
                 sections chunks in
    indexed_from 0 out
    /\ List.map chunk_text out
       = List.map chunk_text chunks ++ List.map sec_text sections
    /\ (Forall (fun c => strategy c = Some (JStr "semantic")) chunks ->
        Forall (fun c => strategy c = Some (JStr "semantic")) out).
Proof.
  induction sections as [|sec sections IH]; intros chunks Hfit Hidx;
    cbv zeta.
  - cbn. rewrite List.app_nil_r. auto.
  - inversion Hfit as [|? ? Hsec Hrest]; subst.
    cbn [fold_left]. unfold semantic_step at 2 4 6.
    apply Z.leb_le in Hsec. rewrite Hsec.
    set (c := new_chunk (sec_text sec) _).
    destruct (IH (chunks ++ [c]) Hrest) as (H1 & H2 & H3).
    { apply ChunkingFacts.indexed_from_snoc; [exact Hidx|].
      subst c. unfold chunk_index, new_chunk.
      cbn [chunk_metadata or_empty].
      rewrite !ChunkingFacts.dict_get_set_ne by discriminate.
      apply ChunkingFacts.dict_get_set_eq. }
    split; [exact H1|]. split.
    + rewrite H2, List.map_app, <- List.app_assoc. reflexivity.
    + intros Hs. apply H3. apply Forall_app. split; [exact Hs|].
      constructor; [|constructor].
      subst c. unfold strategy, new_chunk. cbn [chunk_metadata or_empty].
      rewrite !ChunkingFacts.dict_get_set_ne by discriminate.
      apply ChunkingFacts.dict_get_set_eq.
Qed.

(** X16.  When every section of the text fits the chunk size, the
    semantic strategy returns one chunk per section, in order, each
    holding the text of its section under the strategy [semantic], and
    numbers them 0, 1, 2, ... *)
Theorem semantic_chunks_of_fitting_sections :
  forall (chunk_size overlap : Z) (text : string) (metadata : option dict),
    Forall (fun sec => (wc (sec_text sec) <= chunk_size)%Z)
           (_parse_markdown_sections text) ->
    let chunks := semantic_chunk chunk_size overlap text metadata in
    contiguous chunks
    /\ List.map chunk_text chunks
       = List.map sec_text (_parse_markdown_sections text)
    /\ Forall (fun c => strategy c = Some (JStr "semantic")) chunks.
Proof.
  intros chunk_size overlap text metadata Hfit. cbv zeta.
  destruct (semantic_fit_fold chunk_size overlap metadata
              (_parse_markdown_sections text) [] Hfit
              (ChunkingFacts.indexed_from_nil 0)) as (H1 & H2 & H3).
  split; [exact H1|]. split; [exact H2|]. apply H3. constructor.
Qed.

Lemma semantic_fitting_witness :
  let chunks := semantic_chunk 4 0 two_small_sections None in
  indices chunks = [Some (JInt 0); Some (JInt 1)]
  /\ List.map chunk_text chunks = ["# A"; ("# B" ++ nl ++ "x")%string].
Proof.
  assert (Hfit : Forall (fun sec => (wc (sec_text sec) <= 4)%Z)
                   (_parse_markdown_sections two_small_sections))
    by (vm_compute; repeat constructor; discriminate).
  destruct (semantic_chunks_of_fitting_sections 4 0 two_small_sections
              None Hfit) as (H1 & H2 & _).
  cbv zeta. split.
  - rewrite H1. reflexivity.
  - rewrite H2. reflexivity.
Defined.

End SectionFacts.
(* ===================================================================== *)
(** * Conversations *)
(* ===================================================================== *)

Module ConversationFacts.
Import Conversation ConversationDb IdSpec WindowSpec.
Local Open Scope list_scope.

(** ** Keys *)

Lemma conversation_key_inj (c1 u1 c2 u2 : string) :
  no_underscore c1 = true -> no_underscore c2 = true ->
  _get_conversation_key c1 u1 = _get_conversation_key c2 u2 ->
  c1 = c2 /\ u1 = u2.
Proof.
  unfold _get_conversation_key. revert c2.
  induction c1 as [|a c1 IH]; intros [|b c2] H1 H2 Heq.
  - cbn in Heq. injection Heq as Hu. auto.
  - cbn in Heq. injection Heq as Hb _. subst b. discriminate H2.
  - cbn in Heq. injection Heq as Ha _. subst a. discriminate H1.
  - cbn [no_underscore] in H1, H2.
    apply andb_prop in H1. destruct H1 as [_ H1].
    apply andb_prop in H2. destruct H2 as [_ H2].
    cbn in Heq. injection Heq as Hab Hrest. subst b.
    destruct (IH c2 H1 H2 Hrest) as [-> ->]. auto.
Qed.

Lemma get_history_other_key (c1 u1 c2 u2 : string) (limit : option Z)
  (max_history : Z) (h : list turn) (convs : gmap string (list turn)) :
  _get_conversation_key c1 u1 <> _get_conversation_key c2 u2 ->
  get_history c2 u2 limit
    (Manager max_history (<[_get_conversation_key c1 u1 := h]> convs))
  = get_history c2 u2 limit (Manager max_history convs).
Proof.
  intros Hne. unfold get_history. cbn [conversations].
  rewrite lookup_insert_ne by exact Hne. reflexivity.
Qed.

(** X17.  Conversations are kept apart when the content ids carry no
    underscore (as the identifiers the application issues): adding a
    turn to one conversation, or clearing it, changes the history of no
    other pair of content and user. *)
Theorem conversations_are_separate :
  forall (c1 u1 c2 u2 q a : string) (now : Z) (limit : option Z)
         (m : manager),
    no_underscore c1 = true -> no_underscore c2 = true ->
    (c1 <> c2 \/ u1 <> u2) ->
    get_history c2 u2 limit (add_turn c1 u1 q a now m)
    = get_history c2 u2 limit m
    /\ get_history c2 u2 limit (clear_history c1 u1 m)
       = get_history c2 u2 limit m.
Proof.
  intros c1 u1 c2 u2 q a now limit m H1 H2 Hne.
  assert (Hk : _get_conversation_key c1 u1 <> _get_conversation_key c2 u2).
  { intros Heq. destruct (conversation_key_inj c1 u1 c2 u2 H1 H2 Heq)
      as [Hc Hu]. destruct Hne as [Hne|Hne]; contradiction. }
  split.
  - unfold add_turn. rewrite (get_history_other_key _ _ _ _ _ _ _ _ Hk).
    destruct m; reflexivity.
  - unfold clear_history, get_history. cbn [conversations].
    rewrite lookup_delete_ne by exact Hk. reflexivity.
Qed.

Lemma conversations_are_separate_witness :
  get_history "507f1f77bcf86cd799439011" "u2" None
    (add_turn "507f1f77bcf86cd799439011" "u1" "q" "a" 0 (new None))
  = [].
Proof.
  assert (H1 : no_underscore "507f1f77bcf86cd799439011" = true)
    by reflexivity.
  assert (H2 : "u1" <> "u2") by discriminate.
  pose proof (conversations_are_separate
                "507f1f77bcf86cd799439011" "u1"
                "507f1f77bcf86cd799439011" "u2" "q" "a" 0 None
                (new None) H1 H1 (or_intror H2)) as [H _].
  rewrite H. reflexivity.
Defined.

Lemma last_skipn_snoc {A : Type} (n : nat) (h : list A) (t : A) :
  (n <= List.length h)%nat ->
  List.last (List.skipn n (h ++ [t])) t = t.
Proof.
  intros Hn. rewrite List.skipn_app.
  replace (n - List.length h)%nat with 0%nat by lia.
  cbn [List.skipn]. apply List.last_last.
Qed.

(** X18.  The key of a conversation is the content id, an underscore
    and the user id, so the pair (content [a_b], user [c]) and the pair
    (content [a], user [b_c]) share one history: a turn added for the
    first is the latest turn of the second. *)
Theorem conversation_keys_collide :
  forall (a b c q ans : string) (now : Z) (m : manager),
    (1 <= max_history m)%Z ->
    let m' := add_turn (a ++ "_" ++ b) c q ans now m in
    _get_conversation_key (a ++ "_" ++ b) c
    = _get_conversation_key a (b ++ "_" ++ c)
    /\ get_history a (b ++ "_" ++ c) None m'
       = get_history (a ++ "_" ++ b) c None m'
    /\ List.last (get_history a (b ++ "_" ++ c) None m') (Turn q ans now)
       = Turn q ans now
    /\ get_history a (b ++ "_" ++ c) None m' <> [].
Proof.
  intros a b c q ans now m Hmax. cbv zeta.
  assert (Hk : _get_conversation_key (a ++ "_" ++ b) c
               = _get_conversation_key a (b ++ "_" ++ c)).
  { unfold _get_conversation_key.
    rewrite !KeyFacts.append_assoc. reflexivity. }
  split; [exact Hk|].
  assert (Hsame :
    get_history a (b ++ "_" ++ c) None
      (add_turn (a ++ "_" ++ b) c q ans now m)
    = get_history (a ++ "_" ++ b) c None
        (add_turn (a ++ "_" ++ b) c q ans now m))
    by (unfold get_history; rewrite Hk; reflexivity).
  split; [exact Hsame|]. rewrite Hsame.
  unfold get_history. rewrite MoreFacts.add_turn_lookup.
  cbn [default]. cbv zeta.
  set (h := default [] (conversations m !! _)).
  destruct (Z.of_nat (List.length (h ++ [Turn q ans now]))
            >? max_history m)%Z eqn:E.
  - unfold slice_from.
    assert (Hlt : (- max_history m <? 0)%Z = true) by (apply Z.ltb_lt; lia).
    rewrite Hlt. rewrite List.length_app in *. cbn [List.length] in *.
    rewrite Z.gtb_ltb in E. apply Z.ltb_lt in E.
    split.
    + apply last_skipn_snoc. lia.
    + rewrite List.skipn_app.
      replace (Z.to_nat (Z.max 0 (Z.of_nat (List.length h + 1)
                                  + - max_history m))
               - List.length h)%nat with 0%nat by lia.
      cbn [List.skipn]. intros Hnil. apply List.app_eq_nil in Hnil.
      destruct Hnil as [_ Hnil]. discriminate Hnil.
  - split; [apply List.last_last|].
    intros Hnil. apply List.app_eq_nil in Hnil.
    destruct Hnil as [_ Hnil]. discriminate Hnil.
Qed.

Lemma conversation_keys_collide_witness :
  List.map question
    (get_history "doc" "1_u" None
       (add_turn "doc_1" "u" "q" "a" 0 (new None)))
  = ["q"].
Proof.
  destruct (conversation_keys_collide "doc" "1" "u" "q" "a" 0 (new None)
              ltac:(vm_compute; discriminate)) as (_ & H & _).
  cbv zeta in H. change ("doc" ++ "_" ++ "1")%string with "doc_1" in H.
  change ("1" ++ "_" ++ "u")%string with "1_u" in H.
  rewrite H. reflexivity.
Defined.

(** ** The limit of a history read *)

(** X19.  [get_history] with a positive limit returns the latest
    [limit] turns of the stored history, oldest first; with no limit
    and with limit 0 (which is falsy) it returns the whole history; a
    negative limit [-k] drops the [k] oldest turns. *)
Theorem get_history_limit :
  forall (content_id user_id : string) (m : manager) (k : nat),
    let all := get_history content_id user_id None m in
    get_history content_id user_id (Some (Z.of_nat (Datatypes.S k))) m
    = window (Datatypes.S k) all
    /\ (List.length
          (get_history content_id user_id (Some (Z.of_nat (Datatypes.S k))) m)
        <= Datatypes.S k)%nat
    /\ get_history content_id user_id (Some 0%Z) m = all
    /\ get_history content_id user_id (Some (- Z.of_nat (Datatypes.S k))%Z) m
       = List.skipn (Datatypes.S k) all.
Proof.
  intros content_id user_id m k. cbv zeta. unfold get_history.
  set (h := default [] (conversations m !! _)).
  assert (Hpos : (Z.of_nat (Datatypes.S k) =? 0)%Z = false)
    by (apply Z.eqb_neq; lia).
  assert (Hneg : (- Z.of_nat (Datatypes.S k) =? 0)%Z = false)
    by (apply Z.eqb_neq; lia).
  rewrite Hpos, Hneg, MoreFacts.slice_from_last.
  split; [reflexivity|]. split.
  - rewrite List.length_skipn. lia.
  - split; [reflexivity|]. unfold slice_from.
    assert (Hlt : (- - Z.of_nat (Datatypes.S k) <? 0)%Z = false)
      by (apply Z.ltb_ge; lia).
    rewrite Hlt. f_equal. lia.
Qed.

(** ** Loading a conversation from the database *)

Section Load.
Context {X : Type}.
Variable find_questions :
  string -> string -> Z -> operation X (list question_doc).
Variable now_ms : X -> Z.

(** X27.  [load_from_database] asks for [limit] documents, or for
    [max_history] of them when [limit] is missing or 0.  When the
    database raises, the manager is left as it was.  Otherwise the
    history of the conversation is replaced by the documents read,
    oldest first, however many they are; the next [add_turn] cuts the
    history back to the last [max_history] turns. *)
Theorem load_from_database_history
  (content_id user_id q a : string) (limit : option Z) (t : Z) (n : nat)
  (convs : gmap string (list turn)) (x : X) :
  let m := Manager (Z.of_nat (Datatypes.S n)) convs in
  let out :=
    load_from_database find_questions now_ms content_id user_id limit m x in
  match find_questions content_id user_id
          (match limit with
           | Some l => if (l =? 0)%Z then Z.of_nat (Datatypes.S n) else l
           | None => Z.of_nat (Datatypes.S n)
           end) x with
  | (Raise _, x') => out = (m, x')
  | (Ok questions, x') =>
      let loaded := List.map (turn_of_doc (now_ms x')) (List.rev questions) in
      snd out = x'
      /\ get_history content_id user_id None (fst out) = loaded
      /\ get_history content_id user_id None
           (add_turn content_id user_id q a t (fst out))
         = window (Datatypes.S n) (loaded ++ [Turn q a t])
  end.
Proof.
  cbv zeta. unfold load_from_database, Retry.or_Z. cbn [max_history].
  destruct (find_questions content_id user_id _ x) as [[questions|e] x'];
    [|reflexivity].
  cbn [fst snd]. split; [reflexivity|]. split.
  - unfold get_history. cbn [conversations].
    rewrite lookup_insert_eq. reflexivity.
  - unfold get_history at 1. rewrite MoreFacts.add_turn_lookup.
    cbn [conversations max_history]. rewrite lookup_insert_eq.
    cbv [default from_option id]. unfold window.
    destruct (_ >? _)%Z eqn:Hlen.
    + apply MoreFacts.slice_from_last.
    + rewrite Z.gtb_ltb in Hlen. apply Z.ltb_ge in Hlen.
      match goal with
      | |- _ = List.skipn ?k _ => replace k with 0%nat by lia
      end.
      reflexivity.
Qed.

End Load.

End ConversationFacts.
(* ===================================================================== *)
(** * The streaming path: cache hits and the classification gate *)
(* ===================================================================== *)

Module ReplayFacts.
Import Engine Samples StreamSpec ReplaySpec GateSamples VectorSpec.
Import UpsertSpec StoreSpec.
Local Open Scope list_scope.

(** ** Cutting an answer into pieces *)

Lemma substring_all (s : string) :
  String.substring 0 (String.length s) s = s.
Proof. induction s as [|c s IH]; cbn; [|rewrite IH]; reflexivity. Qed.

Lemma substring_split (n : nat) (s : string) :
  (String.substring 0 n s
   ++ String.substring n (String.length s - n) s)%string = s.
Proof.
  revert s. induction n as [|n IH]; intros s.
  - destruct s as [|c s]; [reflexivity|].
    change (String.substring 0 0 (String c s)) with EmptyString.
    rewrite Nat.sub_0_r. apply substring_all.
  - destruct s as [|c s]; [reflexivity|].
    cbn [String.substring String.length Nat.sub].
    change (String c (String.substring 0 n s)
            ++ String.substring n (String.length s - n) s)%string
      with (String c (String.substring 0 n s
                      ++ String.substring n (String.length s - n) s)%string).
    rewrite IH. reflexivity.
Qed.

Lemma substring_rest_length (n : nat) (s : string) :
  String.length (String.substring n (String.length s - n) s)
  = (String.length s - n)%nat.
Proof.
  revert s. induction n as [|n IH]; intros s.
  - rewrite Nat.sub_0_r, substring_all. reflexivity.
  - destruct s as [|c s]; [reflexivity|].
    cbn [String.substring String.length Nat.sub]. apply IH.
Qed.

Lemma substring_head_length (n : nat) (s : string) :
  String.length (String.substring 0 n s) = Nat.min n (String.length s).
Proof.
  revert s. induction n as [|n IH]; intros s.
  - destruct s; reflexivity.
  - destruct s as [|c s]; [reflexivity|].
    cbn [String.substring String.length Nat.min]. rewrite IH. reflexivity.
Qed.

Lemma concat_empty_cons (x : string) (xs : list string) :
  String.concat EmptyString (x :: xs)
  = (x ++ String.concat EmptyString xs)%string.
Proof.
  destruct xs as [|y ys]; [|reflexivity].
  cbn. symmetry. apply KeyFacts.append_nil_r.
Qed.

(** The pieces give the answer back, and each holds between one and
    [size] characters. *)
Lemma pieces_concat (size : nat) (fuel : nat) :
  forall s : string,
    (1 <= size)%nat -> (String.length s <= fuel)%nat ->
    String.concat EmptyString (pieces fuel size s) = s
    /\ Forall (fun p => (1 <= String.length p <= size)%nat)
              (pieces fuel size s).
Proof.
  induction fuel as [|fuel IH]; intros s Hsize Hlen.
  - destruct s; [|cbn in Hlen; lia]. split; [reflexivity | constructor].
  - destruct s as [|c s]; [split; [reflexivity | constructor]|].
    cbn [pieces].
    set (rest := String.substring size
                   (String.length (String c s) - size) (String c s)).
    assert (Hrest : (String.length rest <= fuel)%nat).
    { subst rest. rewrite substring_rest_length. cbn [String.length] in *.
      lia. }
    destruct (IH rest Hsize Hrest) as [Hc Hf]. split.
    + rewrite concat_empty_cons, Hc. subst rest. apply substring_split.
    + constructor; [|exact Hf].
      rewrite substring_head_length. cbn [String.length]. lia.
Qed.

(** X20.  The replay of a cached answer cuts it into pieces of
    [chunk_size] characters (ten in the code): every piece holds between
    one and [chunk_size] characters, and the pieces put together are the
    answer. *)
Theorem replay_pieces_give_the_answer :
  forall (answer : string) (chunk_size : nat),
    (1 <= chunk_size)%nat ->
    let replay := pieces (String.length answer) chunk_size answer in
    String.concat EmptyString replay = answer
    /\ Forall (fun p => (1 <= String.length p <= chunk_size)%nat) replay.
Proof.
  intros answer chunk_size Hsize. cbv zeta.
  apply pieces_concat; [exact Hsize | lia].
Qed.

Lemma replay_pieces_witness :
  pieces 13 10 "X is a metal." = ["X is a met"; "al."]
  /\ String.concat EmptyString (pieces 13 10 "X is a metal.")
     = "X is a metal.".
Proof.
  split; [reflexivity|].
  exact (proj1 (replay_pieces_give_the_answer "X is a metal." 10
                  ltac:(lia))).
Defined.

(** ** The classification gate *)

Section Gate.
Context {X : Type}.
Variable ext : externals X.
Variable cfg : config.

(** X21.  After a cache miss (or without the cache), what
    [ask_question_stream] does next depends on the classification
    alone.  If it says the input is no question, or is a question
    outside the material, the stream is the one canned message and the
    run ends in the state the classifier left: no index search, no
    further provider call, no database write, no analytics event, no
    cache entry and no conversation turn.  A classification that is not
    an object, or lacks [is_question] or [is_relevant], ends the stream
    with the generic error message in the same way. *)
Theorem classification_gate :
  forall (question content_id user_id : string) (use_cache : bool)
         (w w2 : eworld X) (c1 : Cache.world) (classification : jval),
    (if use_cache
     then Cache.get_cached_answer question content_id (cache_kwargs cfg)
            (cache w) = (None, c1)
     else c1 = cache w) ->
    _classify_query ext cfg question (set_cache w c1)
    = (Ok classification, w2) ->
    let run :=
      ask_question_stream ext cfg question content_id user_id use_cache w in
    match getitem "is_question" classification with
    | Raise _ => run = (Ok tt, yielded w2 [engine_error_message])
    | Ok is_question =>
        if truthy is_question then
          match getitem "is_relevant" classification with
          | Raise _ => run = (Ok tt, yielded w2 [engine_error_message])
          | Ok is_relevant =>
              if truthy is_relevant then True
              else run = (Ok tt, yielded w2 [off_topic_message])
          end
        else run = (Ok tt, yielded w2 [not_a_question_message])
    end.
Proof.
  intros question content_id user_id use_cache w w2 c1 classification
         Hget Hcls. cbv zeta.
  assert (Hlook :
    (if use_cache
     then with_cache (Cache.get_cached_answer question content_id
                        (cache_kwargs cfg))
     else ret None) w
    = (Ok None, set_cache w c1)).
  { destruct use_cache.
    - unfold with_cache. rewrite Hget. reflexivity.
    - subst c1. unfold ret, set_cache. destruct w; reflexivity. }
  destruct (getitem "is_question" classification) as [vq|e] eqn:Hq.
  - destruct (truthy vq) eqn:Htq.
    + destruct (getitem "is_relevant" classification) as [vr|e] eqn:Hr.
      * destruct (truthy vr) eqn:Htr; [exact I|].
        unfold ask_question_stream, try_except, ask_question_stream_body.
        unfold bind at 1. unfold clock at 1.
        unfold bind at 1. rewrite Hlook.
        rewrite (StreamFacts.bind_ok _ _ _ _ _ Hcls).
        unfold bind at 1. rewrite Hq. cbn [lift_result ret].
        rewrite Htq. cbn [negb].
        unfold bind at 1. rewrite Hr. cbn [lift_result ret].
        rewrite Htr. reflexivity.
      * unfold ask_question_stream, try_except, ask_question_stream_body.
        unfold bind at 1. unfold clock at 1.
        unfold bind at 1. rewrite Hlook.
        rewrite (StreamFacts.bind_ok _ _ _ _ _ Hcls).
        unfold bind at 1. rewrite Hq. cbn [lift_result ret].
        rewrite Htq. cbn [negb].
        unfold bind at 1. rewrite Hr. reflexivity.
    + unfold ask_question_stream, try_except, ask_question_stream_body.
      unfold bind at 1. unfold clock at 1.
      unfold bind at 1. rewrite Hlook.
      rewrite (StreamFacts.bind_ok _ _ _ _ _ Hcls).
      unfold bind at 1. rewrite Hq. cbn [lift_result ret].
      rewrite Htq. reflexivity.
  - unfold ask_question_stream, try_except, ask_question_stream_body.
    unfold bind at 1. unfold clock at 1.
    unfold bind at 1. rewrite Hlook.
    rewrite (StreamFacts.bind_ok _ _ _ _ _ Hcls).
    unfold bind at 1. rewrite Hq. reflexivity.
Qed.

End Gate.

Lemma classification_gate_witness :
  let run := ask_question_stream (Mock.ext small_talk) cfg_small_talk
               "Hello there" sample_content_id sample_user true
               fresh_world in
  fst run = Ok tt
  /\ output (snd run) = [not_a_question_message]
  /\ ext_state (snd run) = 1%nat
  /\ conv (snd run) = conv fresh_world.
Proof.
  set (c1 := snd (Cache.get_cached_answer "Hello there" sample_content_id
                    (cache_kwargs cfg_small_talk) (cache fresh_world))).
  set (w2 := snd (_classify_query (Mock.ext small_talk) cfg_small_talk
                    "Hello there" (set_cache fresh_world c1))).
  assert (Hget :
    (if true
     then Cache.get_cached_answer "Hello there" sample_content_id
            (cache_kwargs cfg_small_talk) (cache fresh_world) = (None, c1)
     else c1 = cache fresh_world)) by (vm_compute; reflexivity).
  assert (Hcls :
    _classify_query (Mock.ext small_talk) cfg_small_talk "Hello there"
      (set_cache fresh_world c1)
    = (Ok (JObj [("is_question", JBool false);
                 ("is_relevant", JBool false);
                 ("question_type", JStr "other");
                 ("confidence", JFloat 0.9)]), w2))
    by (vm_compute; reflexivity).
  pose proof (classification_gate (Mock.ext small_talk) cfg_small_talk
                "Hello there" sample_content_id sample_user true
                fresh_world w2 c1 _ Hget Hcls) as H.
  cbv zeta in H.
  change (getitem "is_question"
            (JObj [("is_question", JBool false);
                   ("is_relevant", JBool false);
                   ("question_type", JStr "other");
                   ("confidence", JFloat 0.9)]))
    with (Ok (JBool false)) in H.
  cbn [truthy] in H. cbv zeta. rewrite H.
  split; [reflexivity|]. split; [reflexivity|].
  split; vm_compute; reflexivity.
Defined.

(** ** A classification that cannot be checked for storage *)

Section StoreCheck.
Context {X : Type}.
Variable ext : externals X.
Variable cfg : config.

(** X29.  When the classification passes the gate but
    [should_store_question] raises on it (its confidence does not
    compare with a number), the answer has already been streamed; the
    generic error message follows it and the run ends in the state the
    generation left.  The answer is not cached and no conversation turn
    is added; no question is stored and no analytics event is sent,
    since the run makes no call after the generation. *)
Theorem unchecked_classification_loses_the_answer :
  forall (question content_id user_id : string) (use_cache : bool)
         (w w2 w3 : eworld X) (c1 : Cache.world)
         (classification vq vr : jval) (chunks : list string) (e : exn),
    (if use_cache
     then Cache.get_cached_answer question content_id (cache_kwargs cfg)
            (cache w) = (None, c1)
     else c1 = cache w) ->
    _classify_query ext cfg question (set_cache w c1)
    = (Ok classification, w2) ->
    getitem "is_question" classification = Ok vq -> truthy vq = true ->
    getitem "is_relevant" classification = Ok vr -> truthy vr = true ->
    answer_question_stream ext cfg question content_id user_id
      (Conversation.get_context_string content_id user_id (Some 3%Z)
         (conv w2))
      5 w2 = (chunks, w3) ->
    should_store_question classification = Raise e ->
    ask_question_stream ext cfg question content_id user_id use_cache w
    = (Ok tt, yielded w3 (chunks ++ [engine_error_message]))
    /\ cache w3 = c1
    /\ conv w3 = conv w.
Proof.
  intros question content_id user_id use_cache w w2 w3 c1 classification
         vq vr chunks e Hget Hcls Hq Htq Hr Htr Hans Hstore.
  assert (Hlook :
    (if use_cache
     then with_cache (Cache.get_cached_answer question content_id
                        (cache_kwargs cfg))
     else ret None) w
    = (Ok None, set_cache w c1)).
  { destruct use_cache.
    - unfold with_cache. rewrite Hget. reflexivity.
    - subst c1. unfold ret, set_cache. destruct w; reflexivity. }
  pose proof (StreamFacts._classify_query_frame ext cfg question
                (set_cache w c1)) as Fc.
  rewrite Hcls in Fc. cbn [snd] in Fc. unfold rest_of in Fc.
  cbn [set_cache cache conv output] in Fc.
  injection Fc as Fc1 Fc2 Fc3.
  pose proof (StreamFacts.answer_question_stream_frame ext cfg question
                content_id user_id
                (Conversation.get_context_string content_id user_id
                   (Some 3%Z) (conv w2)) 5 w2) as Fa.
  rewrite Hans in Fa. cbn [snd] in Fa. unfold rest_of in Fa.
  injection Fa as Fa1 Fa2 Fa3.
  split; [|split; congruence].
  unfold ask_question_stream, try_except, ask_question_stream_body.
  unfold bind at 1. unfold clock at 1.
  unfold bind at 1. rewrite Hlook.
  rewrite (StreamFacts.bind_ok _ _ _ _ _ Hcls).
  unfold bind at 1. rewrite Hq. cbn [lift_result ret]. rewrite Htq.
  cbn [negb].
  unfold bind at 1. rewrite Hr. cbn [lift_result ret]. rewrite Htr.
  cbn [negb].
  unfold bind at 1. unfold with_conv at 1. cbn [fst snd].
  unfold bind at 1.
  replace (EWorld (ext_state w2) (limiter w2) (events w2) (cache w2)
                  (conv w2) (output w2)) with w2 by (destruct w2; reflexivity).
  rewrite Hans.
  unfold bind at 1. rewrite StreamFacts.for_each_yield.
  unfold bind at 1. unfold clock at 1.
  unfold bind at 1. rewrite Hstore. cbn [lift_result]. unfold raise.
  unfold yield, yielded.
  cbn [ext_state limiter events cache conv output].
  rewrite <- List.app_assoc. reflexivity.
Qed.

End StoreCheck.

Lemma unchecked_classification_witness :
  let run := ask_question_stream (Mock.ext vague) cfg_vague
               sample_question sample_content_id sample_user true
               fresh_world in
  fst run = Ok tt
  /\ output (snd run) = ["X is "; "a metal."; engine_error_message]
  /\ fst (Cache.get_cached_answer sample_question sample_content_id
            (cache_kwargs cfg_vague) (cache (snd run))) = None
  /\ conv (snd run) = conv fresh_world.
Proof.
  set (c1 := snd (Cache.get_cached_answer sample_question sample_content_id
                    (cache_kwargs cfg_vague) (cache fresh_world))).
  set (cls := JObj [("is_question", JBool true);
                    ("is_relevant", JBool true);
                    ("question_type", JStr "factual");
                    ("confidence", JStr "high")]).
  set (w2 := snd (_classify_query (Mock.ext vague) cfg_vague
                    sample_question (set_cache fresh_world c1))).
  set (w3 := snd (answer_question_stream (Mock.ext vague) cfg_vague
                    sample_question sample_content_id sample_user
                    (Conversation.get_context_string sample_content_id
                       sample_user (Some 3%Z) (conv w2)) 5 w2)).
  assert (Hget :
    (if true
     then Cache.get_cached_answer sample_question sample_content_id
            (cache_kwargs cfg_vague) (cache fresh_world) = (None, c1)
     else c1 = cache fresh_world)) by (vm_compute; reflexivity).
  assert (Hcls :
    _classify_query (Mock.ext vague) cfg_vague sample_question
      (set_cache fresh_world c1) = (Ok cls, w2))
    by (vm_compute; reflexivity).
  assert (Hq : getitem "is_question" cls = Ok (JBool true)) by reflexivity.
  assert (Hr : getitem "is_relevant" cls = Ok (JBool true)) by reflexivity.
  assert (Ht : truthy (JBool true) = true) by reflexivity.
  assert (Hans :
    answer_question_stream (Mock.ext vague) cfg_vague sample_question
      sample_content_id sample_user
      (Conversation.get_context_string sample_content_id sample_user
         (Some 3%Z) (conv w2)) 5 w2
    = (["X is "; "a metal."], w3)) by (vm_compute; reflexivity).
  assert (Hstore : should_store_question cls
                   = Raise (OtherError "TypeError")) by reflexivity.
  pose proof (unchecked_classification_loses_the_answer (Mock.ext vague)
                cfg_vague sample_question sample_content_id sample_user
                true fresh_world w2 w3 c1 cls (JBool true) (JBool true)
                ["X is "; "a metal."] (OtherError "TypeError")
                Hget Hcls Hq Ht Hr Ht Hans Hstore) as (Hrun & Hc & Hv).
  cbv zeta. rewrite Hrun. cbn [fst snd yielded output cache conv].
  split; [reflexivity|]. split; [vm_compute; reflexivity|].
  split; [|exact Hv]. rewrite Hc. vm_compute. reflexivity.
Defined.

(** ** The classifier *)

Section Classifier.
Context {X : Type}.
Variable ext : externals X.
Variable cfg : config.

(** X22.  [classify_query] never raises.  Its result is the provider's
    reply parsed as JSON, or a permissive default that passes the gate
    ([is_question] and [is_relevant] true): with confidence 1.0 when
    classification is disabled, and with confidence 0.5 when the prompt
    cannot be built, the provider fails or the reply does not parse.
    The default of a failure is below the storage threshold, so such a
    question is answered but not stored. *)
Theorem classify_query_defaults :
  forall (query : string) (w : eworld X),
    exists (v : jval) (w' : eworld X),
      classify_query ext cfg query w = (Ok v, w')
      /\ ((exists (user_prompt : string) (response : completion),
             enable_classification cfg = true
             /\ classification_user_prompt cfg query = Ok user_prompt
             /\ fst (acompletion ext
                       (CompletionRequest (llm_model cfg)
                          [("system", classification_system_prompt cfg);
                           ("user", user_prompt)]
                          0.3 200 false)
                       (ext_state w))
                = Ok response
             /\ json_loads cfg (strip_fences (Py.strip (content response)))
                = Some v)
          \/ (exists reasoning : string,
                v = default_classification
                      (if enable_classification cfg then 0.5 else 1)
                      reasoning
                /\ getitem "is_question" v = Ok (JBool true)
                /\ getitem "is_relevant" v = Ok (JBool true)
                /\ should_store_question v
                   = Ok (JBool (negb (enable_classification cfg))))).
Proof.
  intros query w. unfold classify_query.
  destruct (enable_classification cfg) eqn:Hen; cbn [negb].
  - unfold try_except, bind.
    destruct (classification_user_prompt cfg query) as [up|e] eqn:Hup;
      cbn [lift_result ret raise].
    + unfold direct.
      match goal with
      | |- context [acompletion ext ?req (ext_state w)] =>
          destruct (acompletion ext req (ext_state w)) as [[resp|e] x1]
            eqn:Hcall
      end.
      * destruct (json_loads cfg _) as [v|] eqn:Hj.
        -- eexists v, _. split; [reflexivity|]. left. exists up, resp.
           split; [reflexivity|]. split; [reflexivity|].
           split; [rewrite Hcall; reflexivity | exact Hj].
        -- eexists _, _. split; [reflexivity|]. right.
           eexists. split; [reflexivity|]. repeat split; reflexivity.
      * destruct e; eexists _, _; (split; [reflexivity|]); right;
          eexists; (split; [reflexivity|]); repeat split; reflexivity.
    + destruct e; eexists _, w; (split; [reflexivity|]); right;
        eexists; (split; [reflexivity|]); repeat split; reflexivity.
  - eexists _, w. split; [reflexivity|]. right.
    eexists. split; [reflexivity|]. repeat split; reflexivity.
Qed.

(** ** [store_chunks] *)

Lemma embed_chunks_ok (content_id : string) (chunks : list Chunking.Chunk) :
  forall (i : nat) (w w1 : eworld X)
         (vectors : list (string * list float * dict)),
    embed_chunks ext content_id i chunks w = (Ok vectors, w1) ->
    ids vectors
    = List.map (vector_id content_id) (seq i (List.length chunks))
    /\ List.map (fun v => dict_get "chunk_index" (snd v)) vectors
       = List.map
           (fun c =>
              dict_get "chunk_index"
                (dict_update
                   [("text", JStr (Chunking.chunk_text c));
                    ("content_id", JStr content_id)]
                   (Chunking.chunk_metadata c)))
           chunks
    /\ events w1
       = events w
         ++ repeat (EvInvoke CallEmbedding) (List.length chunks)
    /\ rest_of w1 = rest_of w /\ limiter w1 = limiter w.
Proof.
  induction chunks as [|c chunks IH]; intros i w w1 vectors H.
  - cbn in H. injection H as <- <-. cbn. rewrite List.app_nil_r.
    repeat split; reflexivity.
  - cbn [embed_chunks] in H. unfold bind at 1 in H.
    unfold generate_embedding, direct in H.
    destruct (aembedding ext EMBEDDING_MODEL (Chunking.chunk_text c)
                (ext_state w)) as [[emb|e] x'] eqn:He; [|discriminate H].
    unfold bind at 1 in H.
    match type of H with
    | context [embed_chunks ext content_id (Datatypes.S i) chunks ?w0] =>
        destruct (embed_chunks ext content_id (Datatypes.S i) chunks w0)
          as [[vs|e] w2] eqn:Hrec; [|discriminate H];
        destruct (IH _ _ _ _ Hrec) as (H1 & H2 & H3 & H4 & H5)
    end.
    unfold ret in H. injection H as <- <-.
    cbn [ids List.map fst snd List.length seq repeat].
    fold (ids vs). rewrite H1, H2, H3.
    cbn [events] in *. rewrite <- List.app_assoc.
    repeat split; try reflexivity; assumption.
Qed.

Lemma embed_chunks_cons {Y : Type} (ext0 : externals Y)
  (content_id : string) (i : nat) (c : Chunking.Chunk)
  (chunks : list Chunking.Chunk) (w : eworld Y) :
  embed_chunks ext0 content_id i (c :: chunks) w
  = match aembedding ext0 EMBEDDING_MODEL (Chunking.chunk_text c)
            (ext_state w) with
    | (Ok emb, x') =>
        match embed_chunks ext0 content_id (Datatypes.S i) chunks
                (EWorld x' (limiter w)
                   (events w ++ [EvInvoke CallEmbedding])
                   (cache w) (conv w) (output w)) with
        | (Ok vectors, w2) =>
            (Ok (vectors_of content_id i [c] [emb] ++ vectors), w2)
        | (Raise e, w2) => (Raise e, w2)
        end
    | (Raise e, x') =>
        (Raise e,
         EWorld x' (limiter w) (events w ++ [EvInvoke CallEmbedding])
           (cache w) (conv w) (output w))
    end.
Proof.
  cbn [embed_chunks]. unfold bind, generate_embedding, direct, ret.
  destruct (aembedding ext0 EMBEDDING_MODEL (Chunking.chunk_text c)
              (ext_state w)) as [[emb|e] x']; [|reflexivity].
  destruct (embed_chunks ext0 content_id (Datatypes.S i) chunks _)
    as [[vectors|e] w2]; reflexivity.
Qed.

Lemma embed_chunks_calls (content_id : string)
  (chunks : list Chunking.Chunk) :
  forall (i : nat) (w : eworld (X * list store_call)),
    let out := embed_chunks (logged ext) content_id i chunks w in
    (exists es : list (list float),
        List.length es = List.length chunks
        /\ fst out = Ok (vectors_of content_id i chunks es)
        /\ calls (snd out) = calls w ++ embedded chunks es)
    \/ (exists (done : list Chunking.Chunk) (failed : Chunking.Chunk)
               (rest : list Chunking.Chunk) (es : list (list float))
               (e : exn),
          chunks = done ++ failed :: rest
          /\ List.length es = List.length done
          /\ fst out = Raise e
          /\ calls (snd out)
             = calls w ++ embedded done es
               ++ [Embedded EMBEDDING_MODEL (Chunking.chunk_text failed)
                     (Raise e)]).
Proof.
  induction chunks as [|c chunks IH]; intros i w; cbv zeta.
  - left. exists []. cbn. rewrite List.app_nil_r. auto.
  - rewrite embed_chunks_cons. cbn [aembedding logged].
    destruct (aembedding ext EMBEDDING_MODEL (Chunking.chunk_text c)
                (fst (ext_state w))) as [[emb|e] x'].
    + match goal with
      | |- context [embed_chunks (logged ext) content_id (Datatypes.S i)
                      chunks ?w0] =>
          destruct (IH (Datatypes.S i) w0)
            as [(es & Hlen & Hres & Hcalls)
               |(done & failed & rest & es & e & Hsplit & Hlen & Hres
                 & Hcalls)];
          destruct (embed_chunks (logged ext) content_id (Datatypes.S i)
                      chunks w0) as [r w2]
      end; cbn [fst snd] in Hres, Hcalls; subst r.
      * left. exists (emb :: es). cbn [List.length]. rewrite Hlen.
        split; [reflexivity|]. split; [reflexivity|].
        cbn [snd]. rewrite Hcalls. unfold calls.
        cbn [ext_state snd embedded List.combine List.map fst].
        rewrite <- List.app_assoc. reflexivity.
      * right. exists (c :: done), failed, rest, (emb :: es), e.
        rewrite Hsplit. cbn [List.length]. rewrite Hlen.
        split; [reflexivity|]. split; [reflexivity|].
        split; [reflexivity|].
        cbn [snd]. rewrite Hcalls. unfold calls.
        cbn [ext_state snd embedded List.combine List.map fst].
        rewrite <- !List.app_assoc. reflexivity.
    + right. exists [], c, chunks, [], e.
      repeat split; reflexivity.
Qed.

(** X23.  [store_chunks] asks for the embedding of each chunk's text, in
    the order of the list, and then upserts once: the vector at position
    [i] has the id [<content_id>_chunk_<i>], the embedding returned for
    the text of the chunk at position [i], and that chunk's metadata
    with its text and the content id.  It returns the number of chunks
    when the upsert returns, and raises what the upsert raises.  When
    an embedding fails, no further embedding is asked for, nothing is
    upserted and the exception of the provider is raised. *)
Theorem store_chunks_embeds_then_upserts :
  forall (chunks : list Chunking.Chunk) (content_id : string)
         (w : eworld (X * list store_call)),
    let out := store_chunks (logged ext) chunks content_id w in
    (exists (es : list (list float)) (reply : result unit),
        List.length es = List.length chunks
        /\ calls (snd out)
           = calls w ++ embedded chunks es
             ++ [Upserted (vectors_of content_id 0 chunks es) content_id
                   reply]
        /\ fst out = match reply with
                     | Ok _ => Ok (List.length chunks)
                     | Raise e => Raise e
                     end)
    \/ (exists (done : list Chunking.Chunk) (failed : Chunking.Chunk)
               (rest : list Chunking.Chunk) (es : list (list float))
               (e : exn),
          chunks = done ++ failed :: rest
          /\ List.length es = List.length done
          /\ calls (snd out)
             = calls w ++ embedded done es
               ++ [Embedded EMBEDDING_MODEL (Chunking.chunk_text failed)
                     (Raise e)]
          /\ fst out = Raise e).
Proof.
  intros chunks content_id w. cbv zeta.
  assert (Hstep :
    store_chunks (logged ext) chunks content_id w
    = match embed_chunks (logged ext) content_id 0 chunks w with
      | (Ok vectors, w1) =>
          let '(reply, x') :=
            upsert_vectors ext vectors content_id (fst (ext_state w1)) in
          (match reply with
           | Ok _ => Ok (List.length chunks)
           | Raise e => Raise e
           end,
           EWorld (x', snd (ext_state w1)
                       ++ [Upserted vectors content_id reply])
             (limiter w1) (events w1) (cache w1) (conv w1) (output w1))
      | (Raise e, w1) => (Raise e, w1)
      end).
  { unfold store_chunks, bind.
    destruct (embed_chunks (logged ext) content_id 0 chunks w)
      as [[vectors|e] w1]; [|reflexivity].
    unfold extern, ret. cbn [upsert_vectors logged].
    destruct (upsert_vectors ext vectors content_id (fst (ext_state w1)))
      as [[[]|e] x']; reflexivity. }
  rewrite Hstep. clear Hstep.
  destruct (embed_chunks_calls content_id chunks 0 w)
    as [(es & Hlen & Hres & Hcalls)
       |(done & failed & rest & es & e & Hsplit & Hlen & Hres & Hcalls)];
    destruct (embed_chunks (logged ext) content_id 0 chunks w) as [r w1];
    cbn [fst snd] in Hres, Hcalls; subst r.
  - left.
    destruct (upsert_vectors ext (vectors_of content_id 0 chunks es)
                content_id (fst (ext_state w1))) as [reply x'].
    exists es, reply. split; [exact Hlen|]. split; [|reflexivity].
    unfold calls in *. cbn [snd ext_state].
    rewrite Hcalls, <- List.app_assoc. reflexivity.
  - right. exists done, failed, rest, es, e.
    split; [exact Hsplit|]. split; [exact Hlen|].
    split; [exact Hcalls|reflexivity].
Qed.

End Classifier.


End ReplayFacts.
(* ===================================================================== *)
(** * The document pipeline *)
(* ===================================================================== *)

Module PipelineFacts.
Import Engine Chunking Pipeline VectorSpec UpsertSpec Samples PipelineSamples.
Local Open Scope list_scope.

(** ** How a run ends *)

Section Outcome.
Context {X : Type}.
Variable ext : externals X.
Variable create_index : operation X unit.
Variable convert : string -> string -> operation X conversion_result.
Variable progress_callbacks : list (progress_data -> operation X unit).

Local Abbreviation body :=
  (process_document_body ext create_index convert progress_callbacks).
Local Abbreviation run :=
  (process_document ext create_index convert progress_callbacks).
Local Abbreviation progress :=
  (_update_progress ext progress_callbacks).

Lemma update_progress_fields (stage : ProcessingStage) (percentage : Z)
  (message : string) (metadata : option dict) (w : pworld) :
  exists (w' : pworld) (data : progress_data),
    progress stage percentage message metadata w = (Ok tt, w')
    /\ current_stage (snd w') = stage
    /\ progress_percentage (snd w') = percentage
    /\ progress_log (snd w') = progress_log (snd w) ++ [data]
    /\ pd_stage data = value stage
    /\ pd_percentage data = percentage
    /\ pd_message data = message.
Proof.
  destruct w as [e p]. unfold _update_progress.
  eexists _, _. split; [reflexivity|]. repeat split; reflexivity.
Qed.

(** X24.  [process_document] never raises.  A run that completes
    returns a result with [success] true and leaves the pipeline at
    stage [completing], 100 percent.  When anything inside fails, the
    run logs one more progress line, of stage [error] and 0 percent,
    and returns a result with [success] false that carries the text of
    the exception and the stage [error]: the stage in which the failure
    happened is not reported. *)
Theorem process_document_outcome :
  forall (file_path file_type content_id : string) (w : pworld),
    match body file_path file_type content_id w with
    | (Ok result, w') =>
        run file_path file_type content_id w = (Ok result, w')
        /\ dict_get "success" result = Some (JBool true)
        /\ current_stage (snd w') = COMPLETING
        /\ progress_percentage (snd w') = 100%Z
    | (Raise e, w') =>
        exists (w'' : pworld) (data : progress_data),
          run file_path file_type content_id w
          = (Ok [("success", JBool false);
                 ("content_id", JStr content_id);
                 ("error", JStr (exn_str e));
                 ("stage", JStr "error")], w'')
          /\ current_stage (snd w'') = ERROR
          /\ progress_percentage (snd w'') = 0%Z
          /\ progress_log (snd w'') = progress_log (snd w') ++ [data]
          /\ pd_stage data = "error"
          /\ pd_message data = ("Processing failed: " ++ exn_str e)%string
    end.
Proof.
  intros file_path file_type content_id w.
  destruct (body file_path file_type content_id w) as [[result|e] w']
    eqn:Hbody.
  - split; [unfold process_document; rewrite Hbody; reflexivity|].
    unfold process_document_body in Hbody.
    repeat
      (unfold pbind at 1 in Hbody;
       match type of Hbody with
       | (match ?c with _ => _ end) = _ =>
           destruct c as [[?|?] ?] eqn:?; [|discriminate Hbody]
       end).
    unfold pret in Hbody. injection Hbody as <- <-.
    match goal with
    | H : _update_progress _ _ COMPLETING 100 ?m ?md ?w0 = (Ok _, _) |- _ =>
        destruct (update_progress_fields COMPLETING 100 m md w0)
          as (w1' & data & Hp & Hs & Hpc & _);
        rewrite Hp in H; injection H as _ <-
    end.
    split; [reflexivity|]. split; assumption.
  - unfold process_document. rewrite Hbody.
    unfold pbind at 1.
    destruct (update_progress_fields ERROR 0
                ("Processing failed: " ++ exn_str e)%string
                (Some [("error", JStr (exn_str e))]) w')
      as (w'' & data & Hp & Hs & Hpc & Hlog & Hst & _ & Hmsg).
    rewrite Hp. unfold pbind, self, pret. rewrite Hs.
    exists w'', data. repeat split; assumption.
Qed.

(** Shape of the result, whichever way the run ends. *)
Lemma process_document_returns :
  forall (file_path file_type content_id : string) (w : pworld),
    exists (result : dict) (w' : pworld),
      run file_path file_type content_id w = (Ok result, w')
      /\ dict_get "embeddings_count" result = None
      /\ ((dict_get "success" result = Some (JBool true)
           /\ exists n : Z, dict_get "chunks_count" result = Some (JInt n))
          \/ (dict_get "success" result = Some (JBool false)
              /\ dict_get "chunks_count" result = None)).
Proof.
  intros file_path file_type content_id w. unfold process_document.
  destruct (body file_path file_type content_id w) as [[result|e] w']
    eqn:Hbody.
  - exists result, w'. split; [reflexivity|].
    unfold process_document_body in Hbody.
    repeat
      (unfold pbind at 1 in Hbody;
       match type of Hbody with
       | (match ?c with _ => _ end) = _ =>
           destruct c as [[?|?] ?] eqn:?; [|discriminate Hbody]
       end).
    unfold pret in Hbody. injection Hbody as <- <-.
    split; [reflexivity|]. left. split; [reflexivity|].
    eexists. reflexivity.
  - unfold pbind at 1.
    destruct (update_progress_fields ERROR 0
                ("Processing failed: " ++ exn_str e)%string
                (Some [("error", JStr (exn_str e))]) w')
      as (w'' & data & Hp & _).
    rewrite Hp. unfold pbind, self, pret.
    eexists _, _. split; [reflexivity|]. split; [reflexivity|].
    right. split; reflexivity.
Qed.

End Outcome.

Lemma process_document_outcome_witness :
  let out := process_document (Mock.ext all_up) index_down reads_twelve []
               "notes.md" "text/markdown" sample_content_id
               (fresh_world, small_pipeline) in
  fst out
  = Ok [("success", JBool false);
        ("content_id", JStr sample_content_id);
        ("error", JStr "index unavailable");
        ("stage", JStr "error")]
  /\ List.map pd_stage (progress_log (snd (snd out)))
     = ["initializing"; "error"].
Proof.
  pose proof (process_document_outcome (Mock.ext all_up) index_down
                reads_twelve [] "notes.md" "text/markdown"
                sample_content_id (fresh_world, small_pipeline)) as H.
  vm_compute in H. destruct H as (w'' & data & H & _).
  cbv zeta. split; vm_compute; reflexivity.
Defined.

(** ** The ids under which the pipeline stores vectors *)

Lemma batches_short {A : Type} (size fuel : nat) :
  forall l : list A,
    Forall (fun b => (List.length b <= size)%nat) (batches fuel size l).
Proof.
  induction fuel as [|fuel IH]; intros l; [constructor|].
  destruct l as [|x l]; [constructor|]. cbn [batches].
  constructor; [|apply IH]. rewrite List.length_firstn. lia.
Qed.

Section Upserts.
Context {X : Type}.
Variable ext : externals X.
Variable create_index : operation X unit.
Variable convert : string -> string -> operation X conversion_result.
Variable progress_callbacks : list (progress_data -> operation X unit).

Local Abbreviation X' := (X * list upsert_call)%type.
Local Abbreviation ext' := (recorded ext).
Local Abbreviation callbacks' :=
  (List.map (fun callback data => beside (callback data))
     progress_callbacks).
Local Abbreviation progress := (_update_progress ext' callbacks').
Local Abbreviation world := (eworld X' * pipeline)%type.

Lemma beside_snd {A : Type} (f : operation X A) (s : X') :
  snd (snd (beside f s)) = snd s.
Proof. unfold beside. destruct (f (fst s)). reflexivity. Qed.

Lemma callbacks_snd (data : progress_data)
  (callbacks : list (progress_data -> operation X unit)) (s : X') :
  snd (fold_left (fun x callback => snd (callback data x))
         (List.map (fun callback data => beside (callback data)) callbacks)
         s)
  = snd s.
Proof.
  revert s. induction callbacks as [|cb callbacks IH]; intros s;
    [reflexivity|].
  cbn [List.map fold_left]. rewrite IH. apply beside_snd.
Qed.

Lemma frames_progress (stage : ProcessingStage) (percentage : Z)
  (message : string) (metadata : option dict) :
  frames (progress stage percentage message metadata).
Proof.
  intros [e p]. unfold _update_progress, upserts.
  cbn [fst snd set_ext_state ext_state]. apply callbacks_snd.
Qed.

Lemma frames_pret {A : Type} (a : A) : frames (X := X) (pret a).
Proof. intros w. reflexivity. Qed.

Lemma frames_pclock : frames (pclock ext').
Proof. intros w. reflexivity. Qed.

Lemma frames_self : frames (X := X) self.
Proof. intros w. reflexivity. Qed.

Lemma frames_lift_extern {A : Type} (f : operation X A) :
  frames (lift (extern (beside f))).
Proof.
  intros [e p]. unfold lift, extern, upserts. cbn [fst snd].
  pose proof (beside_snd f (ext_state e)) as H.
  destruct (beside f (ext_state e)) as [r x']. cbn [snd] in *.
  exact H.
Qed.

Lemma frames_pbind {A B : Type} (c : P (X := X') A) (k : A -> P B) :
  frames c -> (forall a, frames (k a)) -> frames (pbind c k).
Proof.
  intros Hc Hk w. unfold pbind. specialize (Hc w).
  destruct (c w) as [[a|e] w1]; cbn [snd] in Hc.
  - rewrite Hk. exact Hc.
  - exact Hc.
Qed.

Lemma stores_pbind_after {A B : Type} (content_id : string)
  (c : P (X := X') A) (k : A -> P B) :
  frames c -> (forall a, stores_batches content_id (k a)) ->
  stores_batches content_id (pbind c k).
Proof.
  intros Hc Hk w. unfold pbind. specialize (Hc w).
  destruct (c w) as [[a|e] w1]; cbn [snd] in Hc.
  - destruct (Hk a w1) as (chunks & n & H). exists chunks, n.
    rewrite H, Hc. reflexivity.
  - exists [], 0%nat. cbn. rewrite List.app_nil_r. exact Hc.
Qed.

Lemma stores_pbind_before {A B : Type} (content_id : string)
  (c : P (X := X') A) (k : A -> P B) :
  stores_batches content_id c -> (forall a, frames (k a)) ->
  stores_batches content_id (pbind c k).
Proof.
  intros Hc Hk w. unfold pbind. destruct (Hc w) as (chunks & n & H).
  destruct (c w) as [[a|e] w1]; cbn [snd] in H.
  - exists chunks, n. rewrite Hk. exact H.
  - exists chunks, n. exact H.
Qed.

(** The chunkers make no upsert call. *)
Lemma llm_split_chunk_snd (chunk_size overlap : Z) (text : string)
  (metadata : option dict) (base_index : nat) (w : X' * list event) :
  snd (fst (snd (_llm_split_chunk chunk_size overlap ext' text metadata
                   base_index w)))
  = snd (fst w).
Proof.
  destruct w as [x tr]. unfold _llm_split_chunk.
  cbn [acompletion recorded].
  match goal with
  | |- context [beside ?f x] =>
      pose proof (beside_snd f x) as H; destruct (beside f x) as [r x']
  end.
  cbn [snd] in H. destruct r; exact H.
Qed.

Lemma intelligent_fold_snd (chunk_size overlap : Z)
  (metadata : option dict) (todo : list (nat * Chunk)) :
  forall st : list Chunk * (X' * list event),
    snd (fst (snd (fold_left
                     (intelligent_step chunk_size overlap ext' metadata)
                     todo st)))
    = snd (fst (snd st)).
Proof.
  induction todo as [|[i c] todo IH]; intros st; [reflexivity|].
  cbn [fold_left]. rewrite IH. destruct st as [refined w].
  unfold intelligent_step.
  destruct (2 * Z.of_nat (chunk_word_count c) >? 3 * chunk_size)%Z;
    [|reflexivity].
  pose proof (llm_split_chunk_snd chunk_size overlap (chunk_text c)
                metadata i w) as H.
  destruct (_llm_split_chunk chunk_size overlap ext' (chunk_text c)
              metadata i w) as [sub w'].
  exact H.
Qed.

Lemma frames_chunk (c : chunker) (text : string) (metadata : option dict) :
  frames (chunk ext' c text metadata).
Proof.
  intros [e p]. destruct c as [cs ov|cs ov|cs ov]; try reflexivity.
  unfold chunk, upserts.
  pose proof (intelligent_fold_snd cs ov metadata
                (enumerate (semantic_chunk cs ov text metadata))
                ([], (ext_state e, events e))) as H.
  unfold intelligent_chunk.
  destruct (wc text <=? cs)%Z; [reflexivity|].
  destruct (fold_left _ _ _) as [chunks [x' tr']].
  cbn [fst snd ext_state] in *. exact H.
Qed.

(** Storing one batch: the embeddings make no upsert call, the upsert
    that follows them is one call with the positional ids. *)
Lemma embed_chunks_snd (content_id : string) (chunks : list Chunk) :
  forall (i : nat) (w : eworld X'),
    snd (ext_state (snd (embed_chunks ext' content_id i chunks w)))
    = snd (ext_state w).
Proof.
  induction chunks as [|c chunks IH]; intros i w; [reflexivity|].
  cbn [embed_chunks]. unfold bind at 1.
  unfold generate_embedding, direct. cbn [aembedding recorded].
  match goal with
  | |- context [beside ?f (ext_state w)] =>
      pose proof (beside_snd f (ext_state w)) as H;
      destruct (beside f (ext_state w)) as [[emb|e] x']
  end; cbn [snd] in H; [|exact H].
  unfold bind at 1.
  match goal with
  | |- context [embed_chunks ext' content_id (Datatypes.S i) chunks ?w0] =>
      pose proof (IH (Datatypes.S i) w0) as Hrec;
      destruct (embed_chunks ext' content_id (Datatypes.S i) chunks w0)
        as [[vs|e] w2]
  end; cbn [snd ext_state ret] in *; rewrite Hrec; exact H.
Qed.

Lemma store_chunks_upserts (batch : list Chunk) (content_id : string)
  (w : eworld X') :
  let out := store_chunks ext' batch content_id w in
  snd (ext_state (snd out))
  = snd (ext_state w) ++ [batch_call content_id batch]
  \/ (snd (ext_state (snd out)) = snd (ext_state w)
      /\ exists e, fst out = Raise e).
Proof.
  cbv zeta. unfold store_chunks.
  pose proof (embed_chunks_snd content_id batch 0 w) as Hs.
  destruct (embed_chunks ext' content_id 0 batch w) as [[vectors|e] w1]
    eqn:Hemb; cbn [snd] in Hs.
  - destruct (ReplayFacts.embed_chunks_ok ext' content_id batch 0 w w1
                vectors Hemb) as (Hids & _).
    left. unfold bind at 1. rewrite Hemb.
    unfold bind, extern, ret. cbn [upsert_vectors recorded].
    destruct (upsert_vectors ext vectors content_id (fst (ext_state w1)))
      as [[u|e] x']; cbn [snd ext_state]; rewrite Hs, Hids; reflexivity.
  - right. unfold bind. rewrite Hemb. cbn [fst snd].
    split; [exact Hs|eauto].
Qed.

Lemma prefix_pbind_after {A B : Type} (content_id : string)
  (todo : list (list Chunk)) (c : P (X := X') A) (k : A -> P B) :
  frames c ->
  (forall a w, exists n : nat,
      upserts (snd (k a w))
      = upserts w ++ List.map (batch_call content_id) (List.firstn n todo)) ->
  forall w, exists n : nat,
    upserts (snd (pbind c k w))
    = upserts w ++ List.map (batch_call content_id) (List.firstn n todo).
Proof.
  intros Hc Hk w. unfold pbind. specialize (Hc w).
  destruct (c w) as [[a|e] w1]; cbn [snd] in Hc.
  - destruct (Hk a w1) as [n H]. exists n. rewrite H, Hc. reflexivity.
  - exists 0%nat. cbn. rewrite List.app_nil_r. exact Hc.
Qed.

Lemma store_batches_upserts (content_id : string) (chunks_count : Z)
  (todo : list (list Chunk)) :
  forall (stored_count : Z) (w : world),
    exists k : nat,
      upserts (snd (store_batches ext' callbacks' content_id chunks_count
                      todo stored_count w))
      = upserts w ++ List.map (batch_call content_id) (List.firstn k todo).
Proof.
  induction todo as [|batch rest IH]; intros stored_count w.
  - exists 0%nat. cbn. rewrite List.app_nil_r. reflexivity.
  - cbn [store_batches]. unfold pbind at 1. unfold lift at 1.
    destruct w as [e p]. cbn [fst snd].
    pose proof (store_chunks_upserts batch content_id e) as Hst.
    cbv zeta in Hst.
    destruct (store_chunks ext' batch content_id e) as [[n|err] e1];
      cbn [fst snd] in Hst.
    + destruct Hst as [Hst|[_ [e0 Habs]]]; [|discriminate].
      cbv zeta.
      match goal with
      | |- exists k, upserts (snd (pbind ?c ?f (e1, p))) = _ =>
          destruct (prefix_pbind_after content_id rest c f) with (w := (e1, p))
            as [k Hk]
      end.
      * intros w0. reflexivity.
      * intros part. apply prefix_pbind_after.
        -- apply frames_progress.
        -- intros _. apply IH.
      * exists (Datatypes.S k). cbn [List.firstn List.map]. rewrite Hk.
        unfold upserts. cbn [fst snd]. rewrite Hst, <- List.app_assoc.
        reflexivity.
    + destruct Hst as [Hst|[Hst _]].
      * exists 1%nat. cbn [List.firstn List.map]. unfold upserts.
        cbn [fst snd]. exact Hst.
      * exists 0%nat. cbn [List.firstn List.map]. unfold upserts.
        cbn [fst snd]. rewrite List.app_nil_r. exact Hst.
Qed.

Lemma batch_call_ids (content_id : string) (batch : list Chunk) :
  (List.length batch <= 10)%nat ->
  fst (batch_call content_id batch) = content_id
  /\ exists n : nat,
       (n <= 10)%nat
       /\ snd (batch_call content_id batch)
          = List.map (vector_id content_id) (seq 0 n).
Proof.
  intros Hlen. split; [reflexivity|].
  exists (List.length batch). split; [exact Hlen|reflexivity].
Qed.

Local Ltac frame :=
  first [ apply frames_progress | apply frames_pclock
        | apply frames_lift_extern | apply frames_self
        | apply frames_chunk | apply frames_pret ].

Lemma process_document_body_stores (file_path file_type content_id : string) :
  stores_batches content_id
    (process_document_body ext' (beside create_index)
       (fun path type => beside (convert path type)) callbacks'
       file_path file_type content_id).
Proof.
  unfold process_document_body. cbv zeta.
  repeat (apply stores_pbind_after; [frame|intros ?]).
  apply stores_pbind_before.
  - intros w.
    match goal with
    | |- context [batches (List.length ?chunks) 10 ?chunks] =>
        exists chunks
    end.
    apply store_batches_upserts.
  - intros _. repeat (apply frames_pbind; [frame|intros ?]). frame.
Qed.

(** X25.  Whatever the collaborators do, every call [process_document]
    makes to [upsert_vectors] uses the content id as namespace and
    writes at most ten vectors, under the ids [<content_id>_chunk_0],
    [<content_id>_chunk_1], ... numbered from 0 in each call: the
    calls for the successive batches of one document write under the
    same ids. *)
Theorem process_document_upserts_reuse_ids
  (file_path file_type content_id : string) (w : world) :
  exists calls : list upsert_call,
    upserts (snd (process_document ext' (beside create_index)
                    (fun path type => beside (convert path type))
                    callbacks' file_path file_type content_id w))
    = upserts w ++ calls
    /\ Forall (fun call : upsert_call =>
                 fst call = content_id
                 /\ exists n : nat,
                      (n <= 10)%nat
                      /\ snd call
                         = List.map (vector_id content_id) (seq 0 n))
         calls.
Proof.
  destruct (process_document_body_stores file_path file_type content_id w)
    as (chunks & k & Hbody).
  exists (List.map (batch_call content_id)
            (List.firstn k (batches (List.length chunks) 10 chunks))).
  split.
  - unfold process_document.
    destruct (process_document_body _ _ _ _ _ _ _ w) as [[result|e] w1];
      cbn [snd] in Hbody; [exact Hbody|].
    rewrite <- Hbody.
    apply (frames_pbind
             (_update_progress ext' callbacks' ERROR 0
                ("Processing failed: " ++ exn_str e)%string
                (Some [("error", JStr (exn_str e))]))).
    + apply frames_progress.
    + intros _. apply frames_pbind; [apply frames_self|].
      intros p. apply frames_pret.
  - apply List.Forall_forall. intros call Hin.
    apply List.in_map_iff in Hin. destruct Hin as (batch & <- & Hin).
    apply batch_call_ids.
    pose proof (batches_short 10 (List.length chunks) chunks) as Hshort.
    rewrite List.Forall_forall in Hshort. apply Hshort.
    rewrite <- (List.firstn_skipn k (batches _ 10 chunks)).
    apply List.in_or_app. left. exact Hin.
Qed.

(** A document of twelve paragraphs, one chunk each: two batches, and the
    second call writes again under the first two ids of the first. *)
Lemma process_document_upserts_example :
  upserts (snd (process_document (recorded (Mock.ext all_up))
                  (beside index_ready)
                  (fun path type => beside (reads_twelve path type)) []
                  "notes.md" "text/markdown" sample_content_id
                  (recorded_world, small_pipeline)))
  = [(sample_content_id,
      List.map (vector_id sample_content_id) (seq 0 10));
     (sample_content_id,
      List.map (vector_id sample_content_id) (seq 0 2))].
Proof. vm_compute. reflexivity. Qed.

End Upserts.

End PipelineFacts.

(* ===================================================================== *)
(** * The background task of an upload *)
(* ===================================================================== *)

Module ContentRouteFacts.
Import Engine Pipeline ContentRoutes Samples PipelineSamples RouteSamples.
Local Open Scope list_scope.

Section Background.
Context {X : Type}.
Variable ext : externals X.
Variable create_index : operation X unit.
Variable convert : string -> string -> operation X conversion_result.
Variable ObjectId : string -> result string.
Variable update_one : string -> dict -> operation X unit.
Variable build_clients : operation X unit.
Variable suffix_lower : string -> string.

Local Abbreviation task :=
  (process_content_background ext create_index convert ObjectId update_one
     build_clients suffix_lower).
Local Abbreviation update := (ContentRoutes.update update_one).

Lemma update_log (oid : string) (fields : dict) (s : tworld) :
  snd (snd (update oid fields s)) = snd s ++ [(oid, fields)].
Proof.
  unfold ContentRoutes.update.
  destruct (extern (update_one oid fields) (fst s)). reflexivity.
Qed.

(** X26.  Once the content is marked as processing and the pipeline is
    built, the task always asks for the status [completed]: the
    pipeline returns a result also when it failed, and the task does not
    read [success].  A failed run is written with [chunks_count] 0, and
    [embeddings_count] is 0 in every case, since no result has that key.
    When that update returns, it is the last one and the task returns;
    the status [failed] follows exactly when that update itself raises,
    with the text of its exception. *)
Theorem processing_is_always_marked_completed
  (content_id file_path user_id oid : string) (s s1 s2 : tworld) :
  ObjectId content_id = Ok oid ->
  update oid [("status", JStr "processing")] s = (Ok tt, s1) ->
  in_process (extern build_clients) s1 = (Ok tt, s2) ->
  exists (result : dict) (w3 : pworld) (count : jval)
         (tail : list content_update),
    process_document ext create_index convert [] file_path
      (map_get (suffix_lower file_path) "application/octet-stream"
         mime_type_map)
      content_id (fst s2, Pipeline.new)
    = (Ok result, w3)
    /\ snd (snd (task content_id file_path user_id s))
       = snd s
         ++ [(oid, [("status", JStr "processing")]);
             (oid, [("status", JStr "completed");
                    ("chunks_count", count);
                    ("embeddings_count", JInt 0)])]
         ++ tail
    /\ (dict_get "success" result = Some (JBool false) -> count = JInt 0)
    /\ match fst (update oid
                    [("status", JStr "completed");
                     ("chunks_count", count);
                     ("embeddings_count", JInt 0)]
                    (fst w3, snd s2)) with
       | Ok _ =>
           tail = [] /\ fst (task content_id file_path user_id s) = Ok tt
       | Raise e =>
           tail = [(oid, [("status", JStr "failed");
                          ("error_message", JStr (exn_str e))])]
       end.
Proof.
  intros Hid Hfirst Hbuild.
  destruct (PipelineFacts.process_document_returns ext create_index convert
              [] file_path
              (map_get (suffix_lower file_path) "application/octet-stream"
                 mime_type_map)
              content_id (fst s2, Pipeline.new))
    as (result & w3 & Hrun & Hemb & Hkeys).
  exists result, w3, (default (JInt 0) (dict_get "chunks_count" result)).
  assert (Hlog1 : snd s1 = snd s ++ [(oid, [("status", JStr "processing")])]).
  { pose proof (update_log oid [("status", JStr "processing")] s) as H.
    rewrite Hfirst in H. exact H. }
  assert (Hlog2 : snd s2 = snd s1).
  { unfold in_process in Hbuild.
    destruct (extern build_clients (fst s1)). injection Hbuild as _ <-.
    reflexivity. }
  assert (Htask :
            task content_id file_path user_id s
            = match update oid
                      [("status", JStr "completed");
                       ("chunks_count",
                        default (JInt 0) (dict_get "chunks_count" result));
                       ("embeddings_count", JInt 0)]
                      (fst w3, snd s2) with
              | (Ok u, s') => (Ok u, s')
              | (Raise e, s') =>
                  update oid
                    [("status", JStr "failed");
                     ("error_message", JStr (exn_str e))] s'
              end).
  { unfold process_content_background. rewrite Hid.
    unfold process_content_background_body, tbind.
    rewrite Hfirst, Hbuild. cbv zeta. unfold run_pipeline.
    rewrite Hrun, Hemb. reflexivity. }
  rewrite Htask. clear Htask.
  match goal with
  | |- context [ContentRoutes.update update_one oid ?fields ?s3] =>
      pose proof (update_log oid fields s3) as Hlast;
      destruct (ContentRoutes.update update_one oid fields s3)
        as [[u|e] s4] eqn:Hupd
  end; cbn [fst snd] in Hlast |- *.
  - exists []. split; [exact Hrun|]. split.
    + rewrite Hlast, Hlog2, Hlog1, List.app_nil_r.
      rewrite <- List.app_assoc. reflexivity.
    + split; [|destruct u; split; reflexivity]. intros Hfail.
      destruct Hkeys as [[Hs _]|[_ Hc]]; [congruence|].
      rewrite Hc. reflexivity.
  - exists [(oid, [("status", JStr "failed");
                   ("error_message", JStr (exn_str e))])].
    split; [exact Hrun|]. split.
    + rewrite update_log, Hlast, Hlog2, Hlog1.
      repeat rewrite <- List.app_assoc. reflexivity.
    + split; [|reflexivity]. intros Hfail.
      destruct Hkeys as [[Hs _]|[_ Hc]]; [congruence|].
      rewrite Hc. reflexivity.
Qed.

(** The handler of the task needs the object id: a content id that is
    no object id ends the task with an exception of its own, and no
    update is requested. *)
Lemma invalid_object_id_escapes (content_id file_path user_id : string)
  (e : exn) (s : tworld) :
  ObjectId content_id = Raise e ->
  task content_id file_path user_id s
  = (Raise (OtherError "UnboundLocalError"), s).
Proof.
  intros Hid. unfold process_content_background. rewrite Hid. reflexivity.
Qed.

End Background.

Lemma processing_is_always_marked_completed_witness :
  let out :=
    process_content_background (Mock.ext all_up) index_down reads_twelve
      any_id db_up clients_ready markdown_suffix sample_content_id
      "notes.md" sample_user (fresh_world, []) in
  fst out = Ok tt
  /\ snd (snd out)
     = [(sample_content_id, [("status", JStr "processing")]);
        (sample_content_id, [("status", JStr "completed");
                             ("chunks_count", JInt 0);
                             ("embeddings_count", JInt 0)])].
Proof.
  assert (H1 : any_id sample_content_id = Ok sample_content_id)
    by reflexivity.
  pose (s := (fresh_world, @nil content_update)).
  pose (s1 := snd (ContentRoutes.update db_up sample_content_id
                     [("status", JStr "processing")] s)).
  assert (H2 : ContentRoutes.update db_up sample_content_id
                 [("status", JStr "processing")] s = (Ok tt, s1))
    by reflexivity.
  assert (H3 : in_process (extern clients_ready) s1 = (Ok tt, s1))
    by reflexivity.
  destruct (processing_is_always_marked_completed (Mock.ext all_up)
              index_down reads_twelve any_id db_up clients_ready
              markdown_suffix sample_content_id "notes.md" sample_user
              sample_content_id s s1 s1 H1 H2 H3)
    as (result & w3 & count & tail & Hrun & Hlog & Hcount & Htail).
  vm_compute in Hrun. injection Hrun as <- <-.
  rewrite (Hcount eq_refl) in Hlog, Htail.
  change (fst (ContentRoutes.update db_up sample_content_id
                 [("status", JStr "completed"); ("chunks_count", JInt 0);
                  ("embeddings_count", JInt 0)] _))
    with (@Ok unit tt) in Htail.
  destruct Htail as [-> Hret].
  cbv zeta. split; [exact Hret|exact Hlog].
Defined.

End ContentRouteFacts.

(* ===================================================================== *)
(** * Code fences in the reply of the classifier *)
(* ===================================================================== *)

Module FenceFacts.
Import Engine FenceSpec.
Local Open Scope list_scope.

Lemma prefix_same (a : ascii) (p s : string) :
  String.prefix (String a p) (String a s) = String.prefix p s.
Proof.
  cbn [String.prefix]. destruct (ascii_dec a a); [reflexivity|contradiction].
Qed.

Lemma prefix_app (sep rest : string) :
  String.prefix sep (sep ++ rest)%string = true.
Proof.
  induction sep as [|a sep IH]; [destruct rest; reflexivity|].
  rewrite KeyFacts.append_cons, prefix_same. exact IH.
Qed.

Lemma prefix_backtick_plain (p s : string) :
  no_backtick s = true -> String.prefix (String backtick p) s = false.
Proof.
  destruct s as [|c s]; [reflexivity|]. cbn [no_backtick String.prefix].
  intros H. apply andb_prop in H. destruct H as [H _].
  destruct (ascii_dec backtick c) as [<-|_]; [|reflexivity].
  rewrite Ascii.eqb_refl in H. discriminate H.
Qed.

Lemma no_backtick_tail (c : ascii) (s : string) :
  no_backtick (String c s) = true -> no_backtick s = true.
Proof.
  cbn [no_backtick]. intros H. apply andb_prop in H. tauto.
Qed.

Section Separator.
(** A separator that starts with a backtick. *)
Variable p : string.
Local Abbreviation sep := (String backtick p).

Lemma split_on_step (c : ascii) (s : string) (cur : list ascii) :
  Py.split_on sep (String c s) cur 0
  = if String.prefix sep (String c s)
    then Py.rev_string cur :: Py.split_on sep s [] (String.length sep - 1)
    else Py.split_on sep s (c :: cur) 0.
Proof. reflexivity. Qed.

Lemma split_on_plain (pre rest : string) :
  forall cur : list ascii,
    no_backtick pre = true ->
    exists cur' : list ascii,
      Py.split_on sep (pre ++ rest)%string cur 0
      = Py.split_on sep rest cur' 0
      /\ Py.rev_string cur' = (Py.rev_string cur ++ pre)%string.
Proof.
  induction pre as [|c pre IH]; intros cur Hpre.
  - exists cur. split; [reflexivity|].
    rewrite KeyFacts.append_nil_r. reflexivity.
  - rewrite KeyFacts.append_cons, split_on_step.
    assert (Hpf : String.prefix sep (String c (pre ++ rest)) = false).
    { cbn [String.prefix]. cbn [no_backtick] in Hpre.
      apply andb_prop in Hpre. destruct Hpre as [Hc _].
      destruct (ascii_dec backtick c) as [<-|_]; [|reflexivity].
      rewrite Ascii.eqb_refl in Hc. discriminate Hc. }
    rewrite Hpf.
    destruct (IH (c :: cur) (no_backtick_tail c pre Hpre))
      as (cur' & Hs & Hr).
    exists cur'. split; [exact Hs|].
    rewrite Hr, SectionFacts.rev_string_cons, KeyFacts.append_assoc.
    reflexivity.
Qed.

Lemma split_on_skip (t rest : string) (cur : list ascii) :
  Py.split_on sep (t ++ rest)%string cur (String.length t)
  = Py.split_on sep rest cur 0.
Proof.
  induction t as [|c t IH]; [reflexivity|]. exact IH.
Qed.

Lemma split_on_hit (rest : string) (cur : list ascii) :
  Py.split_on sep (sep ++ rest)%string cur 0
  = Py.rev_string cur :: Py.split_on sep rest [] 0.
Proof.
  rewrite KeyFacts.append_cons, split_on_step.
  rewrite <- KeyFacts.append_cons, prefix_app.
  cbn [String.length]. rewrite Nat.sub_succ, Nat.sub_0_r.
  rewrite split_on_skip. reflexivity.
Qed.

Lemma rev_string_nil_app (s : string) :
  (Py.rev_string [] ++ s)%string = s.
Proof. reflexivity. Qed.

(** A text without backtick before the first separator is the first
    field. *)
Lemma split_on_first (pre rest : string) :
  no_backtick pre = true ->
  Py.split_on sep (pre ++ sep ++ rest)%string [] 0
  = pre :: Py.split_on sep rest [] 0.
Proof.
  intros Hpre.
  destruct (split_on_plain pre (sep ++ rest) [] Hpre) as (cur' & Hs & Hr).
  rewrite Hs, split_on_hit, Hr. reflexivity.
Qed.

Lemma split_on_none (s : string) :
  no_backtick s = true -> Py.split_on sep s [] 0 = [s].
Proof.
  intros Hs.
  destruct (split_on_plain s EmptyString [] Hs) as (cur' & Hsp & Hr).
  rewrite KeyFacts.append_nil_r in Hsp. rewrite Hsp.
  cbn [Py.split_on]. rewrite Hr. reflexivity.
Qed.

Lemma contains_hit (pre rest : string) :
  Py.contains sep (pre ++ sep ++ rest)%string = true.
Proof.
  induction pre as [|c pre IH].
  - change (EmptyString ++ sep ++ rest)%string
      with (String backtick (p ++ rest))%string.
    cbn [Py.contains]. rewrite <- KeyFacts.append_cons, prefix_app.
    reflexivity.
  - rewrite KeyFacts.append_cons. cbn [Py.contains]. rewrite IH.
    apply orb_true_r.
Qed.

Lemma contains_none (s : string) :
  no_backtick s = true -> Py.contains sep s = false.
Proof.
  induction s as [|c s IH]; intros Hs; [reflexivity|].
  cbn [Py.contains]. rewrite (prefix_backtick_plain p _ Hs).
  rewrite (IH (no_backtick_tail c s Hs)). reflexivity.
Qed.

End Separator.

(** The first field of the text that follows an opening [```json]: the
    body, alone or still followed by the closing fence. *)
Lemma json_field (body post : string) :
  no_backtick body = true -> no_backtick post = true ->
  let field :=
    hd EmptyString (Py.split_on fence_json (body ++ fence ++ post) [] 0) in
  field = body \/ field = (body ++ fence ++ post)%string.
Proof.
  intros Hbody Hpost. cbv zeta.
  destruct (split_on_plain "``json" body (fence ++ post) [] Hbody)
    as (cur & Hs & Hr).
  change (String backtick "``json") with fence_json in Hs.
  rewrite Hs. change (Py.rev_string [] ++ body)%string with body in Hr.
  change (fence ++ post)%string
    with (String backtick (String backtick (String backtick post))).
  change fence_json with (String backtick "``json").
  rewrite split_on_step, !prefix_same.
  destruct (String.prefix "json" post) eqn:Hjson.
  - left. cbn [hd]. exact Hr.
  - right.
    rewrite split_on_step, !prefix_same.
    change (String.prefix "`json" post)
      with (String.prefix (String backtick "json") post).
    rewrite (prefix_backtick_plain "json" post Hpost).
    rewrite split_on_step, !prefix_same.
    change (String.prefix "``json" post)
      with (String.prefix (String backtick "`json") post).
    rewrite (prefix_backtick_plain "`json" post Hpost).
    destruct (split_on_plain "``json" post EmptyString
                (backtick :: backtick :: backtick :: cur) Hpost)
      as (cur2 & Hs2 & Hr2).
    rewrite KeyFacts.append_nil_r in Hs2.
    rewrite Hs2. cbn [Py.split_on hd]. rewrite Hr2.
    rewrite !SectionFacts.rev_string_cons, Hr, !KeyFacts.append_assoc.
    reflexivity.
Qed.

Lemma nth_first {A : Type} (l : list A) (d : A) : nth 0 l d = hd d l.
Proof. destruct l; reflexivity. Qed.

Lemma first_field_body (body rest : string) :
  no_backtick body = true ->
  hd EmptyString (Py.split_on fence (body ++ fence ++ rest) [] 0) = body.
Proof.
  intros Hbody. change fence with (String backtick "``").
  rewrite (split_on_first "``" body rest Hbody). reflexivity.
Qed.

(** X28.  What [classify_query] parses.  A reply that wraps its answer
    in a [```json] fence is cut down to the text between the fences,
    stripped, whatever stands before the opening and after the closing
    fence; the closing fence may be missing.  The same holds for a bare
    [```] fence, when the reply holds no [```json].  A reply without
    backtick is parsed as it is. *)
Theorem fenced_reply_is_unwrapped (pre body post : string) :
  no_backtick pre = true -> no_backtick body = true ->
  no_backtick post = true ->
  strip_fences (pre ++ fence_json ++ body ++ fence ++ post)
  = Py.strip body
  /\ strip_fences (pre ++ fence_json ++ body) = Py.strip body
  /\ (Py.contains fence_json (pre ++ fence ++ body ++ fence ++ post) = false ->
      strip_fences (pre ++ fence ++ body ++ fence ++ post) = Py.strip body)
  /\ strip_fences pre = pre.
Proof.
  intros Hpre Hbody Hpost.
  assert (Hplain : hd EmptyString (Py.split_on fence body [] 0) = body).
  { change fence with (String backtick "``").
    rewrite (split_on_none "``" body Hbody). reflexivity. }
  split; [|split; [|split]].
  - unfold strip_fences.
    change fence_json with (String backtick "``json") at 1 2.
    rewrite (contains_hit "``json").
    change (String backtick "``json") with fence_json.
    change fence_json with (String backtick "``json") at 1 2.
    rewrite (split_on_first "``json" pre _ Hpre).
    change (String backtick "``json") with fence_json.
    cbn [nth].
    rewrite nth_first.
    destruct (json_field body post Hbody Hpost) as [H|H]; rewrite H.
    + rewrite Hplain. reflexivity.
    + rewrite (first_field_body body post Hbody). reflexivity.
  - unfold strip_fences.
    change fence_json with (String backtick "``json") at 1 2.
    rewrite (contains_hit "``json").
    change (String backtick "``json") with fence_json.
    change fence_json with (String backtick "``json") at 1 2.
    rewrite (split_on_first "``json" pre _ Hpre).
    rewrite (split_on_none "``json" body Hbody).
    cbn [nth]. rewrite Hplain. reflexivity.
  - intros Hno. unfold strip_fences. rewrite Hno.
    change fence with (String backtick "``") at 1 2.
    rewrite (contains_hit "``").
    change (String backtick "``") with fence.
    change fence with (String backtick "``") at 1 2.
    rewrite (split_on_first "``" pre _ Hpre).
    change (String backtick "``") with fence.
    cbn [nth]. rewrite nth_first.
    rewrite (first_field_body body post Hbody), Hplain. reflexivity.
  - unfold strip_fences.
    change fence_json with (String backtick "``json").
    rewrite (contains_none "``json" pre Hpre).
    change fence with (String backtick "``").
    rewrite (contains_none "``" pre Hpre). reflexivity.
Qed.

Lemma fenced_reply_witness :
  strip_fences "Here it is: ```json {} ``` Done."%string = "{}"%string
  /\ strip_fences "```{}```"%string = "{}"%string.
Proof.
  assert (H1 : no_backtick "Here it is: " = true) by reflexivity.
  assert (H2 : no_backtick " {} " = true) by reflexivity.
  assert (H3 : no_backtick " Done." = true) by reflexivity.
  assert (H4 : no_backtick EmptyString = true) by reflexivity.
  assert (H5 : no_backtick "{}" = true) by reflexivity.
  assert (H6 : Py.contains fence_json (EmptyString ++ fence ++ "{}" ++ fence ++ EmptyString)
               = false) by (vm_compute; reflexivity).
  pose proof (fenced_reply_is_unwrapped "Here it is: " " {} " " Done."
                H1 H2 H3) as [Ha _].
  pose proof (fenced_reply_is_unwrapped EmptyString "{}" EmptyString H4 H5 H4)
    as (_ & _ & Hb & _).
  split; [exact Ha|exact (Hb H6)].
Defined.

End FenceFacts.
